(** * typechk: the pickling layer ([src/Pickle.ts]) over its predicate library
      ([src/TypeChk.ts], [src/Types.ts])

    The development is a shallow embedding.  JavaScript values are an
    inductive type [value]; the predicates of [TypeChk.ts] are boolean
    functions on it; the functions of [Pickle.ts] are functions that return an
    [outcome] (a value, a thrown exception, or no answer of the model).

    The two services of the host that [Pickle] and [Unpickle] call,
    [JSON.stringify(input, replacer)] and [JSON.parse(input, reviver)], are
    written out after ECMA-262 ([SerializeJSONProperty],
    [InternalizeJSONProperty]).  JSON text is represented by its syntax tree
    [json]: [JSON.stringify] prints exactly one text per tree and [JSON.parse]
    reads that text back to the same tree, so equality of trees is equality
    of the texts [Pickle] returns.

    Conversions between text and dates, and the construction of regular
    expressions, are implementation business of the host; they are the
    fields of the class [Host], and the results are proved for every host. *)

From Stdlib Require Import ZArith List String Ascii Bool Arith Lia.
From Stdlib Require Import Floats.PrimFloat Floats.FloatClass.
From Stdlib Require Import Floats.SpecFloat Floats.FloatOps Floats.FloatAxioms.
From Stdlib Require Import Numbers.DecimalString Numbers.DecimalPos Numbers.DecimalZ.
Import ListNotations.

Open Scope string_scope.
Open Scope list_scope.

Set Warnings "-register-all".

(** ** Outcomes of a call *)

(** What a [throw] carries.  [Error msg] is [new Error(msg)]; the two others
    are the host's own exceptions. *)
Inductive exn : Type :=
| Error (msg : string)
| TypeError
| SyntaxError.

(** Why the model gives no answer: the traversal was cut by its fuel, a
    built-in encoder was handed a value its TypeScript signature excludes,
    or a checker of object shapes met a key the model of the checkers has
    no answer for. *)
Inductive blocked : Type :=
| OutOfFuel
| IllTyped
| Unanswered.

Inductive outcome (A : Type) : Type :=
| Ok (a : A)
| Throw (e : exn)
| Stuck (w : blocked).

Arguments Ok {A} a.
Arguments Throw {A} e.
Arguments Stuck {A} w.

Definition bind {A B : Type} (m : outcome A) (k : A -> outcome B) : outcome B :=
  match m with
  | Ok a => k a
  | Throw e => Throw e
  | Stuck w => Stuck w
  end.

Notation "x <- m ;; k" := (bind m (fun x => k))
  (at level 61, m at next level, right associativity).

(** [try { m } catch (e) { h }] *)
Definition try_catch {A : Type} (m : outcome A) (h : outcome A) : outcome A :=
  match m with
  | Throw _ => h
  | other => other
  end.

(** Left-to-right evaluation of [f] over a list, stopping at the first call
    that does not return. *)
Fixpoint mapM {A B : Type} (f : A -> outcome B) (l : list A) : outcome (list B) :=
  match l with
  | [] => Ok []
  | x :: rest =>
      y <- f x ;;
      ys <- mapM f rest ;;
      Ok (y :: ys)
  end.

(** ** Values *)

(** Symbols.  [SymFor key] is [Symbol.for(key)], the entry of the global
    symbol registry under [key]; [SymLocal id] is the [id]-th symbol made by
    [Symbol()], which has no key.  Well-known symbols ([Symbol.iterator]) are
    never held by a value of the model: the only objects that answer to
    [Symbol.iterator] are arrays, Maps and Sets, through their prototypes. *)
Inductive symbol : Type :=
| SymFor (key : string)
| SymLocal (id : nat).

Definition symbol_eqb (a b : symbol) : bool :=
  match a, b with
  | SymFor k, SymFor k' => String.eqb k k'
  | SymLocal i, SymLocal j => Nat.eqb i j
  | _, _ => false
  end.

Definition Symbol_for (key : string) : symbol := SymFor key.

Definition Symbol_keyFor (s : symbol) : option string :=
  match s with
  | SymFor key => Some key
  | SymLocal _ => None
  end.

Inductive propkey : Type :=
| KStr (name : string)
| KSym (s : symbol).

Definition propkey_eqb (a b : propkey) : bool :=
  match a, b with
  | KStr x, KStr y => String.eqb x y
  | KSym x, KSym y => symbol_eqb x y
  | _, _ => false
  end.

(** A JavaScript value.  Every object carries the list [own] of its own
    properties in property order (the order of OwnPropertyKeys; all
    enumerable, all data properties), so a
    Map, a Set, a Date, a RegExp or an array can carry a custom-type marker
    like any other object.

    - [VFunction ret] is a function whose call returns [ret] and does nothing
      else (as [() => 'My Test Thingy']); it has no property of its own.
    - [VArray elems own]: a hole of an array is read as [VUndefined].
    - [VMap entries own], [VSet elems own]: the entries in insertion order.
    - [VDate t own]: [t] is the time value in milliseconds, [None] for the NaN
      of an invalid date.
    - [VRegExp source flags own]: what [.source] and [.flags] read.

    Objects are trees: no cycle, and no object identity. *)
Inductive value : Type :=
| VUndefined
| VNull
| VBoolean (b : bool)
| VNumber (n : float)
| VString (s : string)
| VSymbol (s : symbol)
| VBigInt (z : Z)
| VFunction (ret : value)
| VArray (elems : list value) (own : list (propkey * value))
| VObject (own : list (propkey * value))
| VMap (entries : list (value * value)) (own : list (propkey * value))
| VSet (elems : list value) (own : list (propkey * value))
| VDate (t : option Z) (own : list (propkey * value))
| VRegExp (source flags : string) (own : list (propkey * value)).

Definition props : Type := list (propkey * value).

(** The induction principle that reaches the values nested in the lists. *)
Section ValueInduction.
Variable P : value -> Prop.

Definition Pprops (own : props) : Prop := Forall (fun kv => P (snd kv)) own.
Definition Pentries (l : list (value * value)) : Prop :=
  Forall (fun kv => P (fst kv) /\ P (snd kv)) l.

Hypothesis HUndefined : P VUndefined.
Hypothesis HNull : P VNull.
Hypothesis HBoolean : forall b, P (VBoolean b).
Hypothesis HNumber : forall n, P (VNumber n).
Hypothesis HString : forall s, P (VString s).
Hypothesis HSymbol : forall s, P (VSymbol s).
Hypothesis HBigInt : forall z, P (VBigInt z).
Hypothesis HFunction : forall ret, P ret -> P (VFunction ret).
Hypothesis HArray : forall elems own,
    Forall P elems -> Pprops own -> P (VArray elems own).
Hypothesis HObject : forall own, Pprops own -> P (VObject own).
Hypothesis HMap : forall entries own,
    Pentries entries -> Pprops own -> P (VMap entries own).
Hypothesis HSet : forall elems own,
    Forall P elems -> Pprops own -> P (VSet elems own).
Hypothesis HDate : forall t own, Pprops own -> P (VDate t own).
Hypothesis HRegExp : forall source flags own,
    Pprops own -> P (VRegExp source flags own).

Fixpoint value_nested_ind (v : value) : P v :=
  let on_list := fix on_list (l : list value) : Forall P l :=
    match l with
    | [] => Forall_nil _
    | x :: r => Forall_cons _ (value_nested_ind x) (on_list r)
    end in
  let on_props := fix on_props (l : props) : Pprops l :=
    match l with
    | [] => Forall_nil _
    | kv :: r => Forall_cons _ (value_nested_ind (snd kv)) (on_props r)
    end in
  let on_entries := fix on_entries (l : list (value * value)) : Pentries l :=
    match l with
    | [] => Forall_nil _
    | kv :: r =>
        Forall_cons _ (conj (value_nested_ind (fst kv)) (value_nested_ind (snd kv)))
          (on_entries r)
    end in
  match v with
  | VUndefined => HUndefined
  | VNull => HNull
  | VBoolean b => HBoolean b
  | VNumber n => HNumber n
  | VString s => HString s
  | VSymbol s => HSymbol s
  | VBigInt z => HBigInt z
  | VFunction ret => HFunction ret (value_nested_ind ret)
  | VArray elems own => HArray elems own (on_list elems) (on_props own)
  | VObject own => HObject own (on_props own)
  | VMap entries own => HMap entries own (on_entries entries) (on_props own)
  | VSet elems own => HSet elems own (on_list elems) (on_props own)
  | VDate t own => HDate t own (on_props own)
  | VRegExp source flags own => HRegExp source flags own (on_props own)
  end.
End ValueInduction.

(** The syntax tree of a JSON text.  The members of an object are in the
    order of the text and may repeat a name. *)
Inductive json : Type :=
| JNull
| JBool (b : bool)
| JNumber (n : float)
| JString (s : string)
| JArray (items : list json)
| JObject (members : list (string * json)).

(** ** The host *)

(** The time values a Date may hold (ECMA-262, time range). *)
Definition time_in_range (t : Z) : Prop :=
  (-8640000000000000 <= t <= 8640000000000000)%Z.

(** What the model takes from the host besides JSON.

    - [Date_toISOString t] is [new Date(t).toISOString()].
    - [Date_parse s] is the time value of [new Date(s)], [None] when it is
      NaN.  ECMA-262 leaves the accepted formats to the implementation, and
      only requires that the text of [toISOString] is read back
      ([Date_parse_toISOString]).
    - [RegExp_new pattern flags] is [new RegExp(pattern, flags)]: [None] when
      it throws a SyntaxError, otherwise the [source] and the [flags] of the
      new object. *)
Class Host : Type := {
  Date_toISOString : Z -> string;
  Date_parse : string -> option Z;
  RegExp_new : string -> string -> option (string * string);
  Date_parse_toISOString :
    forall t, time_in_range t -> Date_parse (Date_toISOString t) = Some t
}.

(** ** [src/Types.ts] *)

Definition FreikTypeTag : symbol := Symbol_for "freik.typetag".

(** ** [src/TypeChk.ts] *)

Module TypeChk.
Section Predicates.
Context {host : Host}.

(** [typecheck<T>] of [src/Types.ts] *)
Definition typecheck : Type := value -> bool.

Definition typeof (obj : value) : string :=
match obj with
| VUndefined => "undefined"
| VBoolean _ => "boolean"
| VNumber _ => "number"
| VString _ => "string"
| VSymbol _ => "symbol"
| VBigInt _ => "bigint"
| VFunction _ => "function"
| VNull | VArray _ _ | VObject _ | VMap _ _ | VSet _ _
| VDate _ _ | VRegExp _ _ _ => "object"
end.

(** The own properties of an object, and [Object.keys]. *)
Definition own_props (obj : value) : props :=
match obj with
| VArray _ own | VObject own | VMap _ own | VSet _ own
| VDate _ own | VRegExp _ _ own => own
| _ => []
end.

Fixpoint assoc (key : propkey) (l : props) : option value :=
match l with
| [] => None
| (k, v) :: rest => if propkey_eqb key k then Some v else assoc key rest
end.

Definition string_keys (own : props) : list string :=
flat_map (fun kv => match fst kv with KStr k => [k] | KSym _ => [] end) own.

Definition index_keys (n : nat) : list string :=
map (fun i => NilZero.string_of_uint (Nat.to_uint i)) (seq 0 n).

Definition Object_keys (obj : value) : list string :=
match obj with
| VArray elems own => index_keys (List.length elems) ++ string_keys own
| _ => string_keys (own_props obj)
end.

(** The values of the own properties: of the indices of an array first,
  then of [own] (string keys and symbols). *)
Definition own_values (obj : value) : list value :=
match obj with
| VArray elems own => elems ++ map snd own
| _ => map snd (own_props obj)
end.

(** [Date.prototype.toJSON]: null for an invalid date, else the ISO text. *)
Definition Date_toJSON (t : option Z) : value :=
match t with
| Some ms => VString (Date_toISOString ms)
| None => VNull
end.

(** The properties an object takes from its prototype, for the names this
  repository reads: [toJSON] of a Date, [source] and [flags] of a
  RegExp.  A method is the function of its result on this receiver. *)
Definition inherited (obj : value) (key : propkey) : option value :=
match obj, key with
| VDate t _, KStr "toJSON" => Some (VFunction (Date_toJSON t))
| VRegExp source _ _, KStr "source" => Some (VString source)
| VRegExp _ flags _, KStr "flags" => Some (VString flags)
| _, _ => None
end.

(** [key in obj] and [obj[key]], for a property that is not an index. *)
Definition lookup (obj : value) (key : propkey) : option value :=
match assoc key (own_props obj) with
| Some v => Some v
| None => inherited obj key
end.

Definition Get (obj : value) (key : propkey) : value :=
match lookup obj key with
| Some v => v
| None => VUndefined
end.

Definition isUndefined (obj : value) : bool :=
match obj with VUndefined => true | _ => false end.

Definition isDefined (obj : value) : bool := negb (isUndefined obj).

Definition isNull (obj : value) : bool :=
match obj with VNull => true | _ => false end.

Definition isEmpty (obj : value) : bool := isUndefined obj || isNull obj.

Definition isNonNullable (obj : value) : bool := negb (isEmpty obj).

Definition isOneOf (obj : value) (chk1 chk2 : typecheck) : bool :=
chk1 obj || chk2 obj.

Definition chkOneOf (chk1 chk2 : typecheck) : typecheck :=
fun obj => isOneOf obj chk1 chk2.

Definition isBothOf (obj : value) (chk1 chk2 : typecheck) : bool :=
chk1 obj && chk2 obj.

Definition isObject (obj : value) : bool := typeof obj =? "object".

Definition isObjectNonNull (obj : value) : bool :=
isBothOf obj isObject isNonNullable.

Definition isArray (obj : value) : bool :=
match obj with VArray _ _ => true | _ => false end.

Definition is2Tuple (obj : value) : bool :=
match obj with
| VArray elems _ => Nat.eqb (List.length elems) 2
| _ => false
end.

Definition isString (obj : value) : bool := typeof obj =? "string".

Definition isNumber (obj : value) : bool :=
match obj with
| VNumber n => negb (PrimFloat.is_nan n)
| _ => false
end.

Definition isBoolean (obj : value) : bool := typeof obj =? "boolean".

Definition isDate (obj : value) : bool :=
match obj with VDate _ _ => true | _ => false end.

Definition isBigInt (obj : value) : bool := typeof obj =? "bigint".

Definition isFunction (obj : value) : bool := typeof obj =? "function".

Definition isRegex (obj : value) : bool :=
match obj with VRegExp _ _ _ => true | _ => false end.

Definition isMap (obj : value) : bool :=
match obj with VMap _ _ => true | _ => false end.

Definition isSet (obj : value) : bool :=
match obj with VSet _ _ => true | _ => false end.

Definition isArrayOf (obj : value) (chk : typecheck) : bool :=
match obj with
| VArray elems _ => forallb chk elems
| _ => false
end.

Definition isSymbol (obj : value) : bool := typeof obj =? "symbol".

Definition hasField (obj : value) (key : propkey) : bool :=
isObjectNonNull obj &&
match lookup obj key with Some _ => true | None => false end.

Definition hasFieldType (obj : value) (key : propkey) (checker : typecheck) : bool :=
hasField obj key && checker (Get obj key).

Definition hasStrField (obj : value) (key : propkey) : bool :=
hasFieldType obj key isString.

(** [Symbol.iterator in obj]: through the prototype of an array, a Map or a
  Set, and of nothing else in the model. *)
Definition isIterable (obj : value) : bool :=
isObjectNonNull obj &&
match obj with
| VArray _ _ | VMap _ _ | VSet _ _ => true
| _ => false
end.

(** [hasFieldType(obj, k, chk)] at an own key [k] is [chk] of the value of
  that property, so the loop over the own keys is a loop over
  [own_values]. *)
Definition isObjectOf (obj : value) (chk : typecheck) : bool :=
if negb (isObjectNonNull obj) then false
else forallb chk (own_values obj).

Fixpoint isSimpleObject (x : value) : bool :=
isNull x
|| isString x
|| isNumber x
|| isBoolean x
|| match x with
   | VArray elems _ => forallb isSimpleObject elems
   | _ => false
   end
|| (isObjectNonNull x
    && isArrayOf (VArray (map VString (Object_keys x)) [])
         (chkOneOf isString isNumber)
    && match x with
       | VArray elems own =>
           forallb isSimpleObject elems
           && forallb (fun kv => isSimpleObject (snd kv)) own
       | VObject own | VMap _ own | VSet _ own
       | VDate _ own | VRegExp _ _ own =>
           forallb (fun kv => isSimpleObject (snd kv)) own
       | _ => false
       end).

Definition isCustomType (obj : value) (sym : symbol) : bool :=
hasField obj (KSym FreikTypeTag) &&
match Get obj (KSym FreikTypeTag) with
| VSymbol s => symbol_eqb s sym
| _ => false
end.
End Predicates.
End TypeChk.
Import TypeChk.

(** ** Host services that ECMA-262 fixes *)

(** *** BigInt and text *)

(** [BigInt.prototype.toString()]: the decimal digits, with a minus sign for
    a negative number. *)
Definition BigInt_toString (z : Z) : string :=
  NilZero.string_of_int (Z.to_int z).

Definition is_white_space (c : ascii) : bool :=
  match nat_of_ascii c with
  | 9 | 10 | 11 | 12 | 13 | 32 => true
  | _ => false
  end.

Fixpoint trim_left (s : string) : string :=
  match s with
  | String c rest => if is_white_space c then trim_left rest else s
  | EmptyString => EmptyString
  end.

Fixpoint trim_right (s : string) : string :=
  match s with
  | String c rest =>
      match trim_right rest with
      | EmptyString => if is_white_space c then EmptyString else String c EmptyString
      | kept => String c kept
      end
  | EmptyString => EmptyString
  end.

Definition trim (s : string) : string := trim_right (trim_left s).

Definition digit_value (c : ascii) : option Z :=
  let n := nat_of_ascii c in
  if andb (48 <=? n)%nat (n <=? 57)%nat then Some (Z.of_nat (n - 48))
  else if andb (97 <=? n)%nat (n <=? 102)%nat then Some (Z.of_nat (n - 87))
  else if andb (65 <=? n)%nat (n <=? 70)%nat then Some (Z.of_nat (n - 55))
  else None.

Definition is_decimal_digit (c : ascii) : bool :=
  match digit_value c with
  | Some d => (d <? 10)%Z
  | None => false
  end.

Fixpoint all_chars (p : ascii -> bool) (s : string) : bool :=
  match s with
  | EmptyString => true
  | String c rest => p c && all_chars p rest
  end.

Fixpoint digits_value (radix acc : Z) (s : string) : option Z :=
  match s with
  | EmptyString => Some acc
  | String c rest =>
      match digit_value c with
      | Some d =>
          if (d <? radix)%Z then digits_value radix (acc * radix + d)%Z rest
          else None
      | None => None
      end
  end.

Definition radix_literal (radix : Z) (digits : string) : option Z :=
  match digits with
  | EmptyString => None
  | _ => digits_value radix 0%Z digits
  end.

Definition decimal_literal (digits : string) : option Z :=
  match digits with
  | EmptyString => None
  | _ => option_map Z.of_uint (NilEmpty.uint_of_string digits)
  end.

Definition radix_of_prefix (c : ascii) : option Z :=
  match c with
  | "x"%char | "X"%char => Some 16%Z
  | "o"%char | "O"%char => Some 8%Z
  | "b"%char | "B"%char => Some 2%Z
  | _ => None
  end.

(** [StringToBigInt]: the value of a StringIntegerLiteral between white
    space, [None] when the text is none (where [BigInt(text)] throws a
    SyntaxError).  White space is the ASCII part of StrWhiteSpace. *)
Definition StringToBigInt (text : string) : option Z :=
  match trim text with
  | EmptyString => Some 0%Z
  | String c rest as literal =>
      if Ascii.eqb c "+" then decimal_literal rest
      else if Ascii.eqb c "-" then option_map Z.opp (decimal_literal rest)
      else
        match literal with
        | String "0" (String p digits) =>
            match radix_of_prefix p with
            | Some radix => radix_literal radix digits
            | None => decimal_literal literal
            end
        | _ => decimal_literal literal
        end
  end.

(** [BigInt(val)] for a string [val]. *)
Definition BigInt_of_string (text : string) : outcome value :=
  match StringToBigInt text with
  | Some z => Ok (VBigInt z)
  | None => Throw SyntaxError
  end.

(** *** Maps and Sets *)

(** SameValueZero, the equality of the keys of a Map and of the elements of a
    Set.  Two objects are the same when they are one object; the objects
    compared here were just built by [JSON.parse] or by a decoder, so no two
    of them are one. *)
Definition SameValueZero (x y : value) : bool :=
  match x, y with
  | VUndefined, VUndefined => true
  | VNull, VNull => true
  | VBoolean a, VBoolean b => Bool.eqb a b
  | VNumber a, VNumber b =>
      (PrimFloat.is_nan a && PrimFloat.is_nan b) || PrimFloat.eqb a b
  | VString a, VString b => String.eqb a b
  | VSymbol a, VSymbol b => symbol_eqb a b
  | VBigInt a, VBigInt b => Z.eqb a b
  | _, _ => false
  end.

(** What a Set stores for an element and a Map for a key: "if value is -0,
    set value to +0" (ECMA-262, [Set.prototype.add] and
    [Map.prototype.set]). *)
Definition stored_key (x : value) : value :=
  match x with
  | VNumber n =>
      match PrimFloat.classify n with
      | NZero => VNumber PrimFloat.zero
      | _ => x
      end
  | _ => x
  end.

(** [Set.prototype.add] and [new Set(iterable)]. *)
Definition Set_add (elems : list value) (x : value) : list value :=
  if existsb (SameValueZero x) elems then elems else elems ++ [stored_key x].

Definition Set_of (items : list value) : list value :=
  fold_left Set_add items [].

(** [Map.prototype.set] and [new Map(iterable)] for an iterable of
    two-element arrays. *)
Fixpoint Map_set (entries : list (value * value)) (k v : value) : list (value * value) :=
  match entries with
  | [] => [(stored_key k, v)]
  | (k', v') :: rest =>
      if SameValueZero k k' then (k', v) :: rest
      else (k', v') :: Map_set rest k v
  end.

Definition Map_of (pairs : list (value * value)) : list (value * value) :=
  fold_left (fun entries kv => Map_set entries (fst kv) (snd kv)) pairs [].

(** [[...obj]] for an object that answers to [Symbol.iterator]. *)
Definition spread (obj : value) : outcome (list value) :=
  match obj with
  | VArray elems _ => Ok elems
  | VSet elems _ => Ok elems
  | VMap entries _ => Ok (map (fun kv => VArray [fst kv; snd kv] []) entries)
  | _ => Throw TypeError
  end.

(** *** [Map.prototype.get] and [Map.prototype.set] on a Map keyed by symbols

    The two registries of [Pickle.ts] are such Maps; they are kept as the
    list of their entries, as [new Map([...])] is given them. *)
Fixpoint SymMap_get {A : Type} (m : list (symbol * A)) (sym : symbol) : option A :=
  match m with
  | [] => None
  | (k, a) :: rest => if symbol_eqb sym k then Some a else SymMap_get rest sym
  end.

Fixpoint SymMap_set {A : Type} (m : list (symbol * A)) (sym : symbol) (a : A)
  : list (symbol * A) :=
  match m with
  | [] => [(sym, a)]
  | (k, old) :: rest =>
      if symbol_eqb sym k then (k, a) :: rest
      else (k, old) :: SymMap_set rest sym a
  end.

(** *** JSON *)

(** The text of a number: [null] for NaN and the infinities, [0] for the
    negative zero, else the digits that read back to the same number. *)
Definition JSON_number (n : float) : json :=
  match PrimFloat.classify n with
  | NaN | PInf | NInf => JNull
  | NZero => JNumber PrimFloat.zero
  | _ => JNumber n
  end.

(** CreateDataProperty on the list of own properties: a new key goes last,
    a key already there keeps its place. *)
Fixpoint CreateDataProperty (own : props) (key : propkey) (v : value) : props :=
  match own with
  | [] => [(key, v)]
  | (k, old) :: rest =>
      if propkey_eqb key k then (k, v) :: rest
      else (k, old) :: CreateDataProperty rest key v
  end.

(** The object [JSON.parse] builds from the members of an object text, one
    CreateDataProperty after the other; [rec] is [JSON_value] itself. *)
Fixpoint JSON_members (rec : json -> value) (members : list (string * json))
         (own : props) : props :=
  match members with
  | [] => own
  | (k, x) :: rest =>
      JSON_members rec rest (CreateDataProperty own (KStr k) (rec x))
  end.

(** The value [JSON.parse] builds from a text, before any reviver runs. *)
Fixpoint JSON_value (j : json) : value :=
  match j with
  | JNull => VNull
  | JBool b => VBoolean b
  | JNumber n => VNumber n
  | JString s => VString s
  | JArray items => VArray (map JSON_value items) []
  | JObject members => VObject (JSON_members JSON_value members [])
  end.

Section Json.
Context {host : Host}.

(** The function given to [JSON.stringify].  It is called with the holder
    as [this] and with [(key, value)]; the replacer of this repository
    reads [this[key]] and [value] only, so it is given these two. *)
Variable ReplacerFunction : value -> value -> outcome value.

(** Step 2 of SerializeJSONProperty: the result of [toJSON], when the value
    has such a method. *)
Definition apply_toJSON (v : value) : value :=
  match Get v (KStr "toJSON") with
  | VFunction ret => ret
  | _ => v
  end.

Definition or_null (r : option json) : json :=
  match r with
  | Some j => j
  | None => JNull
  end.

(** SerializeJSONObject and the rest of SerializeJSONProperty (steps 4 to
    12), over the serializer [rec] of the properties one level down.  Only
    the own properties with a string key are written, and a property whose
    serialization is [undefined] is left out; an element of an array whose
    serialization is [undefined] is written [null]. *)
Fixpoint SerializeJSONObject (rec : value -> outcome (option json))
         (own : props) : outcome (list (string * json)) :=
  match own with
  | [] => Ok []
  | (KStr k, v) :: rest =>
      r <- rec v ;;
      ms <- SerializeJSONObject rec rest ;;
      Ok (match r with
          | Some j => (k, j) :: ms
          | None => ms
          end)
  | (KSym _, _) :: rest => SerializeJSONObject rec rest
  end.

Definition SerializeJSONArray (rec : value -> outcome (option json))
           (elems : list value) : outcome (list json) :=
  mapM (fun e => r <- rec e ;; Ok (or_null r)) elems.

Definition SerializeJSONValue (rec : value -> outcome (option json))
           (replaced : value) : outcome (option json) :=
  match replaced with
  | VNull => Ok (Some JNull)
  | VBoolean b => Ok (Some (JBool b))
  | VString s => Ok (Some (JString s))
  | VNumber n => Ok (Some (JSON_number n))
  | VBigInt _ => Throw TypeError
  | VUndefined | VSymbol _ | VFunction _ => Ok None
  | VArray elems _ =>
      items <- SerializeJSONArray rec elems ;;
      Ok (Some (JArray items))
  | VObject own | VMap _ own | VSet _ own
  | VDate _ own | VRegExp _ _ own =>
      ms <- SerializeJSONObject rec own ;;
      Ok (Some (JObject ms))
  end.

(** SerializeJSONProperty of the property holding [original]: [toJSON],
    then the replacer, then the value it returned.  [None] is the
    [undefined] result.  [fuel] bounds the depth of the traversal. *)
Fixpoint SerializeJSONProperty (fuel : nat) (original : value)
  : outcome (option json) :=
  match fuel with
  | O => Stuck OutOfFuel
  | S fuel' =>
      replaced <- ReplacerFunction original (apply_toJSON original) ;;
      SerializeJSONValue (SerializeJSONProperty fuel') replaced
  end.

(** [JSON.stringify(input, replacer)]: the holder is [{"": input}]. *)
Definition JSON_stringify (fuel : nat) (input : value) : outcome (option json) :=
  SerializeJSONProperty fuel input.

(** The function given to [JSON.parse]; the reviver of this repository
    reads its second argument only. *)
Variable ReviverFunction : value -> outcome value.

(** The loop of InternalizeJSONProperty over the own properties with a
    string key, [rec] being InternalizeJSONProperty itself: each property
    is replaced by its revived value, and deleted when that is
    [undefined]. *)
Fixpoint InternalizeProperties (rec : value -> outcome value) (own : props)
  : outcome props :=
  match own with
  | [] => Ok []
  | (KStr k, v) :: rest =>
      v' <- rec v ;;
      rest' <- InternalizeProperties rec rest ;;
      Ok (if isUndefined v' then rest' else (KStr k, v') :: rest')
  | (KSym s, v) :: rest =>
      rest' <- InternalizeProperties rec rest ;;
      Ok ((KSym s, v) :: rest')
  end.

(** InternalizeJSONProperty: the elements of an array or the properties of
    another object first, then the reviver on the value itself.  (An
    element revived to [undefined] leaves a hole, which reads
    [undefined].) *)
Fixpoint InternalizeJSONProperty (val : value) : outcome value :=
  match val with
  | VArray elems own =>
      elems' <- mapM InternalizeJSONProperty elems ;;
      ReviverFunction (VArray elems' own)
  | VObject own =>
      own' <- InternalizeProperties InternalizeJSONProperty own ;;
      ReviverFunction (VObject own')
  | VMap entries own =>
      own' <- InternalizeProperties InternalizeJSONProperty own ;;
      ReviverFunction (VMap entries own')
  | VSet elems own =>
      own' <- InternalizeProperties InternalizeJSONProperty own ;;
      ReviverFunction (VSet elems own')
  | VDate t own =>
      own' <- InternalizeProperties InternalizeJSONProperty own ;;
      ReviverFunction (VDate t own')
  | VRegExp source flags own =>
      own' <- InternalizeProperties InternalizeJSONProperty own ;;
      ReviverFunction (VRegExp source flags own')
  | _ => ReviverFunction val
  end.

(** [JSON.parse(input, reviver)] on a well-formed text. *)
Definition JSON_parse (input : json) : outcome value :=
  InternalizeJSONProperty (JSON_value input).
End Json.

(** ** [src/Pickle.ts] *)

Section Pickling.
Context {host : Host}.

(** [ToFlat<unknown>] and [FromFlat<unknown>].  A decoder that returns
    [undefined] returns [Ok VUndefined]. *)
Definition ToFlat : Type := value -> outcome value.
Definition FromFlat : Type := value -> outcome value.

Definition isFlattened (obj : value) : bool :=
  hasStrField obj (KStr "@dataType")
  && hasFieldType obj (KStr "@dataValue") isSimpleObject.

Definition MakeFlat (name : string) (data : value) : value :=
  VObject [(KStr "@dataType", VString name); (KStr "@dataValue", data)].

(** The text of a value that [isFlattened] has found to be a string. *)
Definition string_of (v : value) : string :=
  match v with
  | VString s => s
  | _ => ""
  end.

Definition GetFlat (val : value) : string * value :=
  (string_of (Get val (KStr "@dataType")), Get val (KStr "@dataValue")).

Definition SetTag : symbol := Symbol_for "freik.Set".
Definition MapTag : symbol := Symbol_for "freik.Map".
Definition SymbolTag : symbol := Symbol_for "freik.Symbol".
Definition RegexTag : symbol := Symbol_for "freik.RegExp".
Definition DateTag : symbol := Symbol_for "freik.Date".
Definition BigIntTag : symbol := Symbol_for "freik.BigInt".

(** The built-in encoders.  Each is written for the values of its
    TypeScript parameter type; the cast [as ToFlat<unknown>] that stores it
    in the registry lets any value reach it, and the model gives no answer
    there ([Stuck IllTyped]). *)

(** [[...val.entries()]] *)
Definition MapPickle : ToFlat := fun val =>
  match val with
  | VMap entries _ =>
      Ok (VArray (map (fun kv => VArray [fst kv; snd kv] []) entries) [])
  | _ => Stuck IllTyped
  end.

(** [new Map(val)] for an array of two-element arrays. *)
Definition pair_of (item : value) : value * value :=
  match item with
  | VArray (k :: v :: _) _ => (k, v)
  | _ => (VUndefined, VUndefined)
  end.

Definition MapUnpickle : FromFlat := fun val =>
  if isArrayOf val is2Tuple then
    match val with
    | VArray items _ => Ok (VMap (Map_of (map pair_of items)) [])
    | _ => Ok VUndefined
    end
  else Ok VUndefined.

(** [[...val]] *)
Definition SetPickle : ToFlat := fun val =>
  match val with
  | VSet elems _ => Ok (VArray elems [])
  | _ => Stuck IllTyped
  end.

Definition SetUnpickle : FromFlat := fun val =>
  match val with
  | VArray items _ => Ok (VSet (Set_of items) [])
  | _ => Ok VUndefined
  end.

Definition SymbolPickle : ToFlat := fun val =>
  match val with
  | VSymbol s =>
      match Symbol_keyFor s with
      | None => Throw (Error "Unable to get a key for a symbol for pickling")
      | Some theKey => Ok (VString theKey)
      end
  | _ => Stuck IllTyped
  end.

Definition SymbolUnpickle : FromFlat := fun val =>
  match val with
  | VString s => Ok (VSymbol (Symbol_for s))
  | _ => Ok VUndefined
  end.

(** [{ source: val.source, flags: val.flags }] *)
Definition RegexPickle : ToFlat := fun val =>
  match val with
  | VRegExp _ _ _ =>
      Ok (VObject [(KStr "source", Get val (KStr "source"));
                   (KStr "flags", Get val (KStr "flags"))])
  | _ => Stuck IllTyped
  end.

(** [new RegExp(pattern, flags)] *)
Definition new_RegExp (pattern flags : string) : outcome value :=
  match RegExp_new pattern flags with
  | Some (source, fl) => Ok (VRegExp source fl [])
  | None => Throw SyntaxError
  end.

Definition RegexUnpickle : FromFlat := fun val =>
  if hasStrField val (KStr "source") && hasStrField val (KStr "flags") then
    new_RegExp (string_of (Get val (KStr "source")))
               (string_of (Get val (KStr "flags")))
  else Ok VUndefined.

(** [val.toJSON()] *)
Definition DatePickle : ToFlat := fun val =>
  match val with
  | VDate _ _ =>
      match Get val (KStr "toJSON") with
      | VFunction ret => Ok ret
      | _ => Throw TypeError
      end
  | _ => Stuck IllTyped
  end.

(** [new Date(text)]: it never throws; a text that is no date gives the
    invalid date. *)
Definition new_Date (text : string) : outcome value :=
  Ok (VDate (Date_parse text) []).

Definition DateUnpickle : FromFlat := fun val =>
  try_catch
    (match val with
     | VString s => new_Date s
     | _ => Ok VUndefined
     end)
    (Ok VUndefined).

Definition BigIntPickle : ToFlat := fun val =>
  match val with
  | VBigInt z => Ok (VString (BigInt_toString z))
  | _ => Stuck IllTyped
  end.

Definition BigIntUnpickle : FromFlat := fun val =>
  try_catch
    (match val with
     | VString s => BigInt_of_string s
     | _ => Ok VUndefined
     end)
    (Ok VUndefined).

Definition builtInPickleTypes : list (typecheck * symbol) :=
  [ (isMap, MapTag);
    (isSet, SetTag);
    (isSymbol, SymbolTag);
    (isRegex, RegexTag);
    (isDate, DateTag);
    (isBigInt, BigIntTag) ].

Definition thePicklers : list (symbol * ToFlat) :=
  [ (MapTag, MapPickle);
    (SetTag, SetPickle);
    (SymbolTag, SymbolPickle);
    (RegexTag, RegexPickle);
    (DateTag, DatePickle);
    (BigIntTag, BigIntPickle) ].

Definition theUnpicklers : list (symbol * FromFlat) :=
  [ (MapTag, MapUnpickle);
    (SetTag, SetUnpickle);
    (SymbolTag, SymbolUnpickle);
    (RegexTag, RegexUnpickle);
    (DateTag, DateUnpickle);
    (BigIntTag, BigIntUnpickle) ].

(** The object [{ to, from }] that [registerPickling] stores under
    [FreikTypeTag] in the global scope: the state every function below
    reads, and [RegisterForPickling] writes. *)
Record registry : Type := {
  to : list (symbol * ToFlat);
  from : list (symbol * FromFlat)
}.

(** The registry once the module is loaded. *)
Definition loaded : registry :=
  {| to := thePicklers; from := theUnpicklers |}.

Definition picklers (reg : registry) : list (symbol * ToFlat) := to reg.

Definition getPickleHandler (reg : registry) (sym : symbol) : option ToFlat :=
  SymMap_get (picklers reg) sym.

Definition setPickleHandler (reg : registry) (pickleTag : symbol) (toString : ToFlat)
  : registry :=
  {| to := SymMap_set (picklers reg) pickleTag toString; from := from reg |}.

Definition unpicklers (reg : registry) : list (symbol * FromFlat) := from reg.

Definition getUnpickleHandler (reg : registry) (sym : symbol) : option FromFlat :=
  SymMap_get (unpicklers reg) sym.

Definition setUnpickleHandler (reg : registry) (pickleTag : symbol) (fromString : FromFlat)
  : registry :=
  {| to := to reg; from := SymMap_set (unpicklers reg) pickleTag fromString |}.

(** The encoder [getPickler] makes up for a marked value that has no
    registered encoder but has a [toJSON]. *)
Definition toJSON_pickler : ToFlat := fun val =>
  if hasFieldType val (KStr "toJSON") isFunction then
    match Get val (KStr "toJSON") with
    | VFunction ret => Ok ret
    | _ => Throw TypeError
    end
  else Ok (VString "ERROR").

(** The loop over [builtInPickleTypes]. *)
Fixpoint builtInPickler (reg : registry) (types : list (typecheck * symbol))
         (obj : value) : option (symbol * ToFlat) :=
  match types with
  | [] => None
  | (checker, symb) :: rest =>
      if checker obj then
        match getPickleHandler reg symb with
        | Some p => Some (symb, p)
        | None => builtInPickler reg rest obj
        end
      else builtInPickler reg rest obj
  end.

(** The symbol held by a value that [isSymbol] has accepted. *)
Definition symbol_of (v : value) : symbol :=
  match v with
  | VSymbol s => s
  | _ => SymLocal 0
  end.

Definition getPickler (reg : registry) (obj : value) : option (symbol * ToFlat) :=
  let builtIn := builtInPickler reg builtInPickleTypes obj in
  if hasFieldType obj (KSym FreikTypeTag) isSymbol then
    let s := symbol_of (Get obj (KSym FreikTypeTag)) in
    match getPickleHandler reg s with
    | Some p => Some (s, p)
    | None =>
        if hasFieldType obj (KStr "toJSON") isFunction then Some (s, toJSON_pickler)
        else builtIn
    end
  else builtIn.

Definition getUnpickler (reg : registry) (keyName : string) : option FromFlat :=
  getUnpickleHandler reg (Symbol_for keyName).

(** [!keyFor] for the result of [Symbol.keyFor]: [undefined] and the empty
    string are falsy. *)
Definition truthy_key (keyFor : option string) : option string :=
  match keyFor with
  | Some EmptyString => None
  | other => other
  end.

(** [replacer.call(holder, key, value)], with [originalObject] for
    [holder[key]]. *)
Definition replacer (reg : registry) (originalObject value_ : value) : outcome value :=
  match getPickler reg originalObject with
  | Some (sym, toFlat) =>
      match truthy_key (Symbol_keyFor sym) with
      | None => Ok value_
      | Some keyFor =>
          data <- toFlat originalObject ;;
          Ok (MakeFlat keyFor data)
      end
  | None =>
      if isIterable originalObject then
        items <- spread originalObject ;;
        Ok (VArray items [])
      else Ok value_
  end.

Definition reviver (reg : registry) (value_ : value) : outcome value :=
  if isFlattened value_ then
    let (name, forUnpickling) := GetFlat value_ in
    match getUnpickler reg name with
    | Some pickler =>
        res <- pickler forUnpickling ;;
        if negb (isUndefined res) then Ok res else Ok value_
    | None => Ok value_
    end
  else Ok value_.

(** [Pickle]: the text, or [None] where [JSON.stringify] returns
    [undefined]. *)
Definition Pickle (reg : registry) (fuel : nat) (input : value)
  : outcome (option json) :=
  JSON_stringify (replacer reg) fuel input.

Definition Unpickle (reg : registry) (input : json) : outcome value :=
  JSON_parse (reviver reg) input.

Definition UnsafelyUnpickle (reg : registry) (input : json) : outcome value :=
  Unpickle reg input.

(** A [typecheck<T>] as [SafelyUnpickle] calls it: a function of the
    caller, which answers and may change the object it is asked about
    ([chkObjectOfType] deletes the fields that hold [null] or
    [undefined]).  It is given by its answer and the value as the call
    leaves it. *)
Definition validator : Type := value -> outcome (bool * value).

(** A predicate that looks at its argument and leaves it as it is. *)
Definition looking (p : typecheck) : validator :=
  fun val => Ok (p val, val).

(** [check(res) ? res : undefined], [res] being the object the call of
    [check] has left. *)
Definition SafelyUnpickle (reg : registry) (input : json) (check : validator)
  : outcome value :=
  res <- UnsafelyUnpickle reg input ;;
  checked <- check res ;;
  Ok (if fst checked then snd checked else VUndefined).

Definition RegisterForPickling (reg : registry) (pickleTag : symbol)
           (fromString : FromFlat) (toString : option ToFlat) : registry :=
  let reg' :=
    match toString with
    | Some f => setPickleHandler reg pickleTag f
    | None => reg
    end in
  setUnpickleHandler reg' pickleTag fromString.
End Pickling.

(** ** [src/TypeChk.ts]: checkers of collections, [asSimpleObject], and the
    checkers of object shapes *)

Section Shapes.
Context {host : Host}.

(** [boolcheck] of [src/Types.ts].  A checker computes its answer from its
    argument and does nothing else. *)
Definition boolcheck : Type := value -> bool.

(** [obj[i]] for an array [obj] *)
Definition element (obj : value) (i : nat) : value :=
  match obj with
  | VArray elems _ => nth i elems VUndefined
  | _ => VUndefined
  end.

Definition is2TupleOf (obj : value) (t u : typecheck) : bool :=
  is2Tuple obj && t (element obj 0) && u (element obj 1).

Definition chk2TupleOf (t u : typecheck) : typecheck :=
  fun obj => is2TupleOf obj t u.

(** The loop [for (const [k, v] of obj)] leaves with [false] at the first
    key or value that is refused. *)
Definition isMapOf (obj : value) (key val : typecheck) : bool :=
  match obj with
  | VMap entries _ => forallb (fun kv => key (fst kv) && val (snd kv)) entries
  | _ => false
  end.

Definition isSetOf (obj : value) (chk : typecheck) : bool :=
  match obj with
  | VSet elems _ => forallb chk elems
  | _ => false
  end.

Definition isSetOfString (obj : value) : bool := isSetOf obj isString.

Definition isArrayOfString (obj : value) : bool := isArrayOf obj isString.

(** [Object.getOwnPropertySymbols(obj)] *)
Definition own_symbols (obj : value) : list symbol :=
  flat_map (fun kv => match fst kv with KSym s => [s] | KStr _ => [] end)
    (own_props obj).

Definition isObjectOfString (obj : value) : bool :=
  isObjectOf obj isString && Nat.eqb (List.length (own_symbols obj)) 0.

(** *** [asSimpleObject] *)

(** The loop [Object.keys(x).forEach(...)] of [asSimpleObject] over the own
    properties of [x], [rec] being [asSimpleObject] itself and [res] the
    object under construction.  [x[key]] at the key of a property is the
    value of that property.  The assignment [res[key] = ...] makes a
    property of [res], but for the key [__proto__], where it calls the
    setter of [Object.prototype]: the model gives no answer there
    ([None]). *)
Fixpoint asSimpleObject_properties (rec : value -> option value) (own res : props)
  : option props :=
  match own with
  | [] => Some res
  | (KStr key, v) :: rest =>
      if String.eqb key "__proto__" then None
      else
        match rec v with
        | Some r =>
            asSimpleObject_properties rec rest (CreateDataProperty res (KStr key) r)
        | None => None
        end
  | (KSym _, _) :: rest => asSimpleObject_properties rec rest res
  end.

(** [asSimpleObject(x, def)]; [def] is [VNull] where the source leaves it
    out. *)
Fixpoint asSimpleObject (x def : value) : option value :=
  if isNull x || isString x || isNumber x || isBoolean x then Some x
  else
    match x with
    | VArray elems _ => Some (VArray (filter isSimpleObject elems) [])
    | VObject own | VMap _ own | VSet _ own | VDate _ own | VRegExp _ _ own =>
        match asSimpleObject_properties (fun v => asSimpleObject v VNull) own [] with
        | Some res => Some (VObject res)
        | None => None
        end
    | _ => Some def
    end.

(** *** [isObjOfHelper] and [isPartialOf] *)

(** [Record<K, boolcheck>], as an object literal gives it: the names and
    their checkers.  A list that has a name twice stands for no table. *)
Definition checkers : Type := list (string * boolcheck).

Fixpoint own_checker (fields : checkers) (fieldName : string) : option boolcheck :=
  match fields with
  | [] => None
  | (name, checker) :: rest =>
      if String.eqb fieldName name then Some checker else own_checker rest fieldName
  end.

(** The names of the properties of [Object.prototype] (ECMA-262, 20.1.3 and
    B.2.2), which [fieldName in fields] finds in every table. *)
Definition Object_prototype_names : list string :=
  [ "constructor"; "hasOwnProperty"; "isPrototypeOf"; "propertyIsEnumerable";
    "toLocaleString"; "toString"; "valueOf"; "__proto__";
    "__defineGetter__"; "__defineSetter__"; "__lookupGetter__";
    "__lookupSetter__" ].

(** [hasFieldType(fields, fieldName, isFunction)] and, when it holds,
    [fields[fieldName]].

    - [Some (Some checker)]: the table has a checker under [fieldName];
    - [Some None]: it has none, and neither has [Object.prototype];
    - [None]: the table has none but [Object.prototype] has a property
      under that name, which the source would take for a checker; the
      model gives no answer. *)
Definition checker_of (fields : checkers) (fieldName : string)
  : option (option boolcheck) :=
  match own_checker fields fieldName with
  | Some checker => Some (Some checker)
  | None =>
      if existsb (String.eqb fieldName) Object_prototype_names then None
      else Some None
  end.

(** The place of [fieldName] among the index keys of an array. *)
Fixpoint position (fieldName : string) (keys : list string) : option nat :=
  match keys with
  | [] => None
  | k :: rest =>
      if String.eqb fieldName k then Some 0
      else option_map S (position fieldName rest)
  end.

(** [hasField(obj, fieldName)] and [obj[fieldName]], for a key that
    [Object.keys(obj)] gave: an index of an array, or a string key. *)
Definition has_key (obj : value) (fieldName : string) : bool :=
  match obj with
  | VArray elems _ =>
      match position fieldName (index_keys (List.length elems)) with
      | Some _ => true
      | None => hasField obj (KStr fieldName)
      end
  | _ => hasField obj (KStr fieldName)
  end.

Definition at_key (obj : value) (fieldName : string) : value :=
  match obj with
  | VArray elems _ =>
      match position fieldName (index_keys (List.length elems)) with
      | Some i => nth i elems VUndefined
      | None => Get obj (KStr fieldName)
      end
  | _ => Get obj (KStr fieldName)
  end.

Fixpoint make_hole (i : nat) (elems : list value) : list value :=
  match elems, i with
  | [], _ => []
  | _ :: rest, O => VUndefined :: rest
  | x :: rest, S j => x :: make_hole j rest
  end.

Definition without_key (fieldName : string) (own : props) : props :=
  filter (fun kv => negb (propkey_eqb (KStr fieldName) (fst kv))) own.

(** [delete obj[fieldName]]: the own property goes; an index of an array
    becomes a hole. *)
Definition delete_key (obj : value) (fieldName : string) : value :=
  match obj with
  | VArray elems own =>
      match position fieldName (index_keys (List.length elems)) with
      | Some i => VArray (make_hole i elems) own
      | None => VArray elems (without_key fieldName own)
      end
  | VObject own => VObject (without_key fieldName own)
  | VMap entries own => VMap entries (without_key fieldName own)
  | VSet elems own => VSet elems (without_key fieldName own)
  | VDate t own => VDate t (without_key fieldName own)
  | VRegExp source flags own => VRegExp source flags (without_key fieldName own)
  | other => other
  end.

(** How the loop over the keys ends: with a [return] inside the loop, or
    at its end, with the two counters. *)
Inductive loop_end : Type :=
| Returned (answer : bool)
| Finished (len required : Z).

(** The loop of [isObjOfHelper] over [keys], which is [Object.keys(obj)] as
    it was before the loop; [obj] is the object as the iterations before
    have left it.  The result is the object after the loop and the way the
    loop ended; [None] where the model gives no answer.

    (A hole of an array is an index that holds [undefined] in the model:
    the loop counts it as a key and deletes it at once, which leaves [len]
    as the source has it, where the hole is no key.) *)
Fixpoint isObjOfHelper_loop (requiredFields optionalFields : checkers)
         (keys : list string) (obj : value) (len required : Z)
  : option (value * loop_end) :=
  match keys with
  | [] => Some (obj, Finished len required)
  | fieldName :: rest =>
      if negb (has_key obj fieldName)
      then isObjOfHelper_loop requiredFields optionalFields rest obj len required
      else
        let theVal := at_key obj fieldName in
        if isUndefined theVal || isNull (at_key obj fieldName)
        then isObjOfHelper_loop requiredFields optionalFields rest
               (delete_key obj fieldName) (len - 1) required
        else
          match checker_of optionalFields fieldName with
          | None => None
          | Some (Some checker) =>
              if negb (checker theVal) then Some (obj, Returned false)
              else isObjOfHelper_loop requiredFields optionalFields rest obj
                     (len - 1) required
          | Some None =>
              match checker_of requiredFields fieldName with
              | None => None
              | Some (Some fieldTypeChecker) =>
                  if negb (fieldTypeChecker theVal) then Some (obj, Returned false)
                  else isObjOfHelper_loop requiredFields optionalFields rest obj
                         (len - 1) (required - 1)
              | Some None =>
                  isObjOfHelper_loop requiredFields optionalFields rest obj
                    len required
              end
          end
  end.

(** [isObjOfHelper(exact, obj, requiredFields, optionalFields)]: the answer,
    and [obj] as the call leaves it. *)
Definition isObjOfHelper (exact : bool) (obj : value)
           (requiredFields optionalFields : checkers) : option (bool * value) :=
  if negb (isObjectNonNull obj) then Some (false, obj)
  else
    let required := Z.of_nat (List.length requiredFields) in
    let keys := Object_keys obj in
    let len := Z.of_nat (List.length keys) in
    match isObjOfHelper_loop requiredFields optionalFields keys obj len required with
    | None => None
    | Some (obj', Returned answer) => Some (answer, obj')
    | Some (obj', Finished len' required') =>
        Some (Z.eqb required' 0 && (Z.eqb len' 0 || negb exact), obj')
    end.

Definition isObjectOfExactType (obj : value) (requiredFields optionalFields : checkers)
  : option (bool * value) :=
  isObjOfHelper true obj requiredFields optionalFields.

Definition isObjectOfType (obj : value) (requiredFields optionalFields : checkers)
  : option (bool * value) :=
  isObjOfHelper false obj requiredFields optionalFields.

(** [chkObjectOfType] and [chkObjectOfExactType]: the checkers as functions
    to hand to [SafelyUnpickle]. *)
Definition answered (answer : option (bool * value)) : outcome (bool * value) :=
  match answer with
  | Some checked => Ok checked
  | None => Stuck Unanswered
  end.

Definition chkObjectOfType (requiredFields optionalFields : checkers) : validator :=
  fun obj => answered (isObjOfHelper false obj requiredFields optionalFields).

Definition chkObjectOfExactType (requiredFields optionalFields : checkers)
  : validator :=
  fun obj => answered (isObjOfHelper true obj requiredFields optionalFields).

(** The loop of [isPartialOf]; [Finished len 0] is its end with [len]. *)
Fixpoint isPartialOf_loop (fields : checkers) (keys : list string) (obj : value)
         (len : Z) : option (value * loop_end) :=
  match keys with
  | [] => Some (obj, Finished len 0)
  | fieldName :: rest =>
      if negb (has_key obj fieldName)
      then isPartialOf_loop fields rest obj len
      else
        let theVal := at_key obj fieldName in
        if isUndefined theVal || isNull (at_key obj fieldName)
        then isPartialOf_loop fields rest (delete_key obj fieldName) (len - 1)
        else
          match checker_of fields fieldName with
          | None => None
          | Some (Some checker) =>
              if negb (checker theVal) then Some (obj, Returned false)
              else isPartialOf_loop fields rest obj (len - 1)
          | Some None => isPartialOf_loop fields rest obj len
          end
  end.

Definition isPartialOf (obj : value) (fields : checkers) : option (bool * value) :=
  if negb (isObjectNonNull obj) then Some (false, obj)
  else
    let keys := Object_keys obj in
    let len := Z.of_nat (List.length keys) in
    match isPartialOf_loop fields keys obj len with
    | None => None
    | Some (obj', Returned answer) => Some (answer, obj')
    | Some (obj', Finished len' _) => Some (Z.eqb len' 0, obj')
    end.

End Shapes.

(** * A host

    One host, to run the code on: its local time is UTC, it reads the Date
    Time String Format of ECMA-262 and no other text as a date. *)

Module UtcHost.
Open Scope Z_scope.

Definition msPerDay : Z := 86400000.

(** The civil date (year, month, day) of a day number, days counted from
  1970-01-01, in the proleptic Gregorian calendar; and back. *)
Definition civil_from_days (days : Z) : Z * Z * Z :=
let z := days + 719468 in
let era := z / 146097 in
let doe := z mod 146097 in
let yoe := (doe - doe / 1460 + doe / 36524 - doe / 146096) / 365 in
let doy := doe - (365 * yoe + yoe / 4 - yoe / 100) in
let mp := (5 * doy + 2) / 153 in
let d := doy - (153 * mp + 2) / 5 + 1 in
let m := if mp <? 10 then mp + 3 else mp - 9 in
let y := yoe + era * 400 + (if m <=? 2 then 1 else 0) in
(y, m, d).

Definition days_from_civil (y m d : Z) : Z :=
let y' := if m <=? 2 then y - 1 else y in
let era := y' / 400 in
let yoe := y' mod 400 in
let mp := if 2 <? m then m - 3 else m + 9 in
let doy := (153 * mp + 2) / 5 + d - 1 in
let doe := yoe * 365 + yoe / 4 - yoe / 100 + doy in
era * 146097 + doe - 719468.

Definition digit_char (d : Z) : ascii := ascii_of_nat (48 + Z.to_nat d).

(** [n] in [width] decimal digits. *)
Fixpoint pad_digits (width : nat) (n : Z) : string :=
match width with
| O => EmptyString
| S w =>
    String (digit_char (n / 10 ^ Z.of_nat w))
           (pad_digits w (n mod 10 ^ Z.of_nat w))
end.

Definition year_text (y : Z) : string :=
if (0 <=? y) && (y <=? 9999) then pad_digits 4 y
else String (if y <? 0 then "-"%char else "+"%char) (pad_digits 6 (Z.abs y)).

(** [YYYY-MM-DDTHH:mm:ss.sssZ], with [+YYYYYY] or [-YYYYYY] for a year
  outside 0 to 9999. *)
Definition toISOString (t : Z) : string :=
let '(y, m, d) := civil_from_days (t / msPerDay) in
let ms := t mod msPerDay in
year_text y
++ String "-" (pad_digits 2 m
++ String "-" (pad_digits 2 d
++ String "T" (pad_digits 2 (ms / 3600000)
++ String ":" (pad_digits 2 (ms / 60000 mod 60)
++ String ":" (pad_digits 2 (ms / 1000 mod 60)
++ String "." (pad_digits 3 (ms mod 1000)
++ "Z")))))).

Definition reader (A : Type) : Type := string -> option (A * string).

Fixpoint read_digits (width : nat) (acc : Z) : reader Z := fun s =>
match width with
| O => Some (acc, s)
| S w =>
    match s with
    | String c rest =>
        match digit_value c with
        | Some d => if d <? 10 then read_digits w (acc * 10 + d) rest else None
        | None => None
        end
    | EmptyString => None
    end
end.

Definition then_ {A B : Type} (r : reader A) (k : A -> reader B) : reader B :=
fun s => match r s with
         | Some (a, rest) => k a rest
         | None => None
         end.

Definition give {A : Type} (a : A) : reader A := fun s => Some (a, s).

Definition refuse {A : Type} : reader A := fun _ => None.

(** What follows the character [sep] when the text goes on with it,
  [otherwise] when it does not. *)
Definition after {A : Type} (sep : ascii) (r otherwise : reader A) : reader A :=
fun s => match s with
         | String c rest => if Ascii.eqb c sep then r rest else otherwise s
         | EmptyString => otherwise s
         end.

Definition read_year : reader Z :=
after "+" (read_digits 6 0)
  (after "-" (then_ (read_digits 6 0)
                    (fun y => if y =? 0 then refuse else give (- y)))
     (read_digits 4 0)).

(** The offset from UTC in milliseconds: [Z], [+HH:mm] or [-HH:mm]; a text
  without offset is read as UTC (the local time of this host). *)
Definition read_hhmm (sign : Z) : reader Z :=
then_ (read_digits 2 0) (fun h =>
after ":" (then_ (read_digits 2 0) (fun mi =>
           if (h <=? 23) && (mi <=? 59)
           then give (sign * (h * 3600000 + mi * 60000))
           else refuse))
  refuse).

Definition read_offset : reader Z :=
after "Z" (give 0) (after "+" (read_hhmm 1) (after "-" (read_hhmm (-1)) (give 0))).

(** The time of day in milliseconds, less the offset: [THH:mm],
  [THH:mm:ss] or [THH:mm:ss.sss], then the offset; nothing for a text
  that holds a date only. *)
Definition read_time : reader Z :=
after "T"
  (then_ (read_digits 2 0) (fun h =>
   after ":"
     (then_ (read_digits 2 0) (fun mi =>
      then_ (after ":"
               (then_ (read_digits 2 0) (fun sec =>
                then_ (after "." (read_digits 3 0) (give 0)) (fun msec =>
                give (sec * 1000 + msec))))
               (give 0)) (fun sec_ms =>
      then_ read_offset (fun off =>
      if ((h <=? 23) && (mi <=? 59) && (sec_ms <? 60000))
         || ((h =? 24) && (mi =? 0) && (sec_ms =? 0))
      then give (h * 3600000 + mi * 60000 + sec_ms - off)
      else refuse))))
     refuse))
  (give 0).

Definition civil_eqb (a b : Z * Z * Z) : bool :=
let '(y, m, d) := a in
let '(y', m', d') := b in
(y =? y') && (m =? m') && (d =? d').

(** The time value of a text in the Date Time String Format of ECMA-262,
  [None] for any other text and for a date that does not exist or is out
  of the range of time values. *)
Definition parse (text : string) : option Z :=
match
  then_ read_year (fun y =>
  then_ (after "-" (read_digits 2 0) (give 1)) (fun m =>
  then_ (after "-" (read_digits 2 0) (give 1)) (fun d =>
  then_ read_time (fun ms =>
  give (y, m, d, ms))))) text
with
| Some (y, m, d, ms, EmptyString) =>
    let days := days_from_civil y m d in
    let t := days * msPerDay + ms in
    if civil_eqb (civil_from_days days) (y, m, d)
       && (-8640000000000000 <=? t) && (t <=? 8640000000000000)
    then Some t
    else None
| _ => None
end.

(** Regular expressions.  This host knows the patterns without syntax
  character, which every implementation accepts and keeps as they are,
  and refuses the others, whose grammar is not written here.  The flags
  are those of ECMA-262: each at most once, [u] and [v] not together; the
  new object lists them in the order [dgimsuvy]. *)
Fixpoint has_char (c : ascii) (s : string) : bool :=
match s with
| EmptyString => false
| String c' rest => Ascii.eqb c c' || has_char c rest
end.

Fixpoint no_repeat (s : string) : bool :=
match s with
| EmptyString => true
| String c rest => negb (has_char c rest) && no_repeat rest
end.

Fixpoint keep_chars (p : ascii -> bool) (s : string) : string :=
match s with
| EmptyString => EmptyString
| String c rest => if p c then String c (keep_chars p rest) else keep_chars p rest
end.

Definition syntax_character (c : ascii) : bool :=
has_char c "^$\.*+?()[]{}|/" || (nat_of_ascii c <? 32)%nat.

Definition valid_flags (flags : string) : bool :=
all_chars (fun c => has_char c "dgimsuvy") flags
&& no_repeat flags
&& negb (has_char "u" flags && has_char "v" flags).

Definition RegExp_create (pattern flags : string) : option (string * string) :=
if all_chars (fun c => negb (syntax_character c)) pattern && valid_flags flags
then Some (match pattern with
           | EmptyString => "(?:)"%string
           | _ => pattern
           end,
           keep_chars (fun c => has_char c flags) "dgimsuvy")
else None.
End UtcHost.

(** * Specifications

    The definitions below are not code of the repository: they word what
    the claims say, so that the code can be compared with them. *)

Section Specifications.
Context {host : Host}.

(** The custom-type marker of a value: the symbol under [FreikTypeTag],
    when the value is an object that has one. *)
Definition marker (obj : value) : option symbol :=
  if hasFieldType obj (KSym FreikTypeTag) isSymbol
  then Some (symbol_of (Get obj (KSym FreikTypeTag)))
  else None.

(** The six built-in kinds, in the order the specification fixes. *)
Inductive builtin : Type :=
| BMap | BSet | BSymbol | BRegex | BDate | BBigInt.

Definition builtin_order : list builtin :=
  [BMap; BSet; BSymbol; BRegex; BDate; BBigInt].

Definition builtin_predicate (b : builtin) : typecheck :=
  match b with
  | BMap => isMap
  | BSet => isSet
  | BSymbol => isSymbol
  | BRegex => isRegex
  | BDate => isDate
  | BBigInt => isBigInt
  end.

Definition builtin_tag (b : builtin) : symbol :=
  match b with
  | BMap => MapTag
  | BSet => SetTag
  | BSymbol => SymbolTag
  | BRegex => RegexTag
  | BDate => DateTag
  | BBigInt => BigIntTag
  end.

(** The first built-in kind whose predicate accepts [obj], with the
    encoder registered under its tag. *)
Definition first_builtin (reg : registry) (obj : value) : option (symbol * ToFlat) :=
  match find (fun b => builtin_predicate b obj) builtin_order with
  | Some b =>
      match getPickleHandler reg (builtin_tag b) with
      | Some p => Some (builtin_tag b, p)
      | None => None
      end
  | None => None
  end.

(** C6 in its own words: a marker with a registered encoder wins,
    otherwise the built-in kinds decide. *)
Definition dispatch_as_claimed (reg : registry) (obj : value)
  : option (symbol * ToFlat) :=
  match marker obj with
  | Some s =>
      match getPickleHandler reg s with
      | Some p => Some (s, p)
      | None => first_builtin reg obj
      end
  | None => first_builtin reg obj
  end.

(** The dispatch with the step the claim leaves out: a marked value
    without a registered encoder but with a [toJSON] method is encoded by
    that method, under its marker, before any built-in kind is tried. *)
Definition dispatch (reg : registry) (obj : value) : option (symbol * ToFlat) :=
  match marker obj with
  | Some s =>
      match getPickleHandler reg s with
      | Some p => Some (s, p)
      | None =>
          if hasFieldType obj (KStr "toJSON") isFunction
          then Some (s, toJSON_pickler)
          else first_builtin reg obj
      end
  | None => first_builtin reg obj
  end.
End Specifications.


(** The envelope, as text, under given names for its two fields. *)
Definition envelope_json (tagField valueField : string) (tag : string) (payload : json)
  : json :=
  JObject [(tagField, JString tag); (valueField, payload)].

(** C2 in its own words: the text of [[new Set(['a','b'])]] with the field
    names [typeTag] and [typeValue]. *)
Definition set_in_list_as_claimed : json :=
  JArray [envelope_json "typeTag" "typeValue" "freik.Set"
            (JArray [JString "a"; JString "b"])].

(** The same text with the field names of [FlattenedCustom]. *)
Definition set_in_list_text : json :=
  JArray [envelope_json "@dataType" "@dataValue" "freik.Set"
            (JArray [JString "a"; JString "b"])].

(** [[new Set(['a', 'b'])]] *)
Definition set_in_list : value :=
  VArray [VSet [VString "a"; VString "b"] []] [].


Section DecodeSpecifications.
Context {host : Host}.

(** The values [InternalizeJSONProperty] visits below [v]: the elements of
    an array, and the own properties with a string key of another
    object. *)
Definition visited_children (v : value) : list value :=
  match v with
  | VArray elems _ => elems
  | _ => flat_map (fun kv => match fst kv with
                             | KStr _ => [snd kv]
                             | KSym _ => []
                             end) (own_props v)
  end.

Fixpoint all_string_props (f : value -> bool) (own : props) : bool :=
  match own with
  | [] => true
  | (KStr _, x) :: rest => f x && all_string_props f rest
  | (KSym _, _) :: rest => all_string_props f rest
  end.

(** [all_nodes p v]: [p] holds of [v] and of every value visited below. *)
Fixpoint all_nodes (p : value -> bool) (v : value) : bool :=
  p v &&
  match v with
  | VArray elems _ => forallb (all_nodes p) elems
  | VObject own | VMap _ own | VSet _ own | VDate _ own | VRegExp _ _ own =>
      all_string_props (all_nodes p) own
  | _ => true
  end.

(** A node that has the envelope shape is left alone by the decoders: no
    decoder is registered for its tag, or the registered decoder returns
    [undefined] for its payload. *)
Definition left_alone (reg : registry) (v : value) : bool :=
  negb (isFlattened v)
  || match getUnpickler reg (fst (GetFlat v)) with
     | None => true
     | Some pickler =>
         match pickler (snd (GetFlat v)) with
         | Ok res => isUndefined res
         | _ => false
         end
     end.

(** [m] returns, or throws an exception that is [allowed]. *)
Definition throws_only {A : Type} (allowed : exn -> Prop) (m : outcome A) : Prop :=
  (exists a, m = Ok a) \/ (exists e, m = Throw e /\ allowed e).

(** [m] returns. *)
Definition never_throws {A : Type} (m : outcome A) : Prop :=
  throws_only (fun _ => False) m.
End DecodeSpecifications.


Section EncodeSpecifications.
Context {host : Host}.

(** ['Unable to get a key for a symbol for pickling'] *)
Definition keyless_symbol_error : exn :=
  Error "Unable to get a key for a symbol for pickling".

(** The encode of [v] returns (with a text or with [undefined]). *)
Definition encodes (reg : registry) (fuel : nat) (v : value) : Prop :=
  exists r, SerializeJSONProperty (replacer reg) fuel v = Ok r.

(** [meets_keyless_symbol reg fuel v]: the traversal of [v] comes to a
    symbol without key, everything it visits before being encoded without
    incident.  The symbol may be [v] itself, an element of an array or of a
    Set, a key or a value of a Map, or the value of a property of a plain
    object, at any depth; the arrays and objects on the way carry no
    encoder of their own, the Maps and Sets have the built-in one. *)
Inductive meets_keyless_symbol (reg : registry) : nat -> value -> Prop :=
| meets_here fuel id :
    meets_keyless_symbol reg (S fuel) (VSymbol (SymLocal id))
| meets_in_array fuel before x after own :
    getPickler reg (VArray (before ++ x :: after) own) = None ->
    Forall (encodes reg fuel) before ->
    meets_keyless_symbol reg fuel x ->
    meets_keyless_symbol reg (S fuel) (VArray (before ++ x :: after) own)
| meets_in_object fuel before k x after :
    getPickler reg (VObject (before ++ (KStr k, x) :: after)) = None ->
    apply_toJSON (VObject (before ++ (KStr k, x) :: after))
    = VObject (before ++ (KStr k, x) :: after) ->
    Forall (fun kv => match fst kv with
                      | KStr _ => encodes reg fuel (snd kv)
                      | KSym _ => True
                      end) before ->
    meets_keyless_symbol reg fuel x ->
    meets_keyless_symbol reg (S fuel) (VObject (before ++ (KStr k, x) :: after))
| meets_in_set fuel before x after own :
    getPickler reg (VSet (before ++ x :: after) own) = Some (SetTag, SetPickle) ->
    Forall (encodes reg fuel) before ->
    meets_keyless_symbol reg fuel x ->
    meets_keyless_symbol reg (S (S fuel)) (VSet (before ++ x :: after) own)
| meets_in_map_key fuel before k v after own :
    getPickler reg (VMap (before ++ (k, v) :: after) own) = Some (MapTag, MapPickle) ->
    Forall (fun kv => encodes reg fuel (fst kv) /\ encodes reg fuel (snd kv)) before ->
    meets_keyless_symbol reg fuel k ->
    meets_keyless_symbol reg (S (S (S fuel))) (VMap (before ++ (k, v) :: after) own)
| meets_in_map_value fuel before k v after own :
    getPickler reg (VMap (before ++ (k, v) :: after) own) = Some (MapTag, MapPickle) ->
    Forall (fun kv => encodes reg fuel (fst kv) /\ encodes reg fuel (snd kv)) before ->
    encodes reg fuel k ->
    meets_keyless_symbol reg fuel v ->
    meets_keyless_symbol reg (S (S (S fuel))) (VMap (before ++ (k, v) :: after) own).
End EncodeSpecifications.


Section Faithful.
Context {host : Host}.

(** The six built-in encoders and decoders are the ones registered under
    the six built-in tags (as they are when the module is loaded, and as
    long as nobody registers something else under these tags). *)
Definition builtins_registered (reg : registry) : Prop :=
  Forall (fun entry => getPickleHandler reg (fst entry) = Some (snd entry)) thePicklers
  /\ Forall (fun entry => getUnpickleHandler reg (fst entry) = Some (snd entry))
       theUnpicklers.

(** A number that JSON writes and reads back as itself: finite, and not
    the negative zero. *)
Definition faithful_number (n : float) : bool :=
  match PrimFloat.classify n with
  | NaN | PInf | NInf | NZero => false
  | _ => true
  end.

Definition in_time_range (t : Z) : bool :=
  ((-8640000000000000 <=? t) && (t <=? 8640000000000000))%Z.

(** [source] and [flags] are those of a regular expression: building one
    from them succeeds and gives them back. *)
Definition real_RegExp (source flags : string) : bool :=
  match RegExp_new source flags with
  | Some (s, f) => String.eqb s source && String.eqb f flags
  | None => false
  end.

(** No element of [l] is the same, by SameValueZero, as one of [seen] or as
    an earlier element of [l]: what the elements of a Set and the keys of a
    Map are. *)
Fixpoint distinct_from (seen l : list value) : bool :=
  match l with
  | [] => true
  | x :: rest =>
      negb (existsb (SameValueZero x) seen) && distinct_from (seen ++ [x]) rest
  end.

(** The own properties all have string keys, no key twice. *)
Fixpoint unique_string_keys (own : props) : bool :=
  match own with
  | [] => true
  | (KStr k, _) :: rest =>
      negb (existsb (String.eqb k) (string_keys rest)) && unique_string_keys rest
  | (KSym _, _) :: _ => false
  end.

Definition no_props (own : props) : bool :=
  match own with
  | [] => true
  | _ => false
  end.

Definition string_of_key (s : symbol) : string :=
  match Symbol_keyFor s with
  | Some key => key
  | None => ""
  end.

Definition envelope (tag : string) (payload : json) : json :=
  envelope_json "@dataType" "@dataValue" tag payload.

(** [JSON.stringify] has a text for [v]: [v] is not [undefined] and no
    function. *)
Definition has_text (v : value) : bool :=
  match v with
  | VUndefined | VFunction _ => false
  | _ => true
  end.

(** The members of the text of a plain object: the properties whose value
    has no text are left out. *)
Fixpoint text_members (rec : value -> option json) (own : props)
  : list (string * json) :=
  match own with
  | [] => []
  | (KStr k, v) :: rest =>
      match rec v with
      | Some j => (k, j) :: text_members rec rest
      | None => text_members rec rest
      end
  | (KSym _, _) :: rest => text_members rec rest
  end.

(** The text [Pickle] writes for a value under the built-in encoders, in
    closed form; [None] where it writes nothing. *)
Fixpoint text_of (v : value) : option json :=
  match v with
  | VUndefined | VFunction _ => None
  | VNull => Some JNull
  | VBoolean b => Some (JBool b)
  | VNumber n => Some (JSON_number n)
  | VString s => Some (JString s)
  | VSymbol s => Some (envelope "freik.Symbol" (JString (string_of_key s)))
  | VBigInt z => Some (envelope "freik.BigInt" (JString (BigInt_toString z)))
  | VArray elems _ => Some (JArray (map (fun e => or_null (text_of e)) elems))
  | VObject own => Some (JObject (text_members text_of own))
  | VMap entries _ =>
      Some (envelope "freik.Map"
              (JArray (map (fun kv => JArray [or_null (text_of (fst kv));
                                              or_null (text_of (snd kv))])
                         entries)))
  | VSet elems _ =>
      Some (envelope "freik.Set" (JArray (map (fun e => or_null (text_of e)) elems)))
  | VDate t _ =>
      Some (envelope "freik.Date"
              match t with
              | Some ms => JString (Date_toISOString ms)
              | None => JNull
              end)
  | VRegExp source flags _ =>
      Some (envelope "freik.RegExp"
              (JObject [("source", JString source); ("flags", JString flags)]))
  end.

(** The properties [Unpickle] finds in the text of a plain object. *)
Fixpoint read_back_props (rec : value -> value) (own : props) : props :=
  match own with
  | [] => []
  | (KStr k, v) :: rest =>
      if has_text v then (KStr k, rec v) :: read_back_props rec rest
      else read_back_props rec rest
  | (KSym _, _) :: rest => read_back_props rec rest
  end.

(** What [Unpickle] makes of the text of a value under the built-in
    decoders, in closed form ([null] for a value without text, which is how
    it is written as an element of an array).  A Set or a Map comes back as
    such when [isSimpleObject] accepts its decoded payload, and as the
    envelope record otherwise; the invalid Date comes back as its envelope
    record. *)
Fixpoint read_back (v : value) : value :=
  match v with
  | VUndefined | VFunction _ | VNull => VNull
  | VBoolean b => VBoolean b
  | VNumber n => JSON_value (JSON_number n)
  | VString s => VString s
  | VSymbol s => VSymbol s
  | VBigInt z => VBigInt z
  | VArray elems _ => VArray (map read_back elems) []
  | VObject own => VObject (read_back_props read_back own)
  | VMap entries _ =>
      let payload :=
        VArray (map (fun kv => VArray [read_back (fst kv); read_back (snd kv)] [])
                  entries) [] in
      if isSimpleObject payload
      then VMap (map (fun kv => (read_back (fst kv), read_back (snd kv))) entries) []
      else MakeFlat "freik.Map" payload
  | VSet elems _ =>
      let payload := VArray (map read_back elems) [] in
      if isSimpleObject payload
      then VSet (map read_back elems) []
      else MakeFlat "freik.Set" payload
  | VDate t _ =>
      match t with
      | Some ms => VDate (Some ms) []
      | None => MakeFlat "freik.Date" VNull
      end
  | VRegExp source flags _ => VRegExp source flags []
  end.

(** An element of a Set or a key of a Map that is read back as itself or
    as an object: any object, and any primitive value but [undefined], NaN,
    the infinities and the negative zero. *)
Definition exact_key (v : value) : bool :=
  match v with
  | VUndefined | VFunction _ => false
  | VNumber n => faithful_number n
  | _ => true
  end.

(** No own property [toJSON] that is a function. *)
Definition no_toJSON (own : props) : bool :=
  match assoc (KStr "toJSON") own with
  | Some (VFunction _) => false
  | _ => true
  end.

(** The values whose text is stable under decoding and encoding again.

    - every primitive value but a symbol without key, and every function;
    - Dates (valid or not) and real RegExps, without properties of their
      own;
    - arrays of stable values, without properties of their own;
    - plain objects whose properties have distinct string keys and stable
      values, without [toJSON] method, and which do not read back as an
      envelope;
    - Sets and Maps without properties of their own, whose elements (keys)
      are stable, pairwise distinct and [exact_key], and whose values are
      stable. *)
Fixpoint stable (v : value) : bool :=
  match v with
  | VSymbol s =>
      match Symbol_keyFor s with
      | Some _ => true
      | None => false
      end
  | VUndefined | VNull | VBoolean _ | VNumber _ | VString _ | VBigInt _
  | VFunction _ => true
  | VArray elems own => no_props own && forallb stable elems
  | VObject own =>
      unique_string_keys own
      && no_toJSON own
      && negb (isFlattened (VObject (read_back_props read_back own)))
      && forallb (fun kv => stable (snd kv)) own
  | VMap entries own =>
      no_props own
      && forallb (fun kv => exact_key (fst kv) && stable (fst kv) && stable (snd kv))
           entries
      && distinct_from [] (map fst entries)
  | VSet elems own =>
      no_props own
      && forallb (fun e => exact_key e && stable e) elems
      && distinct_from [] elems
  | VDate t own =>
      no_props own
      && match t with
         | Some ms => in_time_range ms
         | None => true
         end
  | VRegExp source flags own => no_props own && real_RegExp source flags
  end.

(** The values the round trip gives back as they were.

    - null, booleans, strings, BigInts, faithful numbers, symbols of the
      global symbol registry;
    - valid Dates and real RegExps, without properties of their own;
    - arrays of faithful values, without properties of their own;
    - plain objects whose properties have distinct string keys and faithful
      values, and which do not have the envelope shape themselves;
    - Sets and Maps without properties of their own, whose elements (keys
      and values) are faithful, pairwise distinct, and accepted by
      [isSimpleObject] (which the decoder asks of the payload of an
      envelope after the payload has been decoded). *)
Fixpoint faithful (v : value) : bool :=
  match v with
  | VNull | VBoolean _ | VString _ | VBigInt _ => true
  | VNumber n => faithful_number n
  | VSymbol s =>
      match Symbol_keyFor s with
      | Some _ => true
      | None => false
      end
  | VUndefined | VFunction _ => false
  | VArray elems own => no_props own && forallb faithful elems
  | VObject own =>
      unique_string_keys own
      && negb (isFlattened (VObject own))
      && forallb (fun kv => faithful (snd kv)) own
  | VMap entries own =>
      no_props own
      && forallb (fun kv => faithful (fst kv) && isSimpleObject (fst kv)
                            && (faithful (snd kv) && isSimpleObject (snd kv)))
           entries
      && distinct_from [] (map fst entries)
  | VSet elems own =>
      no_props own
      && forallb (fun e => faithful e && isSimpleObject e) elems
      && distinct_from [] elems
  | VDate t own =>
      no_props own
      && match t with
         | Some ms => in_time_range ms
         | None => false
         end
  | VRegExp source flags own => no_props own && real_RegExp source flags
  end.

(** Fuel enough for the traversal of a value by the built-in encoders. *)
Fixpoint need (v : value) : nat :=
  match v with
  | VArray elems _ => S (list_max (map need elems))
  | VObject own => S (list_max (map (fun kv => need (snd kv)) own))
  | VSet elems _ => S (S (list_max (map need elems)))
  | VMap entries _ =>
      S (S (S (list_max (map (fun kv => Nat.max (need (fst kv)) (need (snd kv)))
                           entries))))
  | VRegExp _ _ _ => 3
  | VDate _ _ | VBigInt _ | VSymbol _ => 2
  | _ => 1
  end.
End Faithful.


Section StabilitySpecifications.
Context {host : Host}.

(** C1 in its own words: [Unpickle] gives [v] back from the text of
    [v]. *)
Definition round_trips (reg : registry) (fuel : nat) (v : value) : Prop :=
  exists text, Pickle reg fuel v = Ok (Some text) /\ Unpickle reg text = Ok v.

(** C8 in its own words: from the text of [v], [SafelyUnpickle] under
    [check] returns [v]. *)
Definition returned_when_checked (reg : registry) (fuel : nat) (v : value)
           (check : validator) : Prop :=
  exists text,
    Pickle reg fuel v = Ok (Some text) /\ SafelyUnpickle reg text check = Ok v.

(** C7 in its own words: the text of what [Unpickle] makes of the text of
    [v] is the text of [v]. *)
Definition repickles_to_same_text (reg : registry) (fuel : nat) (v : value) : Prop :=
  exists text v',
    Pickle reg fuel v = Ok (Some text)
    /\ Unpickle reg text = Ok v'
    /\ Pickle reg fuel v' = Ok (Some text).
(** The depth of a text: the fuel the traversal that writes it needs. *)
Fixpoint depth (t : json) : nat :=
  match t with
  | JArray items => S (list_max (map depth items))
  | JObject members => S (list_max (map (fun m => depth (snd m)) members))
  | _ => 1
  end.

(** [Pickle] writes [v] as the text [t], whenever the fuel covers the depth
    of [t]. *)
Definition written_as (reg : registry) (v : value) (t : json) : Prop :=
  forall fuel,
    depth t <= fuel ->
    SerializeJSONProperty (replacer reg) fuel v = Ok (Some t).

(** [canonical reg t v]: the text [t] stands for the value [v], and it is
    the text of [v].  The texts of this kind are built from: [null], the
    booleans, the strings and the numbers of JSON; arrays; objects with
    distinct names that the decoders leave alone (no envelope, or an
    envelope whose tag has no decoder or whose decoder returns [undefined]
    for the payload); and the envelopes a decoder answers with a value
    that is written as this envelope again:
    - a Set envelope over an array whose elements stand for pairwise
      distinct values;
    - a Map envelope over an array of pairs whose keys stand for pairwise
      distinct values;
    - a Symbol envelope over a string;
    - a BigInt envelope over the decimal text of a BigInt;
    - a Date envelope over a string that is the ISO text of the date it is
      parsed to;
    - a RegExp envelope over exactly the source and the flags of a real
      regular expression;
    - an envelope of any registered tag whose decoder returns a value that
      [Pickle] writes as this envelope.
    The payload of an envelope that is decoded stands for a value
    [isSimpleObject] accepts (else the envelope is a plain object, left
    alone). *)
Inductive canonical (reg : registry) : json -> value -> Prop :=
| canonical_null : canonical reg JNull VNull
| canonical_boolean b : canonical reg (JBool b) (VBoolean b)
| canonical_number n :
    faithful_number n = true -> canonical reg (JNumber n) (VNumber n)
| canonical_string s : canonical reg (JString s) (VString s)
| canonical_array items elems :
    canonical_items reg items elems ->
    canonical reg (JArray items) (VArray elems [])
| canonical_object members own :
    canonical_members reg members own ->
    NoDup (map fst members) ->
    left_alone reg (VObject own) = true ->
    canonical reg (JObject members) (VObject own)
| canonical_Set items elems :
    canonical_items reg items elems ->
    isSimpleObject (VArray elems []) = true ->
    distinct_from [] elems = true ->
    canonical reg (envelope "freik.Set" (JArray items))
      (VSet (map stored_key elems) [])
| canonical_Map pairs entries :
    canonical_pairs reg pairs entries ->
    isSimpleObject (VArray (map (fun kv => VArray [fst kv; snd kv] []) entries) [])
    = true ->
    distinct_from [] (map fst entries) = true ->
    canonical reg (envelope "freik.Map" (JArray pairs))
      (VMap (map (fun kv => (stored_key (fst kv), snd kv)) entries) [])
| canonical_Symbol key :
    canonical reg (envelope "freik.Symbol" (JString key)) (VSymbol (Symbol_for key))
| canonical_BigInt z :
    canonical reg (envelope "freik.BigInt" (JString (BigInt_toString z))) (VBigInt z)
| canonical_Date text ms :
    Date_parse text = Some ms ->
    Date_toISOString ms = text ->
    canonical reg (envelope "freik.Date" (JString text)) (VDate (Some ms) [])
| canonical_RegExp source flags :
    real_RegExp source flags = true ->
    canonical reg
      (envelope "freik.RegExp"
         (JObject [("source", JString source); ("flags", JString flags)]))
      (VRegExp source flags [])
| canonical_decoded tag payload data decoder res :
    canonical reg payload data ->
    isSimpleObject data = true ->
    getUnpickler reg tag = Some decoder ->
    decoder data = Ok res ->
    isUndefined res = false ->
    written_as reg res (envelope tag payload) ->
    canonical reg (envelope tag payload) res
with canonical_items (reg : registry) : list json -> list value -> Prop :=
| canonical_no_items : canonical_items reg [] []
| canonical_more_items t v items elems :
    canonical reg t v ->
    canonical_items reg items elems ->
    canonical_items reg (t :: items) (v :: elems)
with canonical_members (reg : registry) : list (string * json) -> props -> Prop :=
| canonical_no_members : canonical_members reg [] []
| canonical_more_members k t v members own :
    canonical reg t v ->
    canonical_members reg members own ->
    canonical_members reg ((k, t) :: members) ((KStr k, v) :: own)
with canonical_pairs (reg : registry) : list json -> list (value * value) -> Prop :=
| canonical_no_pairs : canonical_pairs reg [] []
| canonical_more_pairs tk tv k v pairs entries :
    canonical reg tk k ->
    canonical reg tv v ->
    canonical_pairs reg pairs entries ->
    canonical_pairs reg (JArray [tk; tv] :: pairs) ((k, v) :: entries).

Scheme canonical_min := Minimality for canonical Sort Prop
  with canonical_items_min := Minimality for canonical_items Sort Prop
  with canonical_members_min := Minimality for canonical_members Sort Prop
  with canonical_pairs_min := Minimality for canonical_pairs Sort Prop.

Combined Scheme canonical_mutual_ind
  from canonical_min, canonical_items_min, canonical_members_min,
       canonical_pairs_min.
End StabilitySpecifications.

(** * Values and registries to run the code on

    They follow the test suite of the repository. *)

Section Fixtures.
Context {host : Host}.

Definition TestSymbol : symbol := Symbol_for "pickler.Test".
Definition Test2Symbol : symbol := Symbol_for "pickler.Test2".

(** A symbol made by [Symbol()]: it has no key. *)
Definition KeylessSymbol : symbol := SymLocal 0.

(** [MakeType()] of the tests; the own keys in property order, strings
    before symbols. *)
Definition MakeType : value :=
  VObject [ (KStr "value1", VString "a");
            (KStr "value2", VRegExp "a" "gi" []);
            (KStr "toJSON", VFunction (VString "My Test Thingy"));
            (KSym FreikTypeTag, VSymbol TestSymbol) ].

Definition MakeType2 : value :=
  VObject [ (KStr "value1", VString "a");
            (KStr "value2", VRegExp "a" "gi" []);
            (KSym FreikTypeTag, VSymbol Test2Symbol) ].

Definition Test2Pickle : ToFlat := fun _ => Ok (VString "My Test2 Thingy").

(** The registry after the [beforeAll] of the tests: a decoder for
    [TestSymbol], a decoder and an encoder for [Test2Symbol]. *)
Definition test_registry : registry :=
  RegisterForPickling
    (RegisterForPickling loaded TestSymbol (fun _ => Ok MakeType) None)
    Test2Symbol (fun _ => Ok MakeType2) (Some Test2Pickle).

(** A Map that carries the marker [Test2Symbol]. *)
Definition marked_map : value :=
  VMap [(VString "a", VString "b")] [(KSym FreikTypeTag, VSymbol Test2Symbol)].

(** A Date that carries the marker [TestSymbol], for which no encoder is
    registered. *)
Definition marked_date : value :=
  VDate (Some 0%Z) [(KSym FreikTypeTag, VSymbol TestSymbol)].

(** A registry with an encoder under a symbol without key, and a value
    marked with that symbol. *)
Definition keyless_registry : registry :=
  RegisterForPickling loaded KeylessSymbol (fun _ => Ok VNull) (Some Test2Pickle).

Definition keyless_marked : value :=
  VObject [ (KStr "value1", VString "a");
            (KSym FreikTypeTag, VSymbol KeylessSymbol) ].

(** [[1, { a: new Set([Symbol()]) }]] *)
Definition symbol_deep_inside : value :=
  VArray [ VNumber 1%float;
           VObject [(KStr "a", VSet [VSymbol KeylessSymbol] [])] ] [].

(** [new Map([['k', new Set([new Date(0)])], [1, /a/gi]])] *)
Definition nested_map : value :=
  VMap [ (VString "k", VSet [VDate (Some 0%Z) []] []);
         (VNumber 1%float, VRegExp "a" "gi" []) ] [].

(** [new Set([undefined])], [new Set([NaN, null])], [new Set([1n])] *)
Definition set_of_undefined : value := VSet [VUndefined] [].
Definition set_of_NaN_and_null : value := VSet [VNumber PrimFloat.nan; VNull] [].
Definition set_of_BigInt : value := VSet [VBigInt 1%Z] [].

(** [[undefined, NaN, new Set([1n]), new Date(NaN)]] *)
Definition list_of_unfaithful : value :=
  VArray [VUndefined; VNumber PrimFloat.nan; set_of_BigInt; VDate None []] [].

(** An envelope with a tag nobody registered, and one whose payload the
    Map decoder refuses. *)
Definition unknown_envelope : value := MakeFlat "pickler.Unknown" (VString "x").
Definition bad_map_envelope : value := MakeFlat "freik.Map" (VString "nope").

Definition unknown_envelope_text : json :=
  JArray [envelope_json "@dataType" "@dataValue" "pickler.Unknown" (JString "x")].

(** [[{"@dataType":"pickler.Unknown","@dataValue":"x"},
      {"@dataType":"freik.Map","@dataValue":"nope"}]] *)
Definition left_alone_text : json :=
  JArray [envelope_json "@dataType" "@dataValue" "pickler.Unknown" (JString "x");
          envelope_json "@dataType" "@dataValue" "freik.Map" (JString "nope")].

(** [{"@dataType":"freik.RegExp","@dataValue":{"source":"a","flags":"gg"}}] *)
Definition refused_RegExp_text : json :=
  envelope_json "@dataType" "@dataValue" "freik.RegExp"
    (JObject [("source", JString "a"); ("flags", JString "gg")]).
End Fixtures.


(** * Specifications for the checkers of object shapes *)

Section ShapeSpecifications.
Context {host : Host}.

(** [obj] with [own] for its own properties. *)
Definition with_own (obj : value) (own : props) : value :=
  match obj with
  | VArray elems _ => VArray elems own
  | VObject _ => VObject own
  | VMap entries _ => VMap entries own
  | VSet elems _ => VSet elems own
  | VDate t _ => VDate t own
  | VRegExp source flags _ => VRegExp source flags own
  | other => other
  end.

(** The properties [isObjOfHelper] does not delete: those under a symbol,
    and those whose value is neither [undefined] nor [null]. *)
Definition kept (kv : propkey * value) : bool :=
  match fst kv with
  | KStr _ => negb (isEmpty (snd kv))
  | KSym _ => true
  end.

Definition without_empty (obj : value) : value :=
  with_own obj (filter kept (own_props obj)).

(** The value of the own property [fieldName], when it is there and is
    neither [undefined] nor [null]. *)
Definition live_field (obj : value) (fieldName : string) : option value :=
  match assoc (KStr fieldName) (own_props obj) with
  | Some v => if isEmpty v then None else Some v
  | None => None
  end.

(** No own key of [obj] is the name of a property of [Object.prototype]. *)
Definition plain_keys (obj : value) : bool :=
  forallb (fun k => negb (existsb (String.eqb k) Object_prototype_names))
    (Object_keys obj).

Definition names (fields : checkers) : list string := map fst fields.

(** The loop of [isObjOfHelper] told on the list of the own properties:
    what is left of the list, and how the loop ends. *)
Definition keep_first (kv : propkey * value) (r : option (props * loop_end))
  : option (props * loop_end) :=
  match r with
  | Some (own', e) => Some (kv :: own', e)
  | None => None
  end.

Fixpoint shape_walk (req opt : checkers) (own : props) (len required : Z)
  : option (props * loop_end) :=
  match own with
  | [] => Some ([], Finished len required)
  | (KSym s, v) :: rest => keep_first (KSym s, v) (shape_walk req opt rest len required)
  | (KStr k, v) :: rest =>
      if isEmpty v then shape_walk req opt rest (len - 1) required
      else
        match checker_of opt k with
        | None => None
        | Some (Some c) =>
            if c v
            then keep_first (KStr k, v) (shape_walk req opt rest (len - 1) required)
            else Some ((KStr k, v) :: rest, Returned false)
        | Some None =>
            match checker_of req k with
            | None => None
            | Some (Some c) =>
                if c v
                then keep_first (KStr k, v)
                       (shape_walk req opt rest (len - 1) (required - 1))
                else Some ((KStr k, v) :: rest, Returned false)
            | Some None =>
                keep_first (KStr k, v) (shape_walk req opt rest len required)
            end
        end
  end.

(** What the loop does at a property, apart from the model's silence:
    [field_ok] says that no checker refuses it, [hits] are the keys that
    count down [required], [unlisted] the keys that do not count down
    [len]. *)
Definition field_ok (req opt : checkers) (kv : propkey * value) : bool :=
  match kv with
  | (KStr k, v) =>
      if isEmpty v then true
      else
        match own_checker opt k with
        | Some c => c v
        | None =>
            match own_checker req k with
            | Some c => c v
            | None => true
            end
        end
  | (KSym _, _) => true
  end.

Fixpoint hits (req opt : checkers) (own : props) : list string :=
  match own with
  | [] => []
  | (KStr k, v) :: rest =>
      if isEmpty v then hits req opt rest
      else
        match own_checker opt k, own_checker req k with
        | None, Some _ => k :: hits req opt rest
        | _, _ => hits req opt rest
        end
  | (KSym _, _) :: rest => hits req opt rest
  end.

Fixpoint unlisted (req opt : checkers) (own : props) : list string :=
  match own with
  | [] => []
  | (KStr k, v) :: rest =>
      if isEmpty v then unlisted req opt rest
      else
        match own_checker opt k, own_checker req k with
        | None, None => k :: unlisted req opt rest
        | _, _ => unlisted req opt rest
        end
  | (KSym _, _) :: rest => unlisted req opt rest
  end.

(** What [isObjOfHelper] asks of an object, in the words of its tables:
    every required name is there, alive, and accepted by its checker; every
    optional name that is there and alive is accepted by its checker; and,
    for an exact check, every name that is there and alive is listed. *)
Definition shape_accepted (exact : bool) (obj : value) (req opt : checkers) : Prop :=
  (forall k c, In (k, c) req -> exists v, live_field obj k = Some v /\ c v = true)
  /\ (forall k c v, own_checker opt k = Some c -> live_field obj k = Some v ->
                   c v = true)
  /\ (exact = true ->
      forall k v, live_field obj k = Some v -> In k (names req) \/ In k (names opt)).

(** The elements of an array. *)
Definition elements (obj : value) : list value :=
  match obj with
  | VArray elems _ => elems
  | _ => []
  end.

(** [obj] with [elems] for its elements, when it is an array, and [own] for
    its own properties. *)
Definition rebuilt (obj : value) (elems : list value) (own : props) : value :=
  match obj with
  | VArray _ _ => VArray elems own
  | other => with_own other own
  end.

(** [e'] is [e], or the hole left where [e] was [undefined] or [null]. *)
Definition same_or_hole (e e' : value) : Prop :=
  e' = e \/ (isEmpty e = true /\ e' = VUndefined).

(** The keys at which the loop of [isObjOfHelper] counts down [required]:
    the names of the required table that the optional table does not
    have. *)
Definition required_only (req opt : checkers) (k : string) : bool :=
  match own_checker opt k, own_checker req k with
  | None, Some _ => true
  | _, _ => false
  end.

(** The loop of [isObjOfHelper] over the indices of an array, told on the
    list of its elements: what is left of the list, and how the loop
    ends. *)
Definition keep_element (e : value) (r : option (list value * loop_end))
  : option (list value * loop_end) :=
  match r with
  | Some (elems', w) => Some (e :: elems', w)
  | None => None
  end.

Fixpoint elems_walk (req opt : checkers) (keys : list string) (elems : list value)
         (len required : Z) : option (list value * loop_end) :=
  match keys, elems with
  | k :: keys', e :: rest =>
      if isEmpty e
      then keep_element VUndefined (elems_walk req opt keys' rest (len - 1) required)
      else
        match checker_of opt k with
        | None => None
        | Some (Some c) =>
            if c e
            then keep_element e (elems_walk req opt keys' rest (len - 1) required)
            else Some (e :: rest, Returned false)
        | Some None =>
            match checker_of req k with
            | None => None
            | Some (Some c) =>
                if c e
                then keep_element e
                       (elems_walk req opt keys' rest (len - 1) (required - 1))
                else Some (e :: rest, Returned false)
            | Some None =>
                keep_element e (elems_walk req opt keys' rest len required)
            end
        end
  | _, _ => Some (elems, Finished len required)
  end.
End ShapeSpecifications.


(** * Specifications for [asSimpleObject] *)

Section SimpleObjectSpecifications.
Context {host : Host}.

(** [asSimpleObject] meets an own key [__proto__] on its way through [x]:
    it goes through the properties under string keys of the objects that
    are no arrays, and does not enter arrays. *)
Fixpoint meets_proto_key (x : value) : bool :=
  match x with
  | VObject own | VMap _ own | VSet _ own | VDate _ own | VRegExp _ _ own =>
      existsb (fun kv =>
                 match fst kv with
                 | KStr k => String.eqb k "__proto__" || meets_proto_key (snd kv)
                 | KSym _ => false
                 end) own
  | _ => false
  end.

(** The values [asSimpleObject] gives back as they are: null, strings,
    booleans, numbers but NaN; arrays without properties of their own whose
    elements [isSimpleObject] accepts; plain objects with distinct string
    keys, none of them [__proto__], whose values are of this kind. *)
Fixpoint settled (x : value) : bool :=
  match x with
  | VNull | VString _ | VBoolean _ => true
  | VNumber n => negb (PrimFloat.is_nan n)
  | VArray elems own => no_props own && forallb isSimpleObject elems
  | VObject own =>
      unique_string_keys own
      && negb (existsb (String.eqb "__proto__") (string_keys own))
      && forallb (fun kv => settled (snd kv)) own
  | _ => false
  end.
End SimpleObjectSpecifications.

(** * Specifications for the registry and the decoders *)

Section RegistrySpecifications.
Context {host : Host}.

(** [tag] is none of the six built-in tags. *)
Definition custom_tag (tag : symbol) : bool :=
  forallb (fun entry => negb (symbol_eqb (fst entry) tag)) theUnpicklers.

(** A call returns, or throws a SyntaxError; it throws nothing else, and
    the model is not silent on it. *)
Definition returns_or_SyntaxError {A : Type} (o : outcome A) : Prop :=
  (exists a, o = Ok a) \/ o = Throw SyntaxError.
End RegistrySpecifications.

(** * Values to run the checkers on

    They follow the tests of [isObjectOfType] and of [asSimpleObject]. *)

Section ShapeFixtures.
Context {host : Host}.

(** [{ a: 1, b: () => 0, c: new Set(['a']) }], and the tables
    [{ a: isNumber, b: isFunction }] and [{ c: isSetOfString }] *)
Definition theType : value :=
  VObject [ (KStr "a", VNumber 1%float);
            (KStr "b", VFunction (VNumber 0%float));
            (KStr "c", VSet [VString "a"] []) ].

Definition required : checkers := [("a", isNumber); ("b", isFunction)].
Definition optional : checkers := [("c", isSetOfString)].

(** [{ a: 2, b: () => '', d: null }], and what a check leaves of it *)
Definition with_null_field : value :=
  VObject [ (KStr "a", VNumber 2%float);
            (KStr "b", VFunction (VString ""));
            (KStr "d", VNull) ].

Definition without_null_field : value :=
  VObject [ (KStr "a", VNumber 2%float);
            (KStr "b", VFunction (VString "")) ].

(** [{ a: [null, 'a', 12, true], b: 1, c: null, d: true, e: 'a' }] *)
Definition plain_data : value :=
  VObject [ (KStr "a", VArray [VNull; VString "a"; VNumber 12%float; VBoolean true] []);
            (KStr "b", VNumber 1%float);
            (KStr "c", VNull);
            (KStr "d", VBoolean true);
            (KStr "e", VString "a") ].

(** [new Map([[1n, () => null]])] *)
Definition map_of_BigInt : value := VMap [(VBigInt 1%Z, VFunction VNull)] [].

(** [[['a', 1], ['b', 2]]] *)
Definition pairs_payload : value :=
  VArray [ VArray [VString "a"; VNumber 1%float] [];
           VArray [VString "b"; VNumber 2%float] [] ] [].
(** [[null, 1]] with a property [x: null] of its own, the table [{ 1: isNumber }],
    and what a check leaves of the array: a hole at index 0, no property. *)
Definition sparse : value :=
  VArray [VNull; VNumber 1%float] [(KStr "x", VNull)].

Definition at_one : checkers := [("1", isNumber)].

Definition sparse_checked : value := VArray [VUndefined; VNumber 1%float] [].
End ShapeFixtures.


(** * Properties *)

Section Properties.
Context {host : Host}.

(** ** The shape of the traversals *)

Lemma SerializeJSONProperty_step (R : value -> value -> outcome value) fuel v :
  SerializeJSONProperty R (S fuel) v =
  (replaced <- R v (apply_toJSON v) ;;
   SerializeJSONValue (SerializeJSONProperty R fuel) replaced).
Proof. reflexivity. Qed.

(** A value that is no object and no symbol or BigInt has no encoder,
    whatever is registered. *)
Lemma getPickler_plain_leaf reg v :
  match v with
  | VUndefined | VNull | VBoolean _ | VNumber _ | VString _ | VFunction _ => True
  | _ => False
  end ->
  getPickler reg v = None.
Proof. destruct v; intros []; reflexivity. Qed.

Lemma replacer_plain_leaf reg v value_ :
  match v with
  | VUndefined | VNull | VBoolean _ | VNumber _ | VString _ | VFunction _ => True
  | _ => False
  end ->
  replacer reg v value_ = Ok value_.
Proof. destruct v; intros []; reflexivity. Qed.

(** ** C9 *)

(** C9. [Pickle] is declared to return a string, yet on [undefined] and on
    a function (marked or not: a function is not of type ["object"], so
    [getPickler] never looks at its marker) [JSON.stringify] returns
    [undefined], and so does [Pickle]. *)
Theorem Pickle_undefined_for_undefined_and_functions :
  forall (reg : registry) (fuel : nat) (ret : value),
    Pickle reg (S fuel) VUndefined = Ok None
    /\ Pickle reg (S fuel) (VFunction ret) = Ok None.
Proof. intros reg fuel ret. split; reflexivity. Qed.

(** ** C10 *)

(** C10. When the marker of [obj] is a symbol with a registered encoder
    but without a key in the global symbol registry, [replacer] returns the
    value it was given: the encoder is not called, no envelope is made,
    nothing is thrown, and [JSON.stringify] goes on with that value as if
    no replacer had been there. *)
Theorem replacer_passes_keyless_marker_through :
  forall (reg : registry) (obj value_ : value) (s : symbol) (p : ToFlat),
    hasFieldType obj (KSym FreikTypeTag) isSymbol = true ->
    Get obj (KSym FreikTypeTag) = VSymbol s ->
    getPickleHandler reg s = Some p ->
    Symbol_keyFor s = None ->
    replacer reg obj value_ = Ok value_
    /\ forall fuel,
        SerializeJSONProperty (replacer reg) (S fuel) obj =
        SerializeJSONValue (SerializeJSONProperty (replacer reg) fuel)
                           (apply_toJSON obj).
Proof.
  intros reg obj value_ s p Hmark Hget Hreg Hkey.
  assert (Hrep : forall x, replacer reg obj x = Ok x).
  { intro x. unfold replacer, getPickler.
    rewrite Hmark, Hget. simpl symbol_of. rewrite Hreg, Hkey. reflexivity. }
  split; [apply Hrep|].
  intro fuel. rewrite SerializeJSONProperty_step, Hrep. reflexivity.
Qed.

(** ** C6 *)

Lemma builtInPickler_first_builtin reg obj :
  builtInPickler reg builtInPickleTypes obj = first_builtin reg obj.
Proof.
  unfold first_builtin.
  destruct obj; simpl; try reflexivity;
    match goal with
    | |- context [getPickleHandler reg ?t] =>
        destruct (getPickleHandler reg t); reflexivity
    end.
Qed.

(** C6 (amended). The dispatch of the encoder, for every registry and every
    value: the encoder registered for the marker of the value wins over
    everything (also when the value is a Map or a Set); a marked value
    without registered encoder but with a [toJSON] method gets the encoder
    built on that method, tagged with its marker; in every other case the
    built-in predicates decide in the order Map, Set, Symbol, Regex, Date,
    BigInt, the first that accepts the value giving the tag and the encoder
    registered under it. *)
Theorem getPickler_dispatch :
  forall (reg : registry) (obj : value),
    getPickler reg obj = dispatch reg obj
    /\ map (fun b => (builtin_predicate b, builtin_tag b)) builtin_order
       = builtInPickleTypes
    /\ (forall s p,
           marker obj = Some s -> getPickleHandler reg s = Some p ->
           getPickler reg obj = Some (s, p)).
Proof.
  intros reg obj. split; [|split].
  - unfold getPickler, dispatch, marker.
    rewrite builtInPickler_first_builtin.
    destruct (hasFieldType obj (KSym FreikTypeTag) isSymbol); reflexivity.
  - reflexivity.
  - intros s p Hm Hp. unfold getPickler. unfold marker in Hm.
    destruct (hasFieldType obj (KSym FreikTypeTag) isSymbol); [|discriminate].
    injection Hm as ->. rewrite Hp. reflexivity.
Qed.


(** ** C2 *)

(** C2 (amended). The envelope the replacer makes for a value with an
    encoder is a record of exactly two fields, named [@dataType] (the key
    of the tag) and [@dataValue] (what the encoder returned), in this
    order; and [Pickle] of [[new Set(['a','b'])]] under the loaded registry
    is the text [[{"@dataType":"freik.Set","@dataValue":["a","b"]}]]. *)
Theorem envelope_fields :
  forall (reg : registry) (originalObject value_ data : value)
         (sym : symbol) (toFlat : ToFlat) (keyFor : string),
    getPickler reg originalObject = Some (sym, toFlat) ->
    Symbol_keyFor sym = Some keyFor ->
    keyFor <> "" ->
    toFlat originalObject = Ok data ->
    replacer reg originalObject value_
    = Ok (VObject [(KStr "@dataType", VString keyFor); (KStr "@dataValue", data)])
    /\ Object_keys (MakeFlat keyFor data) = ["@dataType"; "@dataValue"]
    /\ GetFlat (MakeFlat keyFor data) = (keyFor, data)
    /\ forall fuel,
        Pickle loaded (4 + fuel) set_in_list = Ok (Some set_in_list_text).
Proof.
  intros reg originalObject value_ data sym toFlat keyFor Hp Hk Hne Hflat.
  split; [|split; [|split]]; try reflexivity.
  unfold replacer. rewrite Hp, Hk.
  destruct keyFor as [|c k]; [congruence|].
  simpl truthy_key. rewrite Hflat. reflexivity.
Qed.

(** ** C3 *)

(** What [reviver] does to a value of the envelope shape, case by case. *)
Lemma reviver_flattened reg v :
  isFlattened v = true ->
  reviver reg v =
  match getUnpickler reg (fst (GetFlat v)) with
  | Some pickler =>
      res <- pickler (snd (GetFlat v)) ;;
      if negb (isUndefined res) then Ok res else Ok v
  | None => Ok v
  end.
Proof.
  intro H. unfold reviver. rewrite H.
  destruct (GetFlat v) as [name payload]. reflexivity.
Qed.

Lemma reviver_not_flattened reg v :
  isFlattened v = false -> reviver reg v = Ok v.
Proof. intro H. unfold reviver. rewrite H. reflexivity. Qed.


Lemma mapM_unchanged {A : Type} (f : A -> outcome A) (l : list A) :
  Forall (fun x => f x = Ok x) l -> mapM f l = Ok l.
Proof.
  induction 1 as [|x l Hx _ IH]; simpl; [reflexivity|].
  rewrite Hx. simpl. rewrite IH. reflexivity.
Qed.

Lemma InternalizeProperties_unchanged (rec : value -> outcome value) (own : props) :
  Forall (fun kv => match fst kv with
                    | KStr _ => rec (snd kv) = Ok (snd kv)
                                /\ isUndefined (snd kv) = false
                    | KSym _ => True
                    end) own ->
  InternalizeProperties rec own = Ok own.
Proof.
  induction 1 as [|[[k|s] x] own Hx _ IH]; simpl in *; [reflexivity| |].
  - destruct Hx as [Hx Hdef]. rewrite Hx. simpl. rewrite IH. simpl.
    rewrite Hdef. reflexivity.
  - rewrite IH. reflexivity.
Qed.

(** The value [JSON.parse] builds holds no [undefined]. *)
Lemma CreateDataProperty_all_nodes p own k v :
  Forall (fun kv => all_nodes p (snd kv) = true) own ->
  all_nodes p v = true ->
  Forall (fun kv => all_nodes p (snd kv) = true) (CreateDataProperty own k v).
Proof.
  intros Hown Hv. induction Hown as [|[k' x] own Hx Hown IH]; simpl.
  - constructor; [exact Hv|constructor].
  - destruct (propkey_eqb k k'); constructor; simpl; auto.
Qed.

Lemma all_string_props_Forall f own :
  Forall (fun kv => f (snd kv) = true) own -> all_string_props f own = true.
Proof.
  induction 1 as [|[[k|s] x] own Hx _ IH]; simpl in *; [reflexivity| |].
  - rewrite Hx. exact IH.
  - exact IH.
Qed.

Lemma all_nodes_object p own :
  p (VObject own) = true ->
  Forall (fun kv => all_nodes p (snd kv) = true) own ->
  all_nodes p (VObject own) = true.
Proof.
  intros Hp Hown. simpl. rewrite Hp. simpl.
  apply all_string_props_Forall. exact Hown.
Qed.

Lemma JSON_value_defined :
  forall j, all_nodes isDefined (JSON_value j) = true.
Proof.
  fix IH 1. intros [ | b | n | s | items | members ]; try reflexivity.
  - simpl. induction items as [|x items IHl]; simpl; [reflexivity|].
    rewrite (IH x). exact IHl.
  - simpl JSON_value. apply all_nodes_object; [reflexivity|].
    assert (Hgen : forall own,
               Forall (fun kv => all_nodes isDefined (snd kv) = true) own ->
               Forall (fun kv => all_nodes isDefined (snd kv) = true)
                 (JSON_members JSON_value members own)).
    { induction members as [|[k x] members IHm]; intros own Hown; [exact Hown|].
      simpl. apply IHm. apply CreateDataProperty_all_nodes; [exact Hown|apply IH]. }
    apply Hgen. constructor.
Qed.

Lemma all_nodes_here p v : all_nodes p v = true -> p v = true.
Proof. destruct v; simpl; intro H; apply andb_prop in H; tauto. Qed.

Lemma all_nodes_below p v :
  all_nodes p v = true ->
  match v with
  | VArray elems _ => forallb (all_nodes p) elems = true
  | VObject own | VMap _ own | VSet _ own | VDate _ own | VRegExp _ _ own =>
      all_string_props (all_nodes p) own = true
  | _ => True
  end.
Proof. destruct v; simpl; intro H; try exact I; apply andb_prop in H; tauto. Qed.

Lemma reviver_unknown reg v :
  left_alone reg v = true -> reviver reg v = Ok v.
Proof.
  unfold left_alone. intro H.
  destruct (isFlattened v) eqn:Hflat.
  - rewrite (reviver_flattened _ _ Hflat).
    destruct (getUnpickler reg (fst (GetFlat v))) as [pickler|]; [|reflexivity].
    cbn [negb orb] in H.
    destruct (pickler (snd (GetFlat v))) as [res| |]; try discriminate H.
    cbn [bind]. rewrite H. reflexivity.
  - apply reviver_not_flattened; exact Hflat.
Qed.

Section Unknown.
Variable reg : registry.

Let unchanged (v : value) : Prop :=
  all_nodes isDefined v = true ->
  all_nodes (left_alone reg) v = true ->
  InternalizeJSONProperty (reviver reg) v = Ok v.

Lemma properties_unchanged own :
  Pprops unchanged own ->
  all_string_props (all_nodes isDefined) own = true ->
  all_string_props (all_nodes (left_alone reg)) own = true ->
  InternalizeProperties (InternalizeJSONProperty (reviver reg)) own = Ok own.
Proof.
  intros IH Hd Hu. apply InternalizeProperties_unchanged.
  induction IH as [|[[k|s] x] own Hx _ IHown]; constructor; simpl in *;
    try exact I.
  - apply andb_prop in Hd as [Hdx _]. apply andb_prop in Hu as [Hux _].
    split; [apply Hx; assumption|].
    apply all_nodes_here in Hdx. unfold isDefined in Hdx.
    destruct (isUndefined x); [discriminate|reflexivity].
  - apply andb_prop in Hd as [_ Hd]. apply andb_prop in Hu as [_ Hu]. auto.
  - auto.
Qed.

Lemma elements_unchanged elems :
  Forall unchanged elems ->
  forallb (all_nodes isDefined) elems = true ->
  forallb (all_nodes (left_alone reg)) elems = true ->
  mapM (InternalizeJSONProperty (reviver reg)) elems = Ok elems.
Proof.
  intros IH Hd Hu. apply mapM_unchanged.
  induction IH as [|x elems Hx _ IHl]; constructor; simpl in *.
  - apply andb_prop in Hd as [Hdx _]. apply andb_prop in Hu as [Hux _]. auto.
  - apply andb_prop in Hd as [_ Hd]. apply andb_prop in Hu as [_ Hu]. auto.
Qed.

Lemma Internalize_unknown_unchanged : forall v, unchanged v.
Proof.
  induction v using value_nested_ind; unfold unchanged; intros Hd Hu;
    try (simpl; apply reviver_unknown; apply (all_nodes_here _ _ Hu));
    pose proof (all_nodes_here _ _ Hu) as Hroot;
    apply all_nodes_below in Hd; apply all_nodes_below in Hu;
    simpl in Hd, Hu; simpl InternalizeJSONProperty.
  - rewrite (elements_unchanged elems); auto. simpl.
    apply reviver_unknown; exact Hroot.
  - rewrite (properties_unchanged own); auto. simpl.
    apply reviver_unknown; exact Hroot.
  - rewrite (properties_unchanged own); auto. simpl.
    apply reviver_unknown; exact Hroot.
  - rewrite (properties_unchanged own); auto. simpl.
    apply reviver_unknown; exact Hroot.
  - rewrite (properties_unchanged own); auto. simpl.
    apply reviver_unknown; exact Hroot.
  - rewrite (properties_unchanged own); auto. simpl.
    apply reviver_unknown; exact Hroot.
Qed.
End Unknown.

Section ThrowsOnly.
Variable allowed : exn -> Prop.

Lemma throws_only_Ok {A : Type} (a : A) : throws_only allowed (Ok a).
Proof. left. eauto. Qed.

Lemma throws_only_bind {A B : Type} (m : outcome A) (k : A -> outcome B) :
  throws_only allowed m ->
  (forall a, throws_only allowed (k a)) ->
  throws_only allowed (bind m k).
Proof.
  intros [[a ->]|[e [-> He]]] Hk; cbn [bind]; [apply Hk|right; eauto].
Qed.

Lemma throws_only_mapM {A B : Type} (f : A -> outcome B) l :
  Forall (fun x => throws_only allowed (f x)) l ->
  throws_only allowed (mapM f l).
Proof.
  induction 1 as [|x l Hx _ IH]; cbn [mapM]; [apply throws_only_Ok|].
  apply throws_only_bind; [exact Hx|]. intro y.
  apply throws_only_bind; [exact IH|]. intro ys. apply throws_only_Ok.
Qed.

Lemma throws_only_InternalizeProperties (rec : value -> outcome value) own :
  Forall (fun kv => throws_only allowed (rec (snd kv))) own ->
  throws_only allowed (InternalizeProperties rec own).
Proof.
  induction 1 as [|[[k|s] v] own Hv _ IH]; cbn [InternalizeProperties];
    [apply throws_only_Ok| |].
  - apply throws_only_bind; [exact Hv|]. intro v'.
    apply throws_only_bind; [exact IH|]. intro rest. apply throws_only_Ok.
  - apply throws_only_bind; [exact IH|]. intro rest. apply throws_only_Ok.
Qed.

Variable reg : registry.
Hypothesis decoders :
  forall name decoder payload,
    getUnpickler reg name = Some decoder ->
    throws_only allowed (decoder payload).

Lemma throws_only_reviver v : throws_only allowed (reviver reg v).
Proof.
  unfold reviver.
  destruct (isFlattened v); [|apply throws_only_Ok].
  destruct (GetFlat v) as [name payload].
  destruct (getUnpickler reg name) as [decoder|] eqn:Hd; [|apply throws_only_Ok].
  apply throws_only_bind; [exact (decoders _ _ payload Hd)|].
  intro res. destruct (negb (isUndefined res)); apply throws_only_Ok.
Qed.

Lemma throws_only_Internalize :
  forall v, throws_only allowed (InternalizeJSONProperty (reviver reg) v).
Proof.
  induction v using value_nested_ind; cbn [InternalizeJSONProperty];
    try apply throws_only_reviver;
    (apply throws_only_bind;
     [first [apply throws_only_mapM; assumption
            |apply throws_only_InternalizeProperties; assumption]
     |intro; apply throws_only_reviver]).
Qed.
End ThrowsOnly.



(** ** C5 *)

(** The Date decoder on every payload: [undefined] for what is no string,
    a Date for every string, also one that is no date (then the invalid
    Date, since [new Date(text)] does not throw). *)
Lemma DateUnpickle_cases :
  forall val : value,
    DateUnpickle val =
    match val with
    | VString s => Ok (VDate (Date_parse s) [])
    | _ => Ok VUndefined
    end.
Proof. intros []; reflexivity. Qed.

Lemma reviver_Date_envelope :
  forall s : string,
    reviver loaded (MakeFlat "freik.Date" (VString s))
    = Ok (VDate (Date_parse s) []).
Proof. intro s. reflexivity. Qed.

(** ** C4 *)

Lemma mapM_throws {A B : Type} (f : A -> outcome B) before x after e :
  Forall (fun y => exists r, f y = Ok r) before ->
  f x = Throw e ->
  mapM f (before ++ x :: after) = Throw e.
Proof.
  intros Hb Hx. induction Hb as [|y before [r Hy] _ IH]; simpl.
  - rewrite Hx. reflexivity.
  - rewrite Hy. simpl. rewrite IH. reflexivity.
Qed.

Lemma SerializeJSONArray_throws rec before x after e :
  Forall (fun y => exists r, rec y = Ok r) before ->
  rec x = Throw e ->
  SerializeJSONArray rec (before ++ x :: after) = Throw e.
Proof.
  intros Hb Hx. unfold SerializeJSONArray. apply mapM_throws.
  - eapply Forall_impl; [|exact Hb]. intros y [r Hy]. rewrite Hy.
    simpl. eauto.
  - rewrite Hx. reflexivity.
Qed.

Lemma SerializeJSONObject_throws rec before k x after e :
  Forall (fun kv => match fst kv with
                    | KStr _ => exists r, rec (snd kv) = Ok r
                    | KSym _ => True
                    end) before ->
  rec x = Throw e ->
  SerializeJSONObject rec (before ++ (KStr k, x) :: after) = Throw e.
Proof.
  intros Hb Hx. induction Hb as [|[[k'|s] y] before Hy _ IH]; simpl in *.
  - rewrite Hx. reflexivity.
  - destruct Hy as [r Hy]. rewrite Hy. simpl. rewrite IH. reflexivity.
  - exact IH.
Qed.

(** An array without encoder of its own is replaced by the array of its
    elements. *)
Lemma replacer_array reg elems own value_ :
  getPickler reg (VArray elems own) = None ->
  replacer reg (VArray elems own) value_ = Ok (VArray elems []).
Proof. intro H. unfold replacer. rewrite H. reflexivity. Qed.

(** A plain object without encoder of its own is left as [toJSON] made
    it. *)
Lemma replacer_object reg own value_ :
  getPickler reg (VObject own) = None ->
  replacer reg (VObject own) value_ = Ok value_.
Proof. intro H. unfold replacer. rewrite H. reflexivity. Qed.

Lemma replacer_bare_array reg elems value_ :
  replacer reg (VArray elems []) value_ = Ok (VArray elems []).
Proof. reflexivity. Qed.

Lemma SerializeJSONProperty_string reg fuel s :
  SerializeJSONProperty (replacer reg) (S fuel) (VString s) = Ok (Some (JString s)).
Proof. reflexivity. Qed.

Lemma SerializeJSONProperty_array reg fuel elems own :
  getPickler reg (VArray elems own) = None ->
  SerializeJSONProperty (replacer reg) (S fuel) (VArray elems own) =
  (items <- SerializeJSONArray (SerializeJSONProperty (replacer reg) fuel) elems ;;
   Ok (Some (JArray items))).
Proof.
  intro H. rewrite SerializeJSONProperty_step, (replacer_array _ _ _ _ H).
  reflexivity.
Qed.

(** A value with an encoder and a key is serialized as the envelope
    object, one level down. *)
Lemma SerializeJSONProperty_envelope reg fuel v sym toFlat keyFor data :
  getPickler reg v = Some (sym, toFlat) ->
  truthy_key (Symbol_keyFor sym) = Some keyFor ->
  toFlat v = Ok data ->
  SerializeJSONProperty (replacer reg) (S (S fuel)) v =
  (r <- SerializeJSONProperty (replacer reg) (S fuel) data ;;
   Ok (Some (JObject ((("@dataType", JString keyFor)
                         :: match r with
                            | Some j => [("@dataValue", j)]
                            | None => []
                            end))))).
Proof.
  intros Hp Hk Hd. rewrite SerializeJSONProperty_step.
  unfold replacer at 1. rewrite Hp, Hk, Hd.
  cbn [bind MakeFlat SerializeJSONValue SerializeJSONObject].
  rewrite SerializeJSONProperty_string. cbn [bind].
  destruct (SerializeJSONProperty (replacer reg) (S fuel) data) as [[j|]|e|w];
    reflexivity.
Qed.


Lemma replacer_keyless_symbol reg id value_ :
  getPickleHandler reg SymbolTag = Some SymbolPickle ->
  replacer reg (VSymbol (SymLocal id)) value_ = Throw keyless_symbol_error.
Proof.
  intro H. unfold replacer, getPickler. cbn. rewrite H. reflexivity.
Qed.

Lemma pair_array_encodes reg fuel k v :
  encodes reg fuel k -> encodes reg fuel v ->
  encodes reg (S fuel) (VArray [k; v] []).
Proof.
  intros [rk Hk] [rv Hv]. unfold encodes.
  rewrite SerializeJSONProperty_array by reflexivity.
  unfold SerializeJSONArray. simpl. rewrite Hk, Hv. simpl. eauto.
Qed.

Lemma meets_keyless_symbol_throws reg :
  getPickleHandler reg SymbolTag = Some SymbolPickle ->
  forall fuel v,
    meets_keyless_symbol reg fuel v ->
    SerializeJSONProperty (replacer reg) fuel v = Throw keyless_symbol_error.
Proof.
  intros Hsym fuel v H.
  induction H as
      [ fuel id
      | fuel before x after own Hp Hb _ IH
      | fuel before k x after Hp HtoJSON Hb _ IH
      | fuel before x after own Hp Hb _ IH
      | fuel before k v after own Hp Hb _ IH
      | fuel before k v after own Hp Hb Hk _ IH ].
  - rewrite SerializeJSONProperty_step, replacer_keyless_symbol by exact Hsym.
    reflexivity.
  - rewrite SerializeJSONProperty_array by exact Hp.
    rewrite (SerializeJSONArray_throws _ _ _ _ _ Hb IH). reflexivity.
  - rewrite SerializeJSONProperty_step, HtoJSON.
    rewrite replacer_object by exact Hp.
    cbn [bind SerializeJSONValue].
    rewrite (SerializeJSONObject_throws _ _ _ _ _ _ Hb IH). reflexivity.
  - rewrite (SerializeJSONProperty_envelope reg fuel _ _ _ "freik.Set"
               (VArray (before ++ x :: after) []) Hp) by reflexivity.
    rewrite SerializeJSONProperty_array by reflexivity.
    rewrite (SerializeJSONArray_throws _ _ _ _ _ Hb IH). reflexivity.
  - rewrite (SerializeJSONProperty_envelope reg (S fuel) _ _ _ "freik.Map"
               (VArray (map (fun kv => VArray [fst kv; snd kv] [])
                          (before ++ (k, v) :: after)) []) Hp) by reflexivity.
    rewrite SerializeJSONProperty_array by reflexivity.
    rewrite map_app. simpl map.
    rewrite (SerializeJSONArray_throws _ _ _ _ keyless_symbol_error);
      [reflexivity| |].
    + apply Forall_map. eapply Forall_impl; [|exact Hb].
      intros [k0 v0] [H1 H2]. apply pair_array_encodes; assumption.
    + rewrite SerializeJSONProperty_array by reflexivity.
      unfold SerializeJSONArray. simpl. rewrite IH. reflexivity.
  - rewrite (SerializeJSONProperty_envelope reg (S fuel) _ _ _ "freik.Map"
               (VArray (map (fun kv => VArray [fst kv; snd kv] [])
                          (before ++ (k, v) :: after)) []) Hp) by reflexivity.
    rewrite SerializeJSONProperty_array by reflexivity.
    rewrite map_app. simpl map.
    rewrite (SerializeJSONArray_throws _ _ _ _ keyless_symbol_error);
      [reflexivity| |].
    + apply Forall_map. eapply Forall_impl; [|exact Hb].
      intros [k0 v0] [H1 H2]. apply pair_array_encodes; assumption.
    + rewrite SerializeJSONProperty_array by reflexivity.
      destruct Hk as [rk Hk].
      unfold SerializeJSONArray. simpl. rewrite Hk. simpl. rewrite IH.
      reflexivity.
Qed.

(** C4. With the built-in Symbol encoder in the registry, the replacer
    throws ['Unable to get a key for a symbol for pickling'] on every
    symbol that has no key in the global symbol registry; and wherever the
    traversal of the input comes to such a symbol (as the input itself, in
    an array, a Set, a Map or a plain object, at any depth), [Pickle]
    throws that error and returns no text. *)
Theorem Pickle_throws_on_keyless_symbol :
  forall reg : registry,
    getPickleHandler reg SymbolTag = Some SymbolPickle ->
    (forall id value_,
        SymbolPickle (VSymbol (SymLocal id)) = Throw keyless_symbol_error
        /\ replacer reg (VSymbol (SymLocal id)) value_ = Throw keyless_symbol_error)
    /\ (forall fuel v,
           meets_keyless_symbol reg fuel v ->
           Pickle reg fuel v = Throw keyless_symbol_error).
Proof.
  intros reg Hsym. split.
  - intros id value_. split; [reflexivity|].
    apply replacer_keyless_symbol; exact Hsym.
  - intros fuel v H. apply meets_keyless_symbol_throws; assumption.
Qed.


(** ** BigInt and its decimal text *)

Lemma decimal_digit_inert c :
  is_decimal_digit c = true ->
  is_white_space c = false
  /\ Ascii.eqb c "+" = false
  /\ Ascii.eqb c "-" = false
  /\ radix_of_prefix c = None.
Proof.
  destruct c as [[|] [|] [|] [|] [|] [|] [|] [|]];
    intro H; try discriminate H; repeat split; reflexivity.
Qed.

Lemma string_of_uint_digits d :
  all_chars is_decimal_digit (NilEmpty.string_of_uint d) = true.
Proof. induction d; simpl; auto. Qed.

Lemma trim_right_no_space s :
  all_chars (fun c => negb (is_white_space c)) s = true -> trim_right s = s.
Proof.
  induction s as [|c s IH]; simpl; [reflexivity|].
  intro H. apply andb_prop in H as [Hc Hs]. rewrite (IH Hs).
  destruct s; [|reflexivity].
  destruct (is_white_space c); [discriminate|reflexivity].
Qed.

Lemma all_chars_impl (p q : ascii -> bool) s :
  (forall c, p c = true -> q c = true) ->
  all_chars p s = true -> all_chars q s = true.
Proof.
  intro Hpq. induction s as [|c s IH]; simpl; [reflexivity|].
  intro H. apply andb_prop in H as [Hc Hs]. rewrite (Hpq _ Hc), (IH Hs).
  reflexivity.
Qed.

Lemma digits_no_space s :
  all_chars is_decimal_digit s = true ->
  all_chars (fun c => negb (is_white_space c)) s = true.
Proof.
  apply all_chars_impl. intros c Hc.
  destruct (decimal_digit_inert c Hc) as [-> _]. reflexivity.
Qed.

Lemma trim_digits s :
  all_chars is_decimal_digit s = true -> trim s = s.
Proof.
  intro H. unfold trim.
  assert (Hl : trim_left s = s).
  { destruct s as [|c s]; [reflexivity|]. simpl in *.
    apply andb_prop in H as [Hc _].
    destruct (decimal_digit_inert c Hc) as [-> _]. reflexivity. }
  rewrite Hl. apply trim_right_no_space, digits_no_space, H.
Qed.

Lemma decimal_literal_of_uint d :
  d <> Decimal.Nil ->
  decimal_literal (NilEmpty.string_of_uint d) = Some (Z.of_uint d).
Proof.
  intro Hd. unfold decimal_literal. rewrite NilEmpty.usu.
  destruct d; try reflexivity. congruence.
Qed.

Lemma StringToBigInt_digits d :
  d <> Decimal.Nil ->
  StringToBigInt (NilEmpty.string_of_uint d) = Some (Z.of_uint d).
Proof.
  intro Hd. unfold StringToBigInt.
  rewrite (trim_digits _ (string_of_uint_digits d)).
  rewrite <- (decimal_literal_of_uint d Hd).
  pose proof (string_of_uint_digits d) as Hall.
  destruct (NilEmpty.string_of_uint d) as [|c s] eqn:Hs.
  - destruct d; simpl in Hs; congruence.
  - simpl in Hall. apply andb_prop in Hall as [Hc Hrest].
    destruct (decimal_digit_inert c Hc) as (_ & -> & -> & _).
    destruct s as [|p s]; [destruct c as [[|] [|] [|] [|] [|] [|] [|] [|]];
                           reflexivity|].
    simpl in Hrest. apply andb_prop in Hrest as [Hp _].
    destruct (decimal_digit_inert p Hp) as (_ & _ & _ & Hradix).
    destruct c as [[|] [|] [|] [|] [|] [|] [|] [|]]; try reflexivity.
    rewrite Hradix. reflexivity.
Qed.

Lemma StringToBigInt_minus_digits d :
  d <> Decimal.Nil ->
  StringToBigInt (String "-" (NilEmpty.string_of_uint d)) = Some (- Z.of_uint d)%Z.
Proof.
  intro Hd. unfold StringToBigInt.
  assert (Htrim : trim (String "-" (NilEmpty.string_of_uint d))
                  = String "-" (NilEmpty.string_of_uint d)).
  { unfold trim. simpl trim_left. apply trim_right_no_space. simpl.
    apply digits_no_space, string_of_uint_digits. }
  rewrite Htrim. simpl. rewrite (decimal_literal_of_uint d Hd). reflexivity.
Qed.

(** [BigInt(z.toString())] is [z]. *)
Lemma StringToBigInt_toString z :
  StringToBigInt (BigInt_toString z) = Some z.
Proof.
  unfold BigInt_toString. destruct z as [|p|p]; [reflexivity| |].
  - simpl Z.to_int. unfold NilZero.string_of_int, NilZero.string_of_uint.
    pose proof (DecimalPos.Unsigned.to_uint_nonnil p) as Hn.
    pose proof (DecimalPos.Unsigned.of_to p) as Hof.
    destruct (Pos.to_uint p) eqn:Hp; try congruence;
      rewrite <- Hp in *; rewrite StringToBigInt_digits by exact Hn;
      unfold Z.of_uint; rewrite Hof; reflexivity.
  - simpl Z.to_int. unfold NilZero.string_of_int, NilZero.string_of_uint.
    pose proof (DecimalPos.Unsigned.to_uint_nonnil p) as Hn.
    pose proof (DecimalPos.Unsigned.of_to p) as Hof.
    destruct (Pos.to_uint p) eqn:Hp; try congruence;
      rewrite <- Hp in *; rewrite StringToBigInt_minus_digits by exact Hn;
      unfold Z.of_uint; rewrite Hof; reflexivity.
Qed.


(** ** The texts of the stable values *)

Lemma registered_picklers reg :
  builtins_registered reg ->
  getPickleHandler reg MapTag = Some MapPickle
  /\ getPickleHandler reg SetTag = Some SetPickle
  /\ getPickleHandler reg SymbolTag = Some SymbolPickle
  /\ getPickleHandler reg RegexTag = Some RegexPickle
  /\ getPickleHandler reg DateTag = Some DatePickle
  /\ getPickleHandler reg BigIntTag = Some BigIntPickle.
Proof.
  intros [H _]. unfold thePicklers in H.
  repeat match goal with
         | H : Forall _ (_ :: _) |- _ => inversion_clear H
         end.
  simpl in *. repeat split; assumption.
Qed.

Lemma registered_unpicklers reg :
  builtins_registered reg ->
  getUnpickler reg "freik.Map" = Some MapUnpickle
  /\ getUnpickler reg "freik.Set" = Some SetUnpickle
  /\ getUnpickler reg "freik.Symbol" = Some SymbolUnpickle
  /\ getUnpickler reg "freik.RegExp" = Some RegexUnpickle
  /\ getUnpickler reg "freik.Date" = Some DateUnpickle
  /\ getUnpickler reg "freik.BigInt" = Some BigIntUnpickle.
Proof.
  intros [_ H]. unfold theUnpicklers in H.
  repeat match goal with
         | H : Forall _ (_ :: _) |- _ => inversion_clear H
         end.
  simpl in *. repeat split; assumption.
Qed.

Lemma loaded_builtins_registered : builtins_registered loaded.
Proof. split; repeat constructor. Qed.

Lemma SerializeJSONArray_text rec (g : value -> option json) elems :
  Forall (fun e => rec e = Ok (g e)) elems ->
  SerializeJSONArray rec elems = Ok (map (fun e => or_null (g e)) elems).
Proof.
  unfold SerializeJSONArray.
  induction 1 as [|e elems He _ IH]; simpl; [reflexivity|].
  rewrite He. simpl. rewrite IH. reflexivity.
Qed.

Lemma SerializeJSONObject_text rec (g : value -> option json) own :
  Forall (fun kv => rec (snd kv) = Ok (g (snd kv))) own ->
  SerializeJSONObject rec own = Ok (text_members g own).
Proof.
  induction 1 as [|[[k|s] x] own Hx _ IH]; simpl in *; [reflexivity| |].
  - rewrite Hx. simpl. rewrite IH. simpl. destruct (g x); reflexivity.
  - exact IH.
Qed.

Lemma assoc_symbol_string_keys s own :
  unique_string_keys own = true -> assoc (KSym s) own = None.
Proof.
  induction own as [|[[k|s'] y] own IH]; simpl; try reflexivity; try discriminate.
  intro H. apply andb_prop in H as [_ H]. auto.
Qed.

Lemma apply_toJSON_no_toJSON own :
  no_toJSON own = true -> apply_toJSON (VObject own) = VObject own.
Proof.
  unfold no_toJSON, apply_toJSON, Get, lookup. simpl own_props.
  destruct (assoc (KStr "toJSON") own) as [[]|]; try reflexivity; discriminate.
Qed.

Lemma getPickler_string_keys reg own :
  unique_string_keys own = true -> getPickler reg (VObject own) = None.
Proof.
  intro H. unfold getPickler, hasFieldType, hasField, lookup. simpl own_props.
  rewrite (assoc_symbol_string_keys _ _ H). reflexivity.
Qed.

Lemma SerializeJSONProperty_object reg fuel own :
  getPickler reg (VObject own) = None ->
  apply_toJSON (VObject own) = VObject own ->
  SerializeJSONProperty (replacer reg) (S fuel) (VObject own) =
  (ms <- SerializeJSONObject (SerializeJSONProperty (replacer reg) fuel) own ;;
   Ok (Some (JObject ms))).
Proof.
  intros Hp Ht. rewrite SerializeJSONProperty_step, Ht.
  rewrite replacer_object by exact Hp. reflexivity.
Qed.

(** The envelope record, met as a plain object, is written as the envelope
    it is. *)
Lemma SerializeJSONProperty_MakeFlat reg fuel tag data :
  SerializeJSONProperty (replacer reg) (S (S fuel)) (MakeFlat tag data) =
  (r <- SerializeJSONProperty (replacer reg) (S fuel) data ;;
   Ok (Some (JObject ((("@dataType", JString tag)
                         :: match r with
                            | Some j => [("@dataValue", j)]
                            | None => []
                            end))))).
Proof.
  unfold MakeFlat. rewrite SerializeJSONProperty_object by reflexivity.
  cbn [SerializeJSONObject]. rewrite SerializeJSONProperty_string. cbn [bind].
  destruct (SerializeJSONProperty (replacer reg) (S fuel) data) as [[j|]|e|w];
    reflexivity.
Qed.

Lemma list_max_bound {A : Type} (f : A -> nat) (l : list A) n :
  list_max (map f l) <= n -> Forall (fun x => f x <= n) l.
Proof.
  intro H. apply list_max_le in H. rewrite Forall_map in H. exact H.
Qed.

Section Encode.
Variable reg : registry.
Hypothesis Hreg : builtins_registered reg.

Let encoded (v : value) : Prop :=
  stable v = true ->
  forall fuel, need v <= fuel ->
    SerializeJSONProperty (replacer reg) fuel v = Ok (text_of v).

Lemma elements_encoded elems fuel :
  Forall encoded elems ->
  Forall (fun e => stable e = true) elems ->
  list_max (map need elems) <= fuel ->
  SerializeJSONArray (SerializeJSONProperty (replacer reg) fuel) elems
  = Ok (map (fun e => or_null (text_of e)) elems).
Proof.
  intros IH Hf Hn. apply SerializeJSONArray_text.
  apply list_max_bound in Hn.
  rewrite Forall_forall in *. intros e He. apply IH; auto.
Qed.

Lemma getPickler_builtin v :
  no_props (own_props v) = true ->
  getPickler reg v =
  match v with
  | VMap _ _ => Some (MapTag, MapPickle)
  | VSet _ _ => Some (SetTag, SetPickle)
  | VSymbol _ => Some (SymbolTag, SymbolPickle)
  | VRegExp _ _ _ => Some (RegexTag, RegexPickle)
  | VDate _ _ => Some (DateTag, DatePickle)
  | VBigInt _ => Some (BigIntTag, BigIntPickle)
  | _ => None
  end.
Proof.
  destruct (registered_picklers reg Hreg) as (HM & HS & HY & HR & HD & HB).
  destruct v; try reflexivity; simpl own_props;
    try (destruct own; [|discriminate]); intros _;
    unfold getPickler; cbn;
    rewrite ?HM, ?HS, ?HY, ?HR, ?HD, ?HB; reflexivity.
Qed.

(** The text of a Set and of a Map, from the texts of what they hold. *)
Lemma SerializeJSONProperty_Set fuel elems :
  SerializeJSONProperty (replacer reg) (S (S fuel)) (VSet elems []) =
  (items <- SerializeJSONArray (SerializeJSONProperty (replacer reg) fuel) elems ;;
   Ok (Some (envelope "freik.Set" (JArray items)))).
Proof.
  rewrite (SerializeJSONProperty_envelope reg fuel _ _ _ "freik.Set"
             (VArray elems []) (getPickler_builtin (VSet elems []) eq_refl))
    by reflexivity.
  rewrite SerializeJSONProperty_array by reflexivity.
  destruct (SerializeJSONArray _ elems); reflexivity.
Qed.

Lemma SerializeJSONProperty_pairs fuel (f g : value * value -> value) entries :
  SerializeJSONProperty (replacer reg) (S (S fuel))
    (VArray (map (fun kv => VArray [f kv; g kv] []) entries) []) =
  (items <- mapM (fun kv =>
                    a <- SerializeJSONProperty (replacer reg) fuel (f kv) ;;
                    b <- SerializeJSONProperty (replacer reg) fuel (g kv) ;;
                    Ok (JArray [or_null a; or_null b])) entries ;;
   Ok (Some (JArray items))).
Proof.
  rewrite SerializeJSONProperty_array by reflexivity.
  unfold SerializeJSONArray.
  assert (Hitems :
            mapM (fun e => r <- SerializeJSONProperty (replacer reg) (S fuel) e ;;
                           Ok (or_null r))
              (map (fun kv => VArray [f kv; g kv] []) entries)
            = mapM (fun kv =>
                      a <- SerializeJSONProperty (replacer reg) fuel (f kv) ;;
                      b <- SerializeJSONProperty (replacer reg) fuel (g kv) ;;
                      Ok (JArray [or_null a; or_null b])) entries).
  { induction entries as [|kv entries IH]; [reflexivity|].
    cbn [map mapM]. rewrite IH.
    rewrite SerializeJSONProperty_array by reflexivity.
    unfold SerializeJSONArray. cbn [mapM].
    destruct (SerializeJSONProperty (replacer reg) fuel (f kv)); try reflexivity.
    cbn [bind].
    destruct (SerializeJSONProperty (replacer reg) fuel (g kv)); reflexivity. }
  rewrite Hitems. reflexivity.
Qed.

Lemma SerializeJSONProperty_Map fuel entries :
  SerializeJSONProperty (replacer reg) (S (S (S fuel))) (VMap entries []) =
  (items <- mapM (fun kv =>
                    a <- SerializeJSONProperty (replacer reg) fuel (fst kv) ;;
                    b <- SerializeJSONProperty (replacer reg) fuel (snd kv) ;;
                    Ok (JArray [or_null a; or_null b])) entries ;;
   Ok (Some (envelope "freik.Map" (JArray items)))).
Proof.
  rewrite (SerializeJSONProperty_envelope reg (S fuel) _ _ _ "freik.Map"
             (VArray (map (fun kv => VArray [fst kv; snd kv] []) entries) [])
             (getPickler_builtin (VMap entries []) eq_refl))
    by reflexivity.
  rewrite (SerializeJSONProperty_pairs fuel fst snd).
  destruct (mapM _ entries); reflexivity.
Qed.

Lemma mapM_ok {A B : Type} (f : A -> outcome B) (g : A -> B) l :
  Forall (fun x => f x = Ok (g x)) l -> mapM f l = Ok (map g l).
Proof.
  induction 1 as [|x l Hx _ IH]; simpl; [reflexivity|].
  rewrite Hx. simpl. rewrite IH. reflexivity.
Qed.

Lemma encode_stable : forall v, encoded v.
Proof.
  induction v using value_nested_ind; unfold encoded; intros Hf fuel Hfuel;
    simpl in Hf; try discriminate Hf;
    try (destruct fuel; [inversion Hfuel|reflexivity]).
  - (* symbol *)
    destruct s as [key|id]; simpl in Hf; [|discriminate].
    destruct fuel as [|[|fuel]]; simpl in Hfuel; try lia.
    rewrite (SerializeJSONProperty_envelope reg fuel _ _ _ "freik.Symbol"
               (VString key) (getPickler_builtin (VSymbol (SymFor key)) eq_refl))
      by reflexivity.
    reflexivity.
  - (* BigInt *)
    destruct fuel as [|[|fuel]]; simpl in Hfuel; try lia.
    rewrite (SerializeJSONProperty_envelope reg fuel _ _ _ "freik.BigInt"
               (VString (BigInt_toString z)) (getPickler_builtin (VBigInt z) eq_refl))
      by reflexivity.
    reflexivity.
  - (* array *)
    apply andb_prop in Hf as [Hown Hf].
    destruct own; [|discriminate].
    destruct fuel as [|fuel]; simpl in Hfuel; [lia|].
    rewrite SerializeJSONProperty_array by reflexivity.
    rewrite elements_encoded; auto; [|lia].
    apply Forall_forall. rewrite forallb_forall in Hf. exact Hf.
  - (* plain object *)
    apply andb_prop in Hf as [Hf Hvals]. apply andb_prop in Hf as [Hf _].
    apply andb_prop in Hf as [Hkeys HtoJSON].
    destruct fuel as [|fuel]; simpl in Hfuel; [lia|].
    rewrite SerializeJSONProperty_object;
      [|apply getPickler_string_keys; exact Hkeys
       |apply apply_toJSON_no_toJSON; exact HtoJSON].
    rewrite (SerializeJSONObject_text _ text_of); [reflexivity|].
    apply le_S_n in Hfuel. apply list_max_bound in Hfuel.
    rewrite forallb_forall in Hvals. unfold Pprops in H.
    rewrite Forall_forall in *. intros kv Hkv. apply H; auto.
  - (* Map *)
    apply andb_prop in Hf as [Hf _]. apply andb_prop in Hf as [Hown Hf].
    destruct own; [|discriminate].
    destruct fuel as [|[|[|fuel]]]; simpl in Hfuel; try lia.
    rewrite SerializeJSONProperty_Map.
    rewrite (mapM_ok _ (fun kv => JArray [or_null (text_of (fst kv));
                                          or_null (text_of (snd kv))]));
      [reflexivity|].
    assert (Hn : list_max (map (fun kv => Nat.max (need (fst kv)) (need (snd kv)))
                             entries) <= fuel) by lia.
    apply list_max_bound in Hn. rewrite forallb_forall in Hf.
    unfold Pentries in H. rewrite Forall_forall in *.
    intros [k x] Hkx. specialize (H _ Hkx). specialize (Hn _ Hkx).
    specialize (Hf _ Hkx). cbn [fst snd] in *.
    apply andb_prop in Hf as [Hk Hx]. apply andb_prop in Hk as [_ Hk].
    destruct H as [IHk IHx].
    rewrite (IHk Hk fuel) by lia. cbn [bind].
    rewrite (IHx Hx fuel) by lia. reflexivity.
  - (* Set *)
    apply andb_prop in Hf as [Hf _]. apply andb_prop in Hf as [Hown Hf].
    destruct own; [|discriminate].
    destruct fuel as [|[|fuel]]; simpl in Hfuel; try lia.
    rewrite SerializeJSONProperty_Set.
    rewrite elements_encoded; auto; [|lia].
    apply Forall_forall. rewrite forallb_forall in Hf.
    intros e He. specialize (Hf e He). apply andb_prop in Hf. tauto.
  - (* Date *)
    apply andb_prop in Hf as [Hown Hf].
    destruct own; [|discriminate].
    destruct fuel as [|[|fuel]]; simpl in Hfuel; try lia.
    rewrite (SerializeJSONProperty_envelope reg fuel _ _ _ "freik.Date"
               (Date_toJSON t) (getPickler_builtin (VDate t []) eq_refl))
      by reflexivity.
    destruct t; reflexivity.
  - (* RegExp *)
    apply andb_prop in Hf as [Hown Hf].
    destruct own; [|discriminate].
    destruct fuel as [|[|[|fuel]]]; simpl in Hfuel; try lia.
    rewrite (SerializeJSONProperty_envelope reg (S fuel) _ _ _ "freik.RegExp"
               (VObject [(KStr "source", VString source);
                         (KStr "flags", VString flags)])
               (getPickler_builtin (VRegExp source flags []) eq_refl))
      by reflexivity.
    reflexivity.
Qed.
End Encode.

(** ** Reading the texts back *)

Lemma classify_NZero n :
  PrimFloat.classify n = NZero -> Prim2SF n = S754_zero true.
Proof.
  rewrite classify_spec. unfold SF64classify, SFclassify.
  destruct (Prim2SF n) as [[|]|[|]| |[|] m e]; try discriminate; try reflexivity;
    destruct (_ =? _)%Z; discriminate.
Qed.

Lemma eqb_NZero a n :
  PrimFloat.classify n = NZero -> PrimFloat.eqb a n = PrimFloat.eqb a PrimFloat.zero.
Proof.
  intro H. rewrite !eqb_spec, (classify_NZero _ H).
  replace (Prim2SF PrimFloat.zero) with (S754_zero false) by reflexivity.
  unfold SFeqb, SFcompare.
  destruct (Prim2SF a) as [[|]|[|]| |[|] m e]; reflexivity.
Qed.

Lemma is_nan_NZero n :
  PrimFloat.classify n = NZero -> PrimFloat.is_nan n = false.
Proof.
  intro H. unfold PrimFloat.is_nan. rewrite eqb_spec, (classify_NZero _ H).
  reflexivity.
Qed.

(** The zero that is stored is the same key as the zero that was given. *)
Lemma SameValueZero_stored_key x y :
  SameValueZero x (stored_key y) = SameValueZero x y.
Proof.
  destruct y; try reflexivity. unfold stored_key.
  destruct (PrimFloat.classify n) eqn:Hn; try reflexivity.
  destruct x; try reflexivity. cbn [SameValueZero].
  rewrite (eqb_NZero _ _ Hn), (is_nan_NZero _ Hn).
  replace (PrimFloat.is_nan PrimFloat.zero) with false by reflexivity.
  reflexivity.
Qed.

Lemma existsb_SameValueZero_stored_key x l :
  existsb (SameValueZero x) (map stored_key l) = existsb (SameValueZero x) l.
Proof.
  induction l as [|y l IH]; [reflexivity|].
  cbn [map existsb]. rewrite SameValueZero_stored_key, IH. reflexivity.
Qed.

Lemma distinct_from_stored_key l :
  forall seen stored,
    distinct_from (seen ++ map stored_key stored) l = distinct_from (seen ++ stored) l.
Proof.
  induction l as [|x l IH]; intros seen stored; [reflexivity|].
  cbn [distinct_from]. rewrite !existsb_app, existsb_SameValueZero_stored_key.
  f_equal.
  transitivity (distinct_from (seen ++ map stored_key (stored ++ [x])) l).
  - rewrite map_app, app_assoc. symmetry.
    apply (IH (seen ++ map stored_key stored) [x]).
  - rewrite IH, app_assoc. reflexivity.
Qed.

Lemma Set_of_distinct l :
  forall seen,
    distinct_from seen l = true ->
    fold_left Set_add l seen = seen ++ map stored_key l.
Proof.
  induction l as [|x l IH]; intros seen H; simpl.
  - rewrite app_nil_r. reflexivity.
  - simpl in H. apply andb_prop in H as [Hx Hl].
    unfold Set_add at 2. apply negb_true_iff in Hx. rewrite Hx.
    rewrite IH, <- app_assoc; [reflexivity|].
    change [stored_key x] with (map stored_key [x]).
    rewrite distinct_from_stored_key. exact Hl.
Qed.

Lemma Map_set_fresh entries k v :
  existsb (SameValueZero k) (map fst entries) = false ->
  Map_set entries k v = entries ++ [(stored_key k, v)].
Proof.
  induction entries as [|[k' v'] entries IH]; simpl; [reflexivity|].
  intro H. apply orb_false_iff in H as [Hk H]. rewrite Hk, (IH H). reflexivity.
Qed.

Lemma Map_of_distinct l :
  forall seen,
    distinct_from (map fst seen) (map fst l) = true ->
    fold_left (fun entries kv => Map_set entries (fst kv) (snd kv)) l seen
    = seen ++ map (fun kv => (stored_key (fst kv), snd kv)) l.
Proof.
  induction l as [|[k v] l IH]; intros seen H; simpl.
  - rewrite app_nil_r. reflexivity.
  - simpl in H. apply andb_prop in H as [Hk Hl].
    apply negb_true_iff in Hk. rewrite (Map_set_fresh _ _ _ Hk).
    rewrite IH, <- app_assoc; [reflexivity|].
    rewrite map_app. cbn [map fst].
    change [stored_key k] with (map stored_key [k]).
    rewrite distinct_from_stored_key. exact Hl.
Qed.

(** What is read back from text is stored as it is. *)
Lemma stored_key_read_back v : stored_key (read_back v) = read_back v.
Proof.
  destruct v; try reflexivity.
  - cbn [read_back]. unfold JSON_number.
    destruct (PrimFloat.classify n) eqn:Hn; cbn [JSON_value stored_key];
      rewrite ?Hn; reflexivity.
  - cbn [read_back]. destruct (isSimpleObject _); reflexivity.
  - cbn [read_back]. destruct (isSimpleObject _); reflexivity.
  - cbn [read_back]. destruct t; reflexivity.
Qed.

Lemma map_stored_key_read_back l :
  map stored_key (map read_back l) = map read_back l.
Proof.
  rewrite map_map. apply map_ext. intro v. apply stored_key_read_back.
Qed.

Lemma CreateDataProperty_fresh own key v :
  existsb (fun kv => propkey_eqb key (fst kv)) own = false ->
  CreateDataProperty own key v = own ++ [(key, v)].
Proof.
  induction own as [|[k x] own IH]; simpl; [reflexivity|].
  intro H. apply orb_false_iff in H as [Hk H]. rewrite Hk, (IH H). reflexivity.
Qed.

Lemma existsb_snoc {A : Type} (p : A -> bool) l x :
  existsb p (l ++ [x]) = existsb p l || p x.
Proof. rewrite existsb_app. simpl. rewrite orb_false_r. reflexivity. Qed.

Lemma text_of_has_text v :
  text_of v = None <-> has_text v = false.
Proof. destruct v; simpl; split; intro H; congruence. Qed.

(** The object [JSON.parse] builds from the text of a plain object whose
    keys are distinct: one property for each property that has a text, in
    order. *)
Lemma JSON_members_text (own : props) :
  forall acc,
    unique_string_keys own = true ->
    (forall k, In k (string_keys own) ->
               existsb (fun kv => propkey_eqb (KStr k) (fst kv)) acc = false) ->
    JSON_members JSON_value (text_members text_of own) acc
    = acc ++ map (fun kv => (fst kv, JSON_value (or_null (text_of (snd kv)))))
               (filter (fun kv => has_text (snd kv)) own).
Proof.
  induction own as [|[[k|s] x] own IH]; intros acc Hu Hacc;
    cbn [unique_string_keys text_members filter string_keys In snd] in *;
    [rewrite app_nil_r; reflexivity| |discriminate].
  apply andb_prop in Hu as [Hk Hu]. apply negb_true_iff in Hk.
  destruct (text_of x) as [j|] eqn:Hx.
  - assert (Hhas : has_text x = true).
    { destruct (has_text x) eqn:Hh; [reflexivity|].
      apply text_of_has_text in Hh. congruence. }
    rewrite Hhas. cbn [JSON_members map fst snd].
    rewrite CreateDataProperty_fresh by (apply Hacc; left; reflexivity).
    rewrite IH; [rewrite <- app_assoc, Hx; reflexivity|exact Hu|].
    intros k' Hk'. rewrite existsb_snoc, (Hacc k' (or_intror Hk')).
    cbn [fst propkey_eqb orb].
    destruct (String.eqb k' k) eqn:Heq; [|reflexivity].
    apply String.eqb_eq in Heq. subst k'.
    assert (Hex : existsb (String.eqb k) (string_keys own) = true).
    { apply existsb_exists. exists k. split; [exact Hk'|apply String.eqb_refl]. }
    congruence.
  - apply text_of_has_text in Hx. rewrite Hx.
    apply IH; [exact Hu|]. intros k' Hk'. apply Hacc. right. exact Hk'.
Qed.

Lemma InternalizeProperties_read_back rec (g h : value -> value) (own : props) :
  unique_string_keys own = true ->
  Forall (fun kv => rec (g (snd kv)) = Ok (h (snd kv))
                    /\ isUndefined (h (snd kv)) = false) own ->
  InternalizeProperties rec
    (map (fun kv => (fst kv, g (snd kv))) (filter (fun kv => has_text (snd kv)) own))
  = Ok (read_back_props h own).
Proof.
  intros Hu H. induction H as [|[[k|s] x] own [Hx Hd] _ IH]; simpl in *;
    [reflexivity| |discriminate].
  apply andb_prop in Hu as [_ Hu].
  destruct (has_text x); [|exact (IH Hu)].
  cbn [map InternalizeProperties fst snd].
  rewrite Hx. simpl. rewrite (IH Hu). simpl. rewrite Hd. reflexivity.
Qed.

Lemma mapM_map_ok {A B C : Type} (f : B -> outcome C) (g : A -> B) (h : A -> C) l :
  Forall (fun x => f (g x) = Ok (h x)) l -> mapM f (map g l) = Ok (map h l).
Proof.
  induction 1 as [|x l Hx _ IH]; simpl; [reflexivity|].
  rewrite Hx. simpl. rewrite IH. reflexivity.
Qed.

Lemma forallb_mapped {A B : Type} (p : B -> bool) (g : A -> B) l :
  forallb p (map g l) = forallb (fun x => p (g x)) l.
Proof. induction l as [|x l IH]; simpl; [|rewrite IH]; reflexivity. Qed.

Lemma isSimpleObject_array elems :
  isSimpleObject (VArray elems []) = forallb isSimpleObject elems.
Proof.
  simpl. destruct (forallb isSimpleObject elems); [reflexivity|].
  cbn [orb andb]. rewrite andb_false_r. reflexivity.
Qed.

Lemma read_number_faithful n :
  faithful_number n = true -> JSON_value (JSON_number n) = VNumber n.
Proof.
  unfold faithful_number, JSON_number.
  destruct (PrimFloat.classify n); intro H; try discriminate H; reflexivity.
Qed.

Lemma read_back_defined v : isUndefined (read_back v) = false.
Proof.
  destruct v; simpl; try reflexivity.
  - unfold JSON_number. destruct (PrimFloat.classify n); reflexivity.
  - destruct (_ || _); reflexivity.
  - destruct (_ || _); reflexivity.
  - destruct t; reflexivity.
Qed.

Lemma JSON_value_envelope tag payload :
  JSON_value (envelope tag payload)
  = VObject [(KStr "@dataType", VString tag);
             (KStr "@dataValue", JSON_value payload)].
Proof. reflexivity. Qed.

(** The decode of an envelope whose payload decodes to [payload']: the
    decoder of the tag is asked when [isSimpleObject] accepts [payload'],
    and the envelope record stays when it is not asked or returns
    [undefined]. *)
Lemma Internalize_envelope reg tag payloadV payload' decoder :
  InternalizeJSONProperty (reviver reg) payloadV = Ok payload' ->
  isUndefined payload' = false ->
  getUnpickler reg tag = Some decoder ->
  InternalizeJSONProperty (reviver reg)
    (VObject [(KStr "@dataType", VString tag); (KStr "@dataValue", payloadV)])
  = if isSimpleObject payload'
    then res <- decoder payload' ;;
         if negb (isUndefined res) then Ok res else Ok (MakeFlat tag payload')
    else Ok (MakeFlat tag payload').
Proof.
  intros Hpay Hdef Hdec.
  cbn [InternalizeJSONProperty InternalizeProperties].
  rewrite Hpay. cbn [bind]. rewrite Hdef.
  replace (reviver reg (VString tag)) with (@Ok value (VString tag)) by reflexivity.
  cbn [bind isUndefined].
  assert (Hflat : isFlattened (MakeFlat tag payload') = isSimpleObject payload').
  { unfold isFlattened, hasStrField, hasFieldType, hasField, Get, lookup.
    cbn. reflexivity. }
  fold (MakeFlat tag payload').
  destruct (isSimpleObject payload') eqn:Hsimple.
  - rewrite reviver_flattened by exact Hflat.
    cbn [MakeFlat GetFlat Get lookup own_props assoc propkey_eqb String.eqb
           Ascii.eqb Bool.eqb fst snd string_of].
    rewrite Hdec. reflexivity.
  - apply reviver_not_flattened. exact Hflat.
Qed.

Lemma existsb_SameValueZero_read_back x seen :
  (forall a b, exact_key a = true -> exact_key b = true ->
               SameValueZero (read_back a) (read_back b) = SameValueZero a b) ->
  exact_key x = true ->
  Forall (fun e => exact_key e = true) seen ->
  existsb (SameValueZero (read_back x)) (map read_back seen)
  = existsb (SameValueZero x) seen.
Proof.
  intros Hsvz Hx H. induction H as [|e seen He _ IH]; [reflexivity|].
  simpl. rewrite Hsvz, IH by assumption. reflexivity.
Qed.

Lemma SameValueZero_read_back a b :
  exact_key a = true -> exact_key b = true ->
  SameValueZero (read_back a) (read_back b) = SameValueZero a b.
Proof.
  destruct a; simpl exact_key; intro Ha; try discriminate Ha;
    destruct b; simpl exact_key; intro Hb; try discriminate Hb;
    cbn [read_back];
    rewrite ?(read_number_faithful _ Ha), ?(read_number_faithful _ Hb);
    repeat match goal with
           | |- context [if ?c then _ else _] => destruct c
           | |- context [match ?t with Some _ => _ | None => _ end] => destruct t
           end;
    reflexivity.
Qed.

Lemma distinct_read_back l :
  forall seen,
    Forall (fun e => exact_key e = true) seen ->
    Forall (fun e => exact_key e = true) l ->
    distinct_from (map read_back seen) (map read_back l) = distinct_from seen l.
Proof.
  induction l as [|x l IH]; intros seen Hseen Hl; [reflexivity|].
  inversion_clear Hl as [|? ? Hx Hl']. simpl.
  rewrite (existsb_SameValueZero_read_back x seen SameValueZero_read_back Hx Hseen).
  rewrite <- (IH (seen ++ [x])); [rewrite map_app; reflexivity| |exact Hl'].
  apply Forall_app. split; [exact Hseen|constructor; [exact Hx|constructor]].
Qed.

Section Decode.
Variable reg : registry.
Hypothesis Hreg : builtins_registered reg.

Let decoded (v : value) : Prop :=
  stable v = true ->
  InternalizeJSONProperty (reviver reg) (JSON_value (or_null (text_of v)))
  = Ok (read_back v).

Lemma elements_decoded elems :
  Forall decoded elems ->
  Forall (fun e => stable e = true) elems ->
  InternalizeJSONProperty (reviver reg)
    (JSON_value (JArray (map (fun e => or_null (text_of e)) elems)))
  = Ok (VArray (map read_back elems) []).
Proof.
  intros IH Hf. cbn [JSON_value InternalizeJSONProperty].
  rewrite map_map.
  rewrite (mapM_map_ok _ (fun e => JSON_value (or_null (text_of e))) read_back elems).
  - reflexivity.
  - rewrite Forall_forall in *. intros e He. apply IH; auto.
Qed.

Lemma decode_stable : forall v, decoded v.
Proof.
  destruct (registered_unpicklers reg Hreg) as (HM & HS & HY & HR & HD & HB).
  induction v using value_nested_ind; unfold decoded; intros Hf;
    simpl in Hf; try discriminate Hf; try reflexivity.
  - (* number *)
    simpl. unfold JSON_number. destruct (PrimFloat.classify n); reflexivity.
  - (* symbol *)
    destruct s as [key|id]; simpl in Hf; [|discriminate].
    cbn [text_of or_null]. rewrite JSON_value_envelope.
    rewrite (Internalize_envelope reg _ _ (VString key) SymbolUnpickle);
      auto.
  - (* BigInt *)
    cbn [text_of or_null]. rewrite JSON_value_envelope.
    rewrite (Internalize_envelope reg _ _ (VString (BigInt_toString z))
               BigIntUnpickle); auto.
    cbn [isSimpleObject isNull isString typeof String.eqb orb].
    replace (isSimpleObject (VString (BigInt_toString z))) with true by reflexivity.
    unfold BigIntUnpickle, BigInt_of_string.
    rewrite StringToBigInt_toString. reflexivity.
  - (* array *)
    apply andb_prop in Hf as [Hown Hf].
    destruct own; [|discriminate]. cbn [text_of or_null read_back].
    apply elements_decoded; auto.
    apply Forall_forall. rewrite forallb_forall in Hf. exact Hf.
  - (* plain object *)
    apply andb_prop in Hf as [Hf Hvals]. apply andb_prop in Hf as [Hf Hflat].
    apply andb_prop in Hf as [Hkeys _].
    cbn [text_of or_null read_back JSON_value InternalizeJSONProperty].
    rewrite (JSON_members_text own []) by (auto; intros; reflexivity).
    cbn [app].
    rewrite (InternalizeProperties_read_back _
               (fun x => JSON_value (or_null (text_of x))) read_back own).
    + cbn [bind]. apply reviver_not_flattened.
      apply negb_true_iff. exact Hflat.
    + exact Hkeys.
    + rewrite forallb_forall in Hvals. unfold Pprops in H.
      rewrite Forall_forall in *. intros kv Hkv. split.
      * apply H; auto.
      * apply read_back_defined.
  - (* Map *)
    apply andb_prop in Hf as [Hf Hdistinct]. apply andb_prop in Hf as [Hown Hf].
    destruct own; [|discriminate].
    cbn [text_of or_null read_back]. rewrite JSON_value_envelope.
    rewrite forallb_forall in Hf. unfold Pentries in H.
    rewrite Forall_forall in H.
    rewrite (Internalize_envelope reg _ _
               (VArray (map (fun kv => VArray [read_back (fst kv); read_back (snd kv)] [])
                          entries) [])
               MapUnpickle); auto.
    + destruct (isSimpleObject _); [|reflexivity].
      unfold MapUnpickle. cbn [isArrayOf].
      assert (H2 : forallb is2Tuple
                     (map (fun kv => VArray [read_back (fst kv); read_back (snd kv)] [])
                        entries) = true).
      { rewrite forallb_mapped. apply forallb_forall. intros; reflexivity. }
      rewrite H2, map_map. cbn [pair_of bind].
      unfold Map_of.
      rewrite (Map_of_distinct
                 (map (fun kv => (read_back (fst kv), read_back (snd kv))) entries) []).
      * rewrite map_map. cbn [fst snd app].
        rewrite (map_ext _ (fun kv => (read_back (fst kv), read_back (snd kv))));
          [reflexivity|].
        intro kv. rewrite stored_key_read_back. reflexivity.
      * rewrite map_map. cbn [fst map].
        rewrite <- (map_map fst read_back).
        change (distinct_from (map read_back []) (map read_back (map fst entries))
                = true).
        rewrite distinct_read_back; auto.
        apply Forall_map, Forall_forall. intros kv Hkv. specialize (Hf _ Hkv).
        apply andb_prop in Hf as [Hf _]. apply andb_prop in Hf. tauto.
    + cbn [JSON_value InternalizeJSONProperty].
      rewrite map_map.
      rewrite (mapM_map_ok _
                 (fun kv => JSON_value (JArray [or_null (text_of (fst kv));
                                                or_null (text_of (snd kv))]))
                 (fun kv => VArray [read_back (fst kv); read_back (snd kv)] [])
                 entries).
      * reflexivity.
      * apply Forall_forall. intros [k x] Hkx.
        specialize (H _ Hkx). specialize (Hf _ Hkx). cbn [fst snd] in *.
        apply andb_prop in Hf as [Hk Hx]. apply andb_prop in Hk as [_ Hk].
        destruct H as [IHk IHx].
        cbn [JSON_value InternalizeJSONProperty map mapM].
        rewrite (IHk Hk). cbn [bind]. rewrite (IHx Hx). reflexivity.
  - (* Set *)
    apply andb_prop in Hf as [Hf Hdistinct]. apply andb_prop in Hf as [Hown Hf].
    destruct own; [|discriminate].
    cbn [text_of or_null read_back]. rewrite JSON_value_envelope.
    rewrite forallb_forall in Hf.
    rewrite (Internalize_envelope reg _ _ (VArray (map read_back elems) [])
               SetUnpickle); auto.
    + destruct (isSimpleObject _); [|reflexivity].
      unfold SetUnpickle, Set_of.
      rewrite (Set_of_distinct (map read_back elems) []);
        [rewrite map_stored_key_read_back; reflexivity|].
      change (distinct_from (map read_back []) (map read_back elems) = true).
      rewrite distinct_read_back; auto.
      apply Forall_forall. intros e He. specialize (Hf e He).
      apply andb_prop in Hf. tauto.
    + apply elements_decoded; auto.
      apply Forall_forall. intros e He. specialize (Hf e He).
      apply andb_prop in Hf. tauto.
  - (* Date *)
    apply andb_prop in Hf as [Hown Hf].
    destruct own; [|discriminate]. destruct t as [ms|].
    + cbn [text_of or_null read_back]. rewrite JSON_value_envelope.
      rewrite (Internalize_envelope reg _ _ (VString (Date_toISOString ms))
                 DateUnpickle); auto.
      replace (isSimpleObject (VString (Date_toISOString ms))) with true
        by reflexivity.
      unfold DateUnpickle, new_Date. cbn [try_catch bind].
      rewrite Date_parse_toISOString; [reflexivity|].
      unfold in_time_range in Hf. apply andb_prop in Hf as [H1 H2].
      split; [apply Z.leb_le, H1|apply Z.leb_le, H2].
    + cbn [text_of or_null read_back]. rewrite JSON_value_envelope.
      rewrite (Internalize_envelope reg _ _ VNull DateUnpickle); auto.
  - (* RegExp *)
    apply andb_prop in Hf as [Hown Hf].
    destruct own; [|discriminate].
    cbn [text_of or_null read_back]. rewrite JSON_value_envelope.
    rewrite (Internalize_envelope reg _ _
               (VObject [(KStr "source", VString source);
                         (KStr "flags", VString flags)])
               RegexUnpickle); auto.
    replace (isSimpleObject (VObject [(KStr "source", VString source);
                                      (KStr "flags", VString flags)]))
      with true by reflexivity.
    unfold RegexUnpickle, new_RegExp. cbn.
    unfold real_RegExp in Hf.
    destruct (RegExp_new source flags) as [[s f]|]; [|discriminate].
    apply andb_prop in Hf as [H1 H2].
    apply String.eqb_eq in H1, H2. subst. reflexivity.
Qed.
End Decode.

(** ** Writing again what was read back *)

Lemma SerializeJSONArray_mapped rec (h : value -> value) (g : value -> json) elems :
  Forall (fun e => rec (h e) = Ok (Some (g e))) elems ->
  SerializeJSONArray rec (map h elems) = Ok (map g elems).
Proof.
  unfold SerializeJSONArray.
  induction 1 as [|e elems He _ IH]; simpl; [reflexivity|].
  rewrite He. simpl. rewrite IH. reflexivity.
Qed.

Lemma SerializeJSONObject_read_back rec own :
  Forall (fun kv => rec (read_back (snd kv)) = Ok (Some (or_null (text_of (snd kv)))))
    own ->
  SerializeJSONObject rec (read_back_props read_back own)
  = Ok (text_members text_of own).
Proof.
  induction 1 as [|[[k|s] x] own Hx _ IH];
    cbn [read_back_props text_members snd] in *; [reflexivity| |exact IH].
  destruct (text_of x) as [j|] eqn:Hj.
  - assert (Hhas : has_text x = true).
    { destruct (has_text x) eqn:Hh; [reflexivity|].
      apply text_of_has_text in Hh. congruence. }
    rewrite Hhas. cbn [SerializeJSONObject]. rewrite Hx. cbn [bind].
    rewrite IH. reflexivity.
  - apply text_of_has_text in Hj. rewrite Hj. exact IH.
Qed.

Lemma read_back_no_function v f : read_back v <> VFunction f.
Proof.
  destruct v; simpl; try discriminate.
  - unfold JSON_number. destruct (PrimFloat.classify n); discriminate.
  - destruct (_ || _); discriminate.
  - destruct (_ || _); discriminate.
  - destruct t; discriminate.
Qed.

Lemma assoc_read_back_props key own x :
  assoc key (read_back_props read_back own) = Some x -> exists v, x = read_back v.
Proof.
  induction own as [|[[k|s] y] own IH]; cbn [read_back_props]; [discriminate| |exact IH].
  destruct (has_text y); [|exact IH].
  cbn [assoc fst snd]. destruct (propkey_eqb key (KStr k)).
  - intro H. injection H as <-. exists y. reflexivity.
  - exact IH.
Qed.

Lemma no_toJSON_read_back own : no_toJSON (read_back_props read_back own) = true.
Proof.
  unfold no_toJSON.
  destruct (assoc (KStr "toJSON") (read_back_props read_back own)) as [x|] eqn:H;
    [|reflexivity].
  apply assoc_read_back_props in H as [v ->].
  destruct (read_back v) eqn:Hv; try reflexivity.
  exfalso. exact (read_back_no_function _ _ Hv).
Qed.

Lemma string_keys_read_back k own :
  In k (string_keys (read_back_props read_back own)) -> In k (string_keys own).
Proof.
  induction own as [|[[k'|s] y] own IH]; cbn [read_back_props]; [auto| |exact IH].
  destruct (has_text y).
  - change (k' = k \/ In k (string_keys (read_back_props read_back own)) ->
            k' = k \/ In k (string_keys own)).
    tauto.
  - change (In k (string_keys (read_back_props read_back own)) ->
            k' = k \/ In k (string_keys own)).
    tauto.
Qed.

Lemma unique_string_keys_read_back own :
  unique_string_keys own = true ->
  unique_string_keys (read_back_props read_back own) = true.
Proof.
  induction own as [|[[k|s] y] own IH]; cbn [read_back_props unique_string_keys];
    [auto| |discriminate].
  intro H. apply andb_prop in H as [Hk Hu].
  destruct (has_text y); [|exact (IH Hu)].
  cbn [unique_string_keys]. rewrite (IH Hu), andb_true_r.
  apply negb_true_iff in Hk. apply negb_true_iff.
  destruct (existsb (String.eqb k) (string_keys (read_back_props read_back own)))
    eqn:He; [|reflexivity].
  apply existsb_exists in He as (k' & Hin & Heq).
  assert (Hex : existsb (String.eqb k) (string_keys own) = true).
  { apply existsb_exists. exists k'. split; [|exact Heq].
    apply string_keys_read_back. exact Hin. }
  congruence.
Qed.

Lemma envelope_members tag payload :
  JObject [("@dataType", JString tag); ("@dataValue", payload)] = envelope tag payload.
Proof. reflexivity. Qed.

Section Reencode.
Variable reg : registry.
Hypothesis Hreg : builtins_registered reg.

Let reencoded (v : value) : Prop :=
  stable v = true ->
  forall fuel, need v <= fuel ->
    SerializeJSONProperty (replacer reg) fuel (read_back v)
    = Ok (Some (or_null (text_of v))).

Lemma elements_reencoded elems fuel :
  Forall reencoded elems ->
  Forall (fun e => stable e = true) elems ->
  list_max (map need elems) <= fuel ->
  SerializeJSONArray (SerializeJSONProperty (replacer reg) fuel) (map read_back elems)
  = Ok (map (fun e => or_null (text_of e)) elems).
Proof.
  intros IH Hf Hn. apply SerializeJSONArray_mapped.
  apply list_max_bound in Hn.
  rewrite Forall_forall in *. intros e He. apply IH; auto.
Qed.

Lemma reencode_stable : forall v, reencoded v.
Proof.
  induction v using value_nested_ind; unfold reencoded; intros Hf fuel Hfuel;
    try (destruct fuel; [inversion Hfuel|reflexivity]).
  - (* number *)
    destruct fuel; [inversion Hfuel|].
    cbn [read_back text_of or_null]. unfold JSON_number.
    destruct (PrimFloat.classify n) eqn:Hn; cbn [JSON_value]; try reflexivity;
      rewrite SerializeJSONProperty_step; cbn; unfold JSON_number; rewrite Hn;
      reflexivity.
  - (* symbol *)
    exact (encode_stable reg Hreg (VSymbol s) Hf fuel Hfuel).
  - (* BigInt *)
    exact (encode_stable reg Hreg (VBigInt z) Hf fuel Hfuel).
  - (* array *)
    simpl in Hf. apply andb_prop in Hf as [Hown Hf].
    destruct fuel as [|fuel]; simpl in Hfuel; [lia|].
    cbn [read_back text_of or_null].
    rewrite SerializeJSONProperty_array by reflexivity.
    rewrite elements_reencoded; auto; [|lia].
    apply Forall_forall. rewrite forallb_forall in Hf. exact Hf.
  - (* plain object *)
    simpl in Hf.
    apply andb_prop in Hf as [Hf Hvals]. apply andb_prop in Hf as [Hf _].
    apply andb_prop in Hf as [Hkeys _].
    destruct fuel as [|fuel]; simpl in Hfuel; [lia|].
    cbn [read_back text_of or_null].
    rewrite SerializeJSONProperty_object;
      [|apply getPickler_string_keys, unique_string_keys_read_back; exact Hkeys
       |apply apply_toJSON_no_toJSON, no_toJSON_read_back].
    rewrite SerializeJSONObject_read_back; [reflexivity|].
    apply le_S_n in Hfuel. apply list_max_bound in Hfuel.
    rewrite forallb_forall in Hvals. unfold Pprops in H.
    rewrite Forall_forall in *. intros kv Hkv. apply H; auto.
  - (* Map *)
    simpl in Hf.
    apply andb_prop in Hf as [Hf _]. apply andb_prop in Hf as [Hown Hf].
    destruct fuel as [|[|[|fuel]]]; simpl in Hfuel; try lia.
    assert (Hn : list_max (map (fun kv => Nat.max (need (fst kv)) (need (snd kv)))
                             entries) <= fuel) by lia.
    apply list_max_bound in Hn. rewrite forallb_forall in Hf.
    unfold Pentries in H. rewrite Forall_forall in *.
    assert (Hitems :
              mapM (fun kv =>
                      a <- SerializeJSONProperty (replacer reg) fuel (read_back (fst kv)) ;;
                      b <- SerializeJSONProperty (replacer reg) fuel (read_back (snd kv)) ;;
                      Ok (JArray [or_null a; or_null b])) entries
              = Ok (map (fun kv => JArray [or_null (text_of (fst kv));
                                           or_null (text_of (snd kv))]) entries)).
    { apply mapM_ok. apply Forall_forall.
      intros [k x] Hkx. specialize (H _ Hkx). specialize (Hn _ Hkx).
      specialize (Hf _ Hkx). cbn [fst snd] in *.
      apply andb_prop in Hf as [Hk Hx]. apply andb_prop in Hk as [_ Hk].
      destruct H as [IHk IHx].
      rewrite (IHk Hk fuel) by lia. cbn [bind].
      rewrite (IHx Hx fuel) by lia. reflexivity. }
    cbn [read_back text_of or_null].
    destruct (isSimpleObject _).
    + rewrite SerializeJSONProperty_Map by exact Hreg.
      rewrite (mapM_map_ok _
                 (fun kv => (read_back (fst kv), read_back (snd kv)))
                 (fun kv => JArray [or_null (text_of (fst kv));
                                    or_null (text_of (snd kv))]));
        [reflexivity|].
      apply Forall_forall. intros [k x] Hkx.
      specialize (H _ Hkx). specialize (Hn _ Hkx).
      specialize (Hf _ Hkx). cbn [fst snd] in *.
      apply andb_prop in Hf as [Hk Hx]. apply andb_prop in Hk as [_ Hk].
      destruct H as [IHk IHx].
      rewrite (IHk Hk fuel) by lia. cbn [bind].
      rewrite (IHx Hx fuel) by lia. reflexivity.
    + rewrite SerializeJSONProperty_MakeFlat.
      rewrite (SerializeJSONProperty_pairs reg fuel
                 (fun kv => read_back (fst kv)) (fun kv => read_back (snd kv))).
      rewrite Hitems. reflexivity.
  - (* Set *)
    simpl in Hf.
    apply andb_prop in Hf as [Hf _]. apply andb_prop in Hf as [Hown Hf].
    destruct fuel as [|[|fuel]]; simpl in Hfuel; try lia.
    assert (Hitems :
              SerializeJSONArray (SerializeJSONProperty (replacer reg) fuel)
                (map read_back elems)
              = Ok (map (fun e => or_null (text_of e)) elems)).
    { apply elements_reencoded; auto; [|lia].
      apply Forall_forall. rewrite forallb_forall in Hf.
      intros e He. specialize (Hf e He). apply andb_prop in Hf. tauto. }
    cbn [read_back text_of or_null].
    destruct (isSimpleObject _).
    + rewrite SerializeJSONProperty_Set by exact Hreg. rewrite Hitems. reflexivity.
    + rewrite SerializeJSONProperty_MakeFlat.
      rewrite SerializeJSONProperty_array by reflexivity.
      rewrite Hitems. reflexivity.
  - (* Date *)
    simpl in Hf. apply andb_prop in Hf as [Hown Hf].
    destruct t as [ms|].
    + exact (encode_stable reg Hreg (VDate (Some ms) []) Hf fuel Hfuel).
    + destruct fuel as [|[|fuel]]; simpl in Hfuel; try lia.
      cbn [read_back text_of or_null].
      rewrite SerializeJSONProperty_MakeFlat. reflexivity.
  - (* RegExp *)
    simpl in Hf. apply andb_prop in Hf as [Hown Hf].
    exact (encode_stable reg Hreg (VRegExp source flags []) Hf fuel Hfuel).
Qed.
End Reencode.

(** ** The faithful values among the stable ones *)

Lemma faithful_has_text v : faithful v = true -> has_text v = true.
Proof. destruct v; simpl; try discriminate; reflexivity. Qed.

Lemma faithful_exact_key v : faithful v = true -> exact_key v = true.
Proof. destruct v; simpl; try discriminate; auto. Qed.

Lemma map_unchanged {A : Type} (f : A -> A) l :
  Forall (fun x => f x = x) l -> map f l = l.
Proof. induction 1 as [|x l Hx _ IH]; simpl; congruence. Qed.

Lemma read_back_props_unchanged own :
  unique_string_keys own = true ->
  Forall (fun kv => has_text (snd kv) = true /\ read_back (snd kv) = snd kv) own ->
  read_back_props read_back own = own.
Proof.
  intros Hu H. induction H as [|[[k|s] x] own [Hx Hr] _ IH];
    cbn [read_back_props unique_string_keys snd] in *; [reflexivity| |discriminate].
  apply andb_prop in Hu as [_ Hu]. rewrite Hx, Hr, (IH Hu). reflexivity.
Qed.

Lemma faithful_read_back : forall v, faithful v = true -> read_back v = v.
Proof.
  induction v using value_nested_ind; intros Hf; simpl in Hf;
    try discriminate Hf; try reflexivity.
  - (* number *)
    apply read_number_faithful. exact Hf.
  - (* array *)
    apply andb_prop in Hf as [Hown Hf]. destruct own; [|discriminate].
    cbn [read_back]. rewrite map_unchanged; [reflexivity|].
    rewrite forallb_forall in Hf. rewrite Forall_forall in *. auto.
  - (* plain object *)
    apply andb_prop in Hf as [Hf Hvals]. apply andb_prop in Hf as [Hkeys _].
    cbn [read_back]. rewrite read_back_props_unchanged; [reflexivity|exact Hkeys|].
    rewrite forallb_forall in Hvals. unfold Pprops in H.
    rewrite Forall_forall in *. intros kv Hkv. split.
    + apply faithful_has_text. auto.
    + auto.
  - (* Map *)
    apply andb_prop in Hf as [Hf _]. apply andb_prop in Hf as [Hown Hf].
    destruct own; [|discriminate].
    rewrite forallb_forall in Hf. unfold Pentries in H. rewrite Forall_forall in H.
    assert (Hall : forall kv, In kv entries ->
                     read_back (fst kv) = fst kv /\ read_back (snd kv) = snd kv
                     /\ isSimpleObject (fst kv) = true
                     /\ isSimpleObject (snd kv) = true).
    { intros kv Hkv. specialize (H _ Hkv). specialize (Hf _ Hkv).
      apply andb_prop in Hf as [Hk Hx].
      apply andb_prop in Hk as [Hk Hks]. apply andb_prop in Hx as [Hx Hxs].
      destruct H as [IHk IHx]. auto. }
    assert (E1 : map (fun kv => VArray [read_back (fst kv); read_back (snd kv)] [])
                   entries
                 = map (fun kv => VArray [fst kv; snd kv] []) entries).
    { apply map_ext_in. intros kv Hkv.
      destruct (Hall kv Hkv) as (-> & -> & _). reflexivity. }
    assert (E2 : map (fun kv => (read_back (fst kv), read_back (snd kv))) entries
                 = entries).
    { apply map_unchanged, Forall_forall. intros [k x] Hkv.
      destruct (Hall _ Hkv) as (Hk & Hx & _). cbn [fst snd] in *.
      rewrite Hk, Hx. reflexivity. }
    assert (E3 : isSimpleObject
                   (VArray (map (fun kv => VArray [fst kv; snd kv] []) entries) [])
                 = true).
    { rewrite isSimpleObject_array, forallb_mapped. apply forallb_forall.
      intros kv Hkv. destruct (Hall _ Hkv) as (_ & _ & Hk & Hx).
      rewrite isSimpleObject_array. cbn [forallb]. rewrite Hk, Hx. reflexivity. }
    cbn [read_back]. rewrite E1, E2, E3. reflexivity.
  - (* Set *)
    apply andb_prop in Hf as [Hf _]. apply andb_prop in Hf as [Hown Hf].
    destruct own; [|discriminate].
    rewrite forallb_forall in Hf. rewrite Forall_forall in H.
    assert (E1 : map read_back elems = elems).
    { apply map_unchanged, Forall_forall. intros e He. specialize (Hf e He).
      apply andb_prop in Hf as [Hf _]. auto. }
    assert (E2 : isSimpleObject (VArray elems []) = true).
    { rewrite isSimpleObject_array. apply forallb_forall. intros e He.
      specialize (Hf e He). apply andb_prop in Hf. tauto. }
    cbn [read_back]. rewrite E1, E2. reflexivity.
  - (* Date *)
    apply andb_prop in Hf as [Hown Hf]. destruct own; [|discriminate].
    destruct t; [reflexivity|discriminate].
  - (* RegExp *)
    apply andb_prop in Hf as [Hown Hf]. destruct own; [|discriminate].
    reflexivity.
Qed.

Lemma assoc_In key (own : props) x :
  assoc key own = Some x -> exists k, In (k, x) own.
Proof.
  induction own as [|[k y] own IH]; cbn [assoc fst snd]; [discriminate|].
  destruct (propkey_eqb key k).
  - intro H. injection H as <-. exists k. left. reflexivity.
  - intro H. destruct (IH H) as [k' Hk']. exists k'. right. exact Hk'.
Qed.

Lemma no_toJSON_faithful own :
  forallb (fun kv => faithful (snd kv)) own = true -> no_toJSON own = true.
Proof.
  intro H. unfold no_toJSON.
  destruct (assoc (KStr "toJSON") own) as [x|] eqn:Hx; [|reflexivity].
  apply assoc_In in Hx as [k Hk]. rewrite forallb_forall in H.
  specialize (H _ Hk). destruct x; try reflexivity. discriminate H.
Qed.

Lemma faithful_is_stable : forall v, faithful v = true -> stable v = true.
Proof.
  induction v using value_nested_ind; intros Hf;
    try (simpl in Hf; discriminate Hf); try reflexivity.
  - (* symbol *)
    exact Hf.
  - (* array *)
    simpl in Hf. apply andb_prop in Hf as [Hown Hf].
    cbn [stable]. rewrite Hown. cbn [andb].
    rewrite forallb_forall in *. rewrite Forall_forall in H. auto.
  - (* plain object *)
    pose proof (faithful_read_back _ Hf) as Hback. cbn [read_back] in Hback.
    injection Hback as Hback.
    simpl in Hf. apply andb_prop in Hf as [Hf Hvals]. apply andb_prop in Hf as [Hkeys Hflat].
    cbn [stable]. rewrite Hback, Hkeys, Hflat, (no_toJSON_faithful _ Hvals).
    cbn [andb].
    rewrite forallb_forall in *. unfold Pprops in H. rewrite Forall_forall in H. auto.
  - (* Map *)
    simpl in Hf.
    apply andb_prop in Hf as [Hf Hdistinct]. apply andb_prop in Hf as [Hown Hf].
    cbn [stable]. rewrite Hown, Hdistinct, andb_true_r. cbn [andb].
    rewrite forallb_forall in *. unfold Pentries in H. rewrite Forall_forall in H.
    intros kv Hkv. specialize (H _ Hkv). specialize (Hf _ Hkv).
    apply andb_prop in Hf as [Hk Hx].
    apply andb_prop in Hk as [Hk _]. apply andb_prop in Hx as [Hx _].
    destruct H as [IHk IHx].
    rewrite (faithful_exact_key _ Hk), (IHk Hk), (IHx Hx). reflexivity.
  - (* Set *)
    simpl in Hf.
    apply andb_prop in Hf as [Hf Hdistinct]. apply andb_prop in Hf as [Hown Hf].
    cbn [stable]. rewrite Hown, Hdistinct, andb_true_r. cbn [andb].
    rewrite forallb_forall in *. rewrite Forall_forall in H.
    intros e He. specialize (Hf e He). apply andb_prop in Hf as [Hf _].
    rewrite (faithful_exact_key _ Hf), (H e He Hf). reflexivity.
  - (* Date *)
    simpl in Hf. apply andb_prop in Hf as [Hown Hf].
    cbn [stable]. rewrite Hown. destruct t; [exact Hf|discriminate].
  - (* RegExp *)
    exact Hf.
Qed.

(** ** The three passes together *)

(** For a stable value that has a text: [Pickle] writes [text_of], [Unpickle]
    makes [read_back] of it, and [Pickle] writes the same text for that. *)
Lemma stable_passes reg v fuel :
  builtins_registered reg ->
  stable v = true ->
  has_text v = true ->
  need v <= fuel ->
  exists text,
    text_of v = Some text
    /\ Pickle reg fuel v = Ok (Some text)
    /\ Unpickle reg text = Ok (read_back v)
    /\ Pickle reg fuel (read_back v) = Ok (Some text).
Proof.
  intros Hreg Hs Ht Hfuel.
  destruct (text_of v) as [text|] eqn:Htext.
  - exists text. split; [reflexivity|].
    pose proof (encode_stable reg Hreg v Hs fuel Hfuel) as He.
    pose proof (decode_stable reg Hreg v Hs) as Hd.
    pose proof (reencode_stable reg Hreg v Hs fuel Hfuel) as Hr.
    rewrite Htext in He, Hd, Hr. auto.
  - apply text_of_has_text in Htext. congruence.
Qed.

(** ** C1 *)

(** C1 (amended). With the built-in encoders and decoders registered,
    every faithful value (in particular every faithful Map, Set, Date,
    RegExp and BigInt) is given back by [Unpickle] from the text [Pickle]
    writes for it, once the fuel covers the depth of the value. *)
Theorem Unpickle_Pickle_faithful :
  forall (reg : registry) (v : value) (fuel : nat),
    builtins_registered reg ->
    faithful v = true ->
    need v <= fuel ->
    round_trips reg fuel v.
Proof.
  intros reg v fuel Hreg Hf Hfuel.
  destruct (stable_passes reg v fuel Hreg (faithful_is_stable v Hf)
              (faithful_has_text v Hf) Hfuel) as (text & _ & Hp & Hu & _).
  rewrite (faithful_read_back v Hf) in Hu.
  exists text. auto.
Qed.

(** ** C8 *)

(** C8 (amended). [SafelyUnpickle] decodes, then asks the predicate about
    the root: it returns the decoded value, as the predicate leaves it,
    when the predicate accepts it, and [undefined], without throwing, when
    the predicate rejects it.  On the text [Pickle] wrote for a faithful
    value [v], the predicate is asked about [v] itself: [SafelyUnpickle]
    returns [v] (as the predicate leaves it) under a predicate that accepts
    [v], and [undefined] under one that rejects [v]. *)
Theorem SafelyUnpickle_checks_the_root :
  forall reg : registry,
    (forall text check v answer v',
        Unpickle reg text = Ok v ->
        check v = Ok (answer, v') ->
        SafelyUnpickle reg text check = Ok (if answer then v' else VUndefined))
    /\ (forall v fuel check answer v',
           builtins_registered reg ->
           faithful v = true ->
           need v <= fuel ->
           check v = Ok (answer, v') ->
           exists text,
             Pickle reg fuel v = Ok (Some text)
             /\ SafelyUnpickle reg text check
                = Ok (if answer then v' else VUndefined))
    /\ (forall v fuel (p : typecheck),
           builtins_registered reg ->
           faithful v = true ->
           need v <= fuel ->
           exists text,
             Pickle reg fuel v = Ok (Some text)
             /\ SafelyUnpickle reg text (looking p)
                = Ok (if p v then v else VUndefined)).
Proof.
  intro reg.
  assert (Hgen : forall text check v answer v',
             Unpickle reg text = Ok v ->
             check v = Ok (answer, v') ->
             SafelyUnpickle reg text check
             = Ok (if answer then v' else VUndefined)).
  { intros text check v answer v' H Hc. unfold SafelyUnpickle, UnsafelyUnpickle.
    rewrite H. cbn [bind]. rewrite Hc. reflexivity. }
  assert (Htext : forall v fuel check answer v',
             builtins_registered reg ->
             faithful v = true ->
             need v <= fuel ->
             check v = Ok (answer, v') ->
             exists text,
               Pickle reg fuel v = Ok (Some text)
               /\ SafelyUnpickle reg text check
                  = Ok (if answer then v' else VUndefined)).
  { intros v fuel check answer v' Hreg Hf Hfuel Hc.
    destruct (stable_passes reg v fuel Hreg (faithful_is_stable v Hf)
                (faithful_has_text v Hf) Hfuel) as (text & _ & Hp & Hu & _).
    rewrite (faithful_read_back v Hf) in Hu.
    exists text. split; [exact Hp|]. apply (Hgen text check v); assumption. }
  split; [exact Hgen|]. split; [exact Htext|].
  intros v fuel p Hreg Hf Hfuel.
  apply (Htext v fuel (looking p) (p v) v Hreg Hf Hfuel). reflexivity.
Qed.

(** ** Canonical texts *)

Lemma depth_positive t : 1 <= depth t.
Proof. destruct t; cbn [depth]; lia. Qed.

Lemma depth_envelope tag payload :
  depth (envelope tag payload) = S (depth payload).
Proof.
  unfold envelope, envelope_json. cbn [depth map snd].
  unfold list_max. cbn [fold_right].
  pose proof (depth_positive payload). lia.
Qed.

Lemma mapM_inversion {A B : Type} (f : A -> outcome B) l :
  forall r, mapM f l = Ok r -> Forall2 (fun x y => f x = Ok y) l r.
Proof.
  induction l as [|x l IH]; cbn [mapM]; intros r H.
  - injection H as <-. constructor.
  - destruct (f x) as [y| |] eqn:Hx; try discriminate H. cbn [bind] in H.
    destruct (mapM f l) as [ys| |]; try discriminate H. cbn [bind] in H.
    injection H as <-. constructor; auto.
Qed.

(** What is written needs no more fuel than the depth of its text. *)
Lemma SerializeJSONProperty_depth (R : value -> value -> outcome value) :
  forall fuel v t,
    SerializeJSONProperty R fuel v = Ok (Some t) -> depth t <= fuel.
Proof.
  induction fuel as [|fuel IH]; intros v t H; [discriminate H|].
  rewrite SerializeJSONProperty_step in H.
  destruct (R v (apply_toJSON v)) as [replaced| |]; try discriminate H.
  cbn [bind] in H.
  assert (Hitems : forall elems items,
             SerializeJSONArray (SerializeJSONProperty R fuel) elems = Ok items ->
             list_max (map depth items) <= fuel).
  { unfold SerializeJSONArray. intros elems items Hi.
    apply mapM_inversion in Hi. apply list_max_le, Forall_map.
    induction Hi as [|e j elems items He _ IHl]; constructor; [|exact IHl].
    destruct (SerializeJSONProperty R fuel e) as [[j'|]| |] eqn:Hj;
      try discriminate He; cbn [bind or_null] in He; injection He as <-.
    - exact (IH _ _ Hj).
    - destruct fuel; [discriminate Hj|]. cbn [depth]. lia. }
  assert (Hmembers : forall own ms,
             SerializeJSONObject (SerializeJSONProperty R fuel) own = Ok ms ->
             list_max (map (fun m => depth (snd m)) ms) <= fuel).
  { induction own as [|[[k|s] x] own IHown]; cbn [SerializeJSONObject];
      intros ms Hm.
    - injection Hm as <-. cbn. lia.
    - destruct (SerializeJSONProperty R fuel x) as [r| |] eqn:Hx;
        try discriminate Hm. cbn [bind] in Hm.
      destruct (SerializeJSONObject _ own) as [rest| |]; try discriminate Hm.
      cbn [bind] in Hm. injection Hm as <-.
      specialize (IHown rest eq_refl).
      destruct r as [j|]; [|exact IHown].
      cbn [map list_max snd]. apply Nat.max_lub; [exact (IH _ _ Hx)|exact IHown].
    - exact (IHown ms Hm). }
  destruct replaced; cbn [SerializeJSONValue] in H; try discriminate H;
    try (injection H as <-; cbn [depth]; lia);
    try (destruct (SerializeJSONObject _ own) as [ms| |] eqn:Hm;
         try discriminate H; cbn [bind] in H; injection H as <-;
         cbn [depth]; apply le_n_S; exact (Hmembers _ _ Hm)).
  - injection H as <-. unfold JSON_number.
    destruct (PrimFloat.classify n); cbn [depth]; lia.
  - destruct (SerializeJSONArray _ elems) as [items| |] eqn:Hi;
      try discriminate H. cbn [bind] in H. injection H as <-.
    cbn [depth]. apply le_n_S. exact (Hitems _ _ Hi).
Qed.

Lemma SerializeJSONArray_written rec items elems :
  Forall2 (fun t v => rec v = Ok (Some t)) items elems ->
  SerializeJSONArray rec elems = Ok items.
Proof.
  unfold SerializeJSONArray.
  induction 1 as [|t v items elems Hv _ IH]; cbn [mapM]; [reflexivity|].
  rewrite Hv. cbn [bind or_null]. rewrite IH. reflexivity.
Qed.

Lemma SerializeJSONObject_written rec members own :
  Forall2 (fun m kv => fst kv = KStr (fst m) /\ rec (snd kv) = Ok (Some (snd m)))
    members own ->
  SerializeJSONObject rec own = Ok members.
Proof.
  induction 1 as [|[k t] [key v] members own [Hk Hv] _ IH];
    cbn [SerializeJSONObject]; [reflexivity|].
  cbn [fst snd] in Hk, Hv. subst key. rewrite Hv. cbn [bind]. rewrite IH.
  reflexivity.
Qed.

Section Canonical.
Variable reg : registry.

Lemma written_as_array items elems :
  Forall2 (fun t v => written_as reg v t) items elems ->
  written_as reg (VArray elems []) (JArray items).
Proof.
  intros H fuel Hfuel. cbn [depth] in Hfuel.
  destruct fuel as [|fuel]; [lia|]. apply le_S_n in Hfuel.
  rewrite SerializeJSONProperty_array by reflexivity.
  rewrite (SerializeJSONArray_written _ items); [reflexivity|].
  apply list_max_le in Hfuel. rewrite Forall_map in Hfuel.
  induction H as [|t v items elems Hv _ IH]; constructor.
  - apply Hv. inversion_clear Hfuel. assumption.
  - apply IH. inversion_clear Hfuel. assumption.
Qed.

Lemma written_as_envelope v sym toFlat tag data payload :
  getPickler reg v = Some (sym, toFlat) ->
  truthy_key (Symbol_keyFor sym) = Some tag ->
  toFlat v = Ok data ->
  written_as reg data payload ->
  written_as reg v (envelope tag payload).
Proof.
  intros Hp Hk Hd Hw fuel Hfuel.
  rewrite depth_envelope in Hfuel.
  pose proof (depth_positive payload) as Hpos.
  destruct fuel as [|[|fuel]]; try lia.
  rewrite (SerializeJSONProperty_envelope reg fuel v sym toFlat tag data Hp Hk Hd).
  rewrite Hw by lia. reflexivity.
Qed.

Lemma written_as_stored_key v t :
  written_as reg v t -> written_as reg (stored_key v) t.
Proof.
  intro H. destruct v; try exact H. unfold stored_key.
  destruct (PrimFloat.classify n) eqn:Hn; try exact H.
  intros fuel Hfuel. specialize (H fuel Hfuel).
  destruct fuel as [|fuel]; [discriminate H|].
  cbn in H. cbn. unfold JSON_number in *. rewrite Hn in H. exact H.
Qed.

Lemma written_as_function ret t : ~ written_as reg (VFunction ret) t.
Proof.
  intro H. specialize (H (depth t) (le_n _)).
  pose proof (depth_positive t) as Hpos.
  destruct (depth t); [lia|]. discriminate H.
Qed.

Lemma reviver_bare_array elems : reviver reg (VArray elems []) = Ok (VArray elems []).
Proof. reflexivity. Qed.

Lemma JSON_members_distinct members :
  forall acc,
    NoDup (map fst members) ->
    (forall k, In k (map fst members) ->
               existsb (fun kv => propkey_eqb (KStr k) (fst kv)) acc = false) ->
    JSON_members JSON_value members acc
    = acc ++ map (fun m => (KStr (fst m), JSON_value (snd m))) members.
Proof.
  induction members as [|[k t] members IH]; intros acc Hnd Hacc;
    cbn [JSON_members map fst snd].
  - rewrite app_nil_r. reflexivity.
  - inversion_clear Hnd as [|? ? Hk Hrest].
    rewrite CreateDataProperty_fresh by (apply Hacc; left; reflexivity).
    rewrite IH; [rewrite <- app_assoc; reflexivity|exact Hrest|].
    intros k' Hk'. rewrite existsb_snoc.
    rewrite (Hacc k') by (right; exact Hk').
    cbn [fst propkey_eqb orb].
    destruct (String.eqb k' k) eqn:E; [|reflexivity].
    apply String.eqb_eq in E. subst. contradiction.
Qed.

Lemma members_string_keys members own :
  Forall2 (fun (m : string * json) (kv : propkey * value) => fst kv = KStr (fst m))
    members own ->
  string_keys own = map fst members
  /\ (forall s, assoc (KSym s) own = None).
Proof.
  induction 1 as [|[k t] [key v] members own Hk _ [IH1 IH2]].
  - split; reflexivity.
  - cbn [fst] in Hk. subst key. split.
    + change (string_keys ((KStr k, v) :: own)) with (k :: string_keys own).
      rewrite IH1. reflexivity.
    + intro s. cbn [assoc propkey_eqb]. apply IH2.
Qed.

Hypothesis Hreg : builtins_registered reg.

Let reads (t : json) (v : value) : Prop :=
  InternalizeJSONProperty (reviver reg) (JSON_value t) = Ok v
  /\ isUndefined v = false
  /\ written_as reg v t.

Let reads_items (items : list json) (elems : list value) : Prop :=
  mapM (InternalizeJSONProperty (reviver reg)) (map JSON_value items) = Ok elems
  /\ Forall2 (fun t v => written_as reg v t) items elems.

Let reads_members (members : list (string * json)) (own : props) : Prop :=
  InternalizeProperties (InternalizeJSONProperty (reviver reg))
    (map (fun m => (KStr (fst m), JSON_value (snd m))) members) = Ok own
  /\ Forall2 (fun m kv => fst kv = KStr (fst m) /\ written_as reg (snd kv) (snd m))
       members own.

Let reads_pairs (pairs : list json) (entries : list (value * value)) : Prop :=
  mapM (InternalizeJSONProperty (reviver reg)) (map JSON_value pairs)
  = Ok (map (fun kv => VArray [fst kv; snd kv] []) entries)
  /\ Forall2 (fun t kv =>
                exists tk tv,
                  t = JArray [tk; tv]
                  /\ written_as reg (fst kv) tk /\ written_as reg (snd kv) tv)
       pairs entries.

Lemma written_as_leaf v t :
  (forall fuel, SerializeJSONProperty (replacer reg) (S fuel) v = Ok (Some t)) ->
  written_as reg v t.
Proof.
  intros H fuel Hfuel. pose proof (depth_positive t).
  destruct fuel; [lia|]. apply H.
Qed.

Lemma canonical_reads :
  (forall t v, canonical reg t v -> reads t v)
  /\ (forall items elems, canonical_items reg items elems -> reads_items items elems)
  /\ (forall members own,
         canonical_members reg members own -> reads_members members own)
  /\ (forall pairs entries,
         canonical_pairs reg pairs entries -> reads_pairs pairs entries).
Proof.
  destruct (registered_unpicklers reg Hreg) as (HM & HS & HY & HR & HD & HB).
  apply canonical_mutual_ind; unfold reads, reads_items, reads_members, reads_pairs.
  - (* null *)
    repeat split. apply written_as_leaf. reflexivity.
  - intro b. repeat split. apply written_as_leaf. reflexivity.
  - intros n Hn. repeat split. apply written_as_leaf. intro fuel.
    cbn. unfold JSON_number. unfold faithful_number in Hn.
    destruct (PrimFloat.classify n); try discriminate Hn; reflexivity.
  - intro s. repeat split. apply written_as_leaf. reflexivity.
  - (* array *)
    intros items elems _ [Hread Hwritten]. repeat split.
    + cbn [JSON_value InternalizeJSONProperty]. rewrite Hread. reflexivity.
    + apply written_as_array. exact Hwritten.
  - (* object *)
    intros members own _ [Hread Hwritten] Hnd Halone.
    assert (Hkeys : Forall2 (fun (m : string * json) (kv : propkey * value) =>
                               fst kv = KStr (fst m)) members own).
    { clear -Hwritten. induction Hwritten as [|m kv ms own [Hk _] _ IH];
        constructor; assumption. }
    destruct (members_string_keys _ _ Hkeys) as [Hstr Hsym].
    repeat split.
    + cbn [JSON_value InternalizeJSONProperty].
      rewrite (JSON_members_distinct members []) by (auto; intros; reflexivity).
      cbn [app]. rewrite Hread. cbn [bind].
      apply reviver_unknown. exact Halone.
    + intros fuel Hfuel. cbn [depth] in Hfuel.
      destruct fuel as [|fuel]; [lia|]. apply le_S_n in Hfuel.
      assert (HtoJSON : apply_toJSON (VObject own) = VObject own).
      { unfold apply_toJSON, Get, lookup. cbn [own_props inherited].
        destruct (assoc (KStr "toJSON") own) as [x|] eqn:Hx; [|reflexivity].
        destruct x; try reflexivity. exfalso.
        clear -Hwritten Hx.
        induction Hwritten as [|[k t] [key v] ms own [Hk Hv] _ IH];
          [discriminate Hx|].
        cbn [fst snd] in Hk, Hv. subst key. cbn [assoc propkey_eqb] in Hx.
        destruct (String.eqb "toJSON" k).
        - injection Hx as ->. exact (written_as_function _ _ Hv).
        - exact (IH Hx). }
      rewrite SerializeJSONProperty_object; [| |exact HtoJSON].
      * rewrite (SerializeJSONObject_written _ members); [reflexivity|].
        apply list_max_le in Hfuel. rewrite Forall_map in Hfuel.
        clear -Hwritten Hfuel.
        induction Hwritten as [|m kv ms own [Hk Hv] _ IH]; constructor.
        -- split; [exact Hk|]. apply Hv. inversion_clear Hfuel. assumption.
        -- apply IH. inversion_clear Hfuel. assumption.
      * unfold getPickler, hasFieldType, hasField, lookup. cbn [own_props].
        rewrite Hsym. reflexivity.
  - (* Set *)
    intros items elems _ [Hread Hwritten] Hsimple Hdistinct. repeat split.
    + rewrite JSON_value_envelope.
      rewrite (Internalize_envelope reg _ _ (VArray elems []) SetUnpickle);
        [| |reflexivity|exact HS].
      * rewrite Hsimple. unfold SetUnpickle, Set_of.
        rewrite (Set_of_distinct elems []) by exact Hdistinct. reflexivity.
      * cbn [JSON_value InternalizeJSONProperty]. rewrite Hread. reflexivity.
    + apply (written_as_envelope _ SetTag SetPickle "freik.Set"
               (VArray (map stored_key elems) []));
        [exact (getPickler_builtin reg Hreg (VSet (map stored_key elems) []) eq_refl)
        |reflexivity|reflexivity|].
      apply written_as_array.
      clear -Hwritten. induction Hwritten; constructor; auto.
      apply written_as_stored_key. assumption.
  - (* Map *)
    intros pairs entries _ [Hread Hwritten] Hsimple Hdistinct. repeat split.
    + rewrite JSON_value_envelope.
      rewrite (Internalize_envelope reg _ _
                 (VArray (map (fun kv => VArray [fst kv; snd kv] []) entries) [])
                 MapUnpickle); [| |reflexivity|exact HM].
      * rewrite Hsimple. unfold MapUnpickle. cbn [isArrayOf].
        rewrite forallb_mapped.
        replace (forallb (fun kv : value * value =>
                            is2Tuple (VArray [fst kv; snd kv] [])) entries)
          with true by (symmetry; apply forallb_forall; intros; reflexivity).
        rewrite map_map. cbn [pair_of].
        replace (map (fun kv : value * value => (fst kv, snd kv)) entries)
          with entries
          by (symmetry; apply map_unchanged, Forall_forall; intros [k v] _;
              reflexivity).
        unfold Map_of. rewrite (Map_of_distinct entries []) by exact Hdistinct.
        reflexivity.
      * cbn [JSON_value InternalizeJSONProperty]. rewrite Hread. reflexivity.
    + apply (written_as_envelope _ MapTag MapPickle "freik.Map"
               (VArray (map (fun kv => VArray [fst kv; snd kv] [])
                          (map (fun kv => (stored_key (fst kv), snd kv)) entries))
                  []));
        [exact (getPickler_builtin reg Hreg (VMap _ []) eq_refl)
        |reflexivity|reflexivity|].
      apply written_as_array. rewrite map_map. cbn [fst snd].
      clear -Hwritten.
      induction Hwritten as [|t [k v] pairs entries (tk & tv & -> & Hk & Hv) _ IH];
        constructor; [|exact IH].
      cbn [fst snd] in *. apply written_as_array.
      repeat constructor; [apply written_as_stored_key|]; assumption.
  - (* Symbol *)
    intro key. repeat split.
    + rewrite JSON_value_envelope.
      rewrite (Internalize_envelope reg _ _ (VString key) SymbolUnpickle);
        [reflexivity|reflexivity|reflexivity|exact HY].
    + apply (written_as_envelope _ SymbolTag SymbolPickle "freik.Symbol"
               (VString key));
        [exact (getPickler_builtin reg Hreg (VSymbol (Symbol_for key)) eq_refl)
        |reflexivity|reflexivity|].
      apply written_as_leaf. reflexivity.
  - (* BigInt *)
    intro z. repeat split.
    + rewrite JSON_value_envelope.
      rewrite (Internalize_envelope reg _ _ (VString (BigInt_toString z))
                 BigIntUnpickle); [|reflexivity|reflexivity|exact HB].
      replace (isSimpleObject (VString (BigInt_toString z))) with true
        by reflexivity.
      unfold BigIntUnpickle, BigInt_of_string.
      rewrite StringToBigInt_toString. reflexivity.
    + apply (written_as_envelope _ BigIntTag BigIntPickle "freik.BigInt"
               (VString (BigInt_toString z)));
        [exact (getPickler_builtin reg Hreg (VBigInt z) eq_refl)
        |reflexivity|reflexivity|].
      apply written_as_leaf. reflexivity.
  - (* Date *)
    intros text ms Hparse Hiso. repeat split.
    + rewrite JSON_value_envelope.
      rewrite (Internalize_envelope reg _ _ (VString text) DateUnpickle);
        [|reflexivity|reflexivity|exact HD].
      replace (isSimpleObject (VString text)) with true by reflexivity.
      rewrite DateUnpickle_cases, Hparse. reflexivity.
    + apply (written_as_envelope _ DateTag DatePickle "freik.Date" (VString text));
        [exact (getPickler_builtin reg Hreg (VDate (Some ms) []) eq_refl)
        |reflexivity| |].
      * cbn. rewrite Hiso. reflexivity.
      * apply written_as_leaf. reflexivity.
  - (* RegExp *)
    intros source flags Hreal. repeat split.
    + rewrite JSON_value_envelope.
      rewrite (Internalize_envelope reg _ _
                 (VObject [(KStr "source", VString source);
                           (KStr "flags", VString flags)])
                 RegexUnpickle); [|reflexivity|reflexivity|exact HR].
      replace (isSimpleObject _) with true by reflexivity.
      unfold RegexUnpickle, new_RegExp. cbn.
      unfold real_RegExp in Hreal.
      destruct (RegExp_new source flags) as [[s f]|]; [|discriminate Hreal].
      apply andb_prop in Hreal as [H1 H2].
      apply String.eqb_eq in H1, H2. subst. reflexivity.
    + apply (written_as_envelope _ RegexTag RegexPickle "freik.RegExp"
               (VObject [(KStr "source", VString source);
                         (KStr "flags", VString flags)]));
        [exact (getPickler_builtin reg Hreg (VRegExp source flags []) eq_refl)
        |reflexivity|reflexivity|].
      intros fuel Hfuel. cbn in Hfuel.
      destruct fuel as [|[|fuel]]; try lia. reflexivity.
  - (* an envelope that a decoder answers *)
    intros tag payload data decoder res _ (Hread & Hdef & _) Hsimple Hdec Hres
           Hundef Hwritten.
    repeat split; [|exact Hundef|exact Hwritten].
    rewrite JSON_value_envelope.
    rewrite (Internalize_envelope reg _ _ data decoder Hread Hdef Hdec).
    rewrite Hsimple, Hres. cbn [bind]. rewrite Hundef. reflexivity.
  - (* items *)
    split; [reflexivity|constructor].
  - intros t v items elems _ (Hread & _ & Hwritten) _ [Hreads Hall]. split.
    + cbn [map mapM]. rewrite Hread. cbn [bind]. rewrite Hreads. reflexivity.
    + constructor; assumption.
  - (* members *)
    split; [reflexivity|constructor].
  - intros k t v members own _ (Hread & Hdef & Hwritten) _ [Hreads Hall]. split.
    + cbn [map InternalizeProperties fst snd]. rewrite Hread. cbn [bind].
      rewrite Hreads. cbn [bind]. rewrite Hdef. reflexivity.
    + constructor; [split; [reflexivity|exact Hwritten]|exact Hall].
  - (* pairs *)
    split; [reflexivity|constructor].
  - intros tk tv k v pairs entries _ (Hk & _ & Hwk) _ (Hv & _ & Hwv) _ [Hreads Hall].
    split.
    + cbn [map mapM JSON_value InternalizeJSONProperty fst snd].
      rewrite Hk. cbn [bind]. rewrite Hv. cbn [bind].
      rewrite reviver_bare_array. cbn [bind]. rewrite Hreads. reflexivity.
    + constructor; [|exact Hall]. exists tk, tv. auto.
Qed.
End Canonical.

(** ** C7 *)


(** ** The checkers of object shapes *)

Lemma string_keys_cons_str k v (own : props) :
  string_keys ((KStr k, v) :: own) = k :: string_keys own.
Proof. reflexivity. Qed.

Lemma string_keys_cons_sym s v (own : props) :
  string_keys ((KSym s, v) :: own) = string_keys own.
Proof. reflexivity. Qed.

Lemma string_keys_app (a b : props) :
  string_keys (a ++ b) = string_keys a ++ string_keys b.
Proof. unfold string_keys. apply flat_map_app. Qed.

Lemma assoc_app_none key (a b : props) :
  assoc key a = None -> assoc key (a ++ b) = assoc key b.
Proof.
  induction a as [|[k v] a IH]; simpl; [reflexivity|].
  destruct (propkey_eqb key k); [discriminate|exact IH].
Qed.

Lemma assoc_app_some key (a b : props) v :
  assoc key a = Some v -> assoc key (a ++ b) = Some v.
Proof.
  induction a as [|[k x] a IH]; simpl; [discriminate|].
  destruct (propkey_eqb key k); [auto|exact IH].
Qed.

Lemma propkey_eqb_refl key : propkey_eqb key key = true.
Proof.
  destruct key as [k|[k|i]]; simpl;
    [apply String.eqb_refl|apply String.eqb_refl|apply Nat.eqb_refl].
Qed.

Lemma without_key_absent k (own : props) :
  assoc (KStr k) own = None -> without_key k own = own.
Proof.
  unfold without_key.
  induction own as [|[k' v] own IH]; cbn [assoc filter fst]; [reflexivity|].
  destruct (propkey_eqb (KStr k) k'); [discriminate|].
  intro H. cbn [negb]. rewrite (IH H). reflexivity.
Qed.

Lemma without_key_app k (a b : props) :
  without_key k (a ++ b) = without_key k a ++ without_key k b.
Proof. unfold without_key. apply filter_app. Qed.

Lemma without_key_head k v (own : props) :
  without_key k ((KStr k, v) :: own) = without_key k own.
Proof.
  unfold without_key. cbn [filter fst propkey_eqb].
  rewrite String.eqb_refl. reflexivity.
Qed.

Lemma assoc_not_key k (own : props) :
  ~ In k (string_keys own) -> assoc (KStr k) own = None.
Proof.
  induction own as [|[[k'|s] v] own IH]; intro H; simpl; [reflexivity| |].
  - rewrite string_keys_cons_str in H. simpl in H.
    destruct (String.eqb k k') eqn:E.
    + apply String.eqb_eq in E. subst. tauto.
    + apply IH. tauto.
  - apply IH. exact H.
Qed.

Lemma assoc_key_in k (own : props) v :
  assoc (KStr k) own = Some v -> In k (string_keys own).
Proof.
  intro H. destruct (in_dec string_dec k (string_keys own)) as [Hin|Hout];
    [exact Hin|].
  rewrite (assoc_not_key _ _ Hout) in H. discriminate.
Qed.

(** The values that are objects and no arrays. *)
Lemma object_not_array obj :
  isObjectNonNull obj = true -> isArray obj = false ->
  Object_keys obj = string_keys (own_props obj)
  /\ obj = with_own obj (own_props obj)
  /\ forall own,
       isObjectNonNull (with_own obj own) = true
       /\ isArray (with_own obj own) = false
       /\ own_props (with_own obj own) = own
       /\ (forall own', with_own (with_own obj own) own' = with_own obj own')
       /\ (forall k, delete_key (with_own obj own) k
                     = with_own obj (without_key k own))
       /\ (forall k v, assoc (KStr k) own = Some v ->
                       has_key (with_own obj own) k = true
                       /\ at_key (with_own obj own) k = v).
Proof.
  intros Hobj Harr.
  destruct obj; try discriminate Hobj; try discriminate Harr;
    (split; [reflexivity|split; [reflexivity|]]);
    intro own'; repeat split; intros;
    unfold has_key, at_key, hasField, Get, lookup;
    cbn [with_own own_props];
    try match goal with
        | Hv : assoc _ _ = Some _ |- _ => rewrite Hv
        end;
    reflexivity.
Qed.

Lemma isObjOfHelper_loop_walk req opt obj0 :
  isObjectNonNull obj0 = true -> isArray obj0 = false ->
  forall suffix done len required,
    NoDup (string_keys suffix) ->
    (forall k, In k (string_keys suffix) -> assoc (KStr k) done = None) ->
    isObjOfHelper_loop req opt (string_keys suffix) (with_own obj0 (done ++ suffix))
      len required
    = match shape_walk req opt suffix len required with
      | Some (own', e) => Some (with_own obj0 (done ++ own'), e)
      | None => None
      end.
Proof.
  intros Hobj Harr.
  destruct (object_not_array obj0 Hobj Harr) as (_ & _ & Hown).
  induction suffix as [|[[k|s] v] rest IH]; intros done len required Hnd Hdone.
  - reflexivity.
  - rewrite string_keys_cons_str in *. inversion_clear Hnd as [|? ? Hk Hrest].
    assert (Hv : assoc (KStr k) (done ++ (KStr k, v) :: rest) = Some v).
    { rewrite assoc_app_none by (apply Hdone; left; reflexivity).
      simpl. rewrite String.eqb_refl. reflexivity. }
    destruct (Hown (done ++ (KStr k, v) :: rest))
      as (_ & _ & _ & _ & Hdel & Hget).
    destruct (Hget k v Hv) as [Hhas Hat].
    cbn [isObjOfHelper_loop shape_walk]. rewrite Hhas, Hat. cbn [negb].
    change (isUndefined v || isNull v) with (isEmpty v).
    assert (Hnext : forall k', In k' (string_keys rest) ->
                               assoc (KStr k') (done ++ [(KStr k, v)]) = None).
    { intros k' Hk'. rewrite assoc_app_none by (apply Hdone; right; exact Hk').
      simpl. destruct (String.eqb k' k) eqn:E; [|reflexivity].
      apply String.eqb_eq in E. subst. contradiction. }
    assert (Hstep : forall l r,
               isObjOfHelper_loop req opt (string_keys rest)
                 (with_own obj0 (done ++ (KStr k, v) :: rest)) l r
               = match keep_first (KStr k, v) (shape_walk req opt rest l r) with
                 | Some (own', e) => Some (with_own obj0 (done ++ own'), e)
                 | None => None
                 end).
    { intros l r.
      replace (done ++ (KStr k, v) :: rest) with ((done ++ [(KStr k, v)]) ++ rest)
        by (rewrite <- app_assoc; reflexivity).
      rewrite (IH _ l r Hrest Hnext).
      destruct (shape_walk req opt rest l r) as [[own' e]|]; [|reflexivity].
      cbn [keep_first]. rewrite <- app_assoc. reflexivity. }
    destruct (isEmpty v).
    + rewrite Hdel.
      assert (Hgone : without_key k (done ++ (KStr k, v) :: rest) = done ++ rest).
      { rewrite without_key_app, without_key_head.
        rewrite without_key_absent by (apply Hdone; left; reflexivity).
        rewrite without_key_absent by (apply assoc_not_key; exact Hk).
        reflexivity. }
      rewrite Hgone. apply IH; [exact Hrest|].
      intros k' Hk'. apply Hdone. right. exact Hk'.
    + destruct (checker_of opt k) as [[c|]|]; [| |reflexivity].
      * destruct (c v); cbn [negb]; [apply Hstep|reflexivity].
      * destruct (checker_of req k) as [[c|]|]; [| |reflexivity].
        -- destruct (c v); cbn [negb]; [apply Hstep|reflexivity].
        -- apply Hstep.
  - rewrite string_keys_cons_sym in *. cbn [shape_walk].
    replace (done ++ (KSym s, v) :: rest) with ((done ++ [(KSym s, v)]) ++ rest)
      by (rewrite <- app_assoc; reflexivity).
    rewrite IH; [|exact Hnd|].
    + destruct (shape_walk req opt rest len required) as [[own' e]|]; [|reflexivity].
      cbn [keep_first]. rewrite <- app_assoc. reflexivity.
    + intros k Hk. rewrite assoc_app_none by (apply Hdone; exact Hk). reflexivity.
Qed.

(** [isObjOfHelper] on an object that is no array, by the walk over its
    properties. *)
Lemma isObjOfHelper_walk exact obj req opt :
  isObjectNonNull obj = true -> isArray obj = false ->
  NoDup (Object_keys obj) ->
  isObjOfHelper exact obj req opt
  = match shape_walk req opt (own_props obj)
            (Z.of_nat (List.length (string_keys (own_props obj))))
            (Z.of_nat (List.length req)) with
    | None => None
    | Some (own', Returned answer) => Some (answer, with_own obj own')
    | Some (own', Finished len' required') =>
        Some (Z.eqb required' 0 && (Z.eqb len' 0 || negb exact), with_own obj own')
    end.
Proof.
  intros Hobj Harr Hnd.
  destruct (object_not_array obj Hobj Harr) as (Hkeys & Hself & _).
  unfold isObjOfHelper. rewrite Hobj. cbn [negb]. cbv zeta.
  rewrite Hkeys in *.
  pose proof (isObjOfHelper_loop_walk req opt obj Hobj Harr (own_props obj) []
                (Z.of_nat (List.length (string_keys (own_props obj))))
                (Z.of_nat (List.length req)) Hnd (fun _ _ => eq_refl)) as Hloop.
  cbn [app] in Hloop. rewrite <- Hself in Hloop. rewrite Hloop.
  destruct (shape_walk _ _ _ _ _) as [[own' [answer|len' required']]|]; reflexivity.
Qed.

(** *** The walk *)

Lemma shape_walk_finished req opt own :
  forall l r own' a b,
    shape_walk req opt own l r = Some (own', Finished a b) ->
    own' = filter kept own
    /\ a = (l - Z.of_nat (List.length (string_keys own))
            + Z.of_nat (List.length (unlisted req opt own)))%Z
    /\ b = (r - Z.of_nat (List.length (hits req opt own)))%Z
    /\ forallb (field_ok req opt) own = true.
Proof.
  assert (Hkeep : forall kv (w : option (props * loop_end)) own' a b,
             keep_first kv w = Some (own', Finished a b) ->
             exists own1, own' = kv :: own1 /\ w = Some (own1, Finished a b)).
  { intros kv [[own1 e]|] own' a b H; [|discriminate].
    injection H as <- ->. eauto. }
  induction own as [|[[k|s] v] rest IH]; intros l r own' a b H;
    cbn [shape_walk] in H.
  - injection H as <- <- <-. cbn. repeat split; lia.
  - unfold kept at 1. cbn [filter hits unlisted forallb field_ok fst snd].
    rewrite string_keys_cons_str. cbn [List.length].
    unfold checker_of in H.
    destruct (isEmpty v) eqn:Hv.
    + cbn [negb andb]. destruct (IH _ _ _ _ _ H) as (-> & -> & -> & Hok).
      repeat split; [lia|exact Hok].
    + cbn [negb].
      destruct (own_checker opt k) as [c|].
      * destruct (c v) eqn:Hc; [|discriminate H].
        apply Hkeep in H as (own1 & -> & H).
        destruct (IH _ _ _ _ _ H) as (-> & -> & -> & Hok).
        cbn [andb]. repeat split; [lia|exact Hok].
      * destruct (existsb (String.eqb k) Object_prototype_names); [discriminate H|].
        destruct (own_checker req k) as [c|].
        -- destruct (c v) eqn:Hc; [|discriminate H].
           apply Hkeep in H as (own1 & -> & H).
           destruct (IH _ _ _ _ _ H) as (-> & -> & -> & Hok).
           cbn [andb List.length]. repeat split; [lia|lia|exact Hok].
        -- apply Hkeep in H as (own1 & -> & H).
           destruct (IH _ _ _ _ _ H) as (-> & -> & -> & Hok).
           cbn [andb List.length]. repeat split; [lia|exact Hok].
  - cbn [filter kept hits unlisted forallb field_ok fst snd andb].
    rewrite string_keys_cons_sym.
    apply Hkeep in H as (own1 & -> & H).
    destruct (IH _ _ _ _ _ H) as (-> & -> & -> & Hok).
    repeat split; exact Hok.
Qed.

Lemma shape_walk_returned req opt own :
  forall l r own' answer,
    shape_walk req opt own l r = Some (own', Returned answer) ->
    answer = false /\ forallb (field_ok req opt) own = false.
Proof.
  assert (Hkeep : forall kv (w : option (props * loop_end)) own' answer,
             keep_first kv w = Some (own', Returned answer) ->
             exists own1, own' = kv :: own1 /\ w = Some (own1, Returned answer)).
  { intros kv [[own1 e]|] own' answer H; [|discriminate].
    injection H as <- ->. eauto. }
  induction own as [|[[k|s] v] rest IH]; intros l r own' answer H;
    cbn [shape_walk] in H.
  - discriminate H.
  - cbn [forallb field_ok]. unfold checker_of in H.
    destruct (isEmpty v) eqn:Hv.
    + cbn [andb]. exact (IH _ _ _ _ H).
    + destruct (own_checker opt k) as [c|].
      * destruct (c v) eqn:Hc.
        -- apply Hkeep in H as (own1 & -> & H). exact (IH _ _ _ _ H).
        -- injection H as _ <-. auto.
      * destruct (existsb (String.eqb k) Object_prototype_names); [discriminate H|].
        destruct (own_checker req k) as [c|].
        -- destruct (c v) eqn:Hc.
           ++ apply Hkeep in H as (own1 & -> & H). exact (IH _ _ _ _ H).
           ++ injection H as _ <-. auto.
        -- apply Hkeep in H as (own1 & -> & H). exact (IH _ _ _ _ H).
  - cbn [forallb field_ok andb].
    apply Hkeep in H as (own1 & -> & H). exact (IH _ _ _ _ H).
Qed.

(** The walk gives an answer when no key is a name of
    [Object.prototype]. *)
Lemma shape_walk_answers req opt own :
  forallb (fun k => negb (existsb (String.eqb k) Object_prototype_names))
    (string_keys own) = true ->
  forall l r, exists own' e, shape_walk req opt own l r = Some (own', e).
Proof.
  induction own as [|[[k|s] v] rest IH]; intros Hplain l r; cbn [shape_walk].
  - eauto.
  - rewrite string_keys_cons_str in Hplain. cbn [forallb] in Hplain.
    apply andb_prop in Hplain as [Hk Hrest]. apply negb_true_iff in Hk.
    assert (Hkeep : forall l r, exists own' e,
               keep_first (KStr k, v) (shape_walk req opt rest l r) = Some (own', e)).
    { intros l' r'. destruct (IH Hrest l' r') as (own1 & e & ->).
      cbn [keep_first]. eauto. }
    unfold checker_of. rewrite Hk.
    destruct (isEmpty v); [apply IH; exact Hrest|].
    destruct (own_checker opt k) as [c|].
    + destruct (c v); [apply Hkeep|eauto].
    + destruct (own_checker req k) as [c|]; [|apply Hkeep].
      destruct (c v); [apply Hkeep|eauto].
  - rewrite string_keys_cons_sym in Hplain.
    destruct (IH Hplain l r) as (own1 & e & ->). cbn [keep_first]. eauto.
Qed.

(** Only properties under a string key that hold [undefined] or [null]
    leave the list, and nothing enters it. *)
Lemma shape_walk_frame req opt own :
  forall l r own' e,
    shape_walk req opt own l r = Some (own', e) ->
    (forall kv, In kv own' -> In kv own)
    /\ (forall kv, In kv own -> kept kv = true -> In kv own').
Proof.
  assert (Hkeep : forall kv (w : option (props * loop_end)) own' e,
             keep_first kv w = Some (own', e) ->
             exists own1, own' = kv :: own1 /\ w = Some (own1, e)).
  { intros kv [[own1 e1]|] own' e H; [|discriminate].
    injection H as <- ->. eauto. }
  assert (Hcons : forall kv rest own1,
             ((forall x, In x own1 -> In x rest)
              /\ (forall x, In x rest -> kept x = true -> In x own1)) ->
             (forall x, In x (kv :: own1) -> In x (kv :: rest))
             /\ (forall x, In x (kv :: rest) -> kept x = true -> In x (kv :: own1))).
  { intros kv rest own1 [H1 H2]. split; intros x [Hx|Hx]; simpl; auto. }
  induction own as [|[[k|s] v] rest IH]; intros l r own' e H;
    cbn [shape_walk] in H.
  - injection H as <- _. split; auto.
  - destruct (isEmpty v) eqn:Hv.
    + destruct (IH _ _ _ _ H) as [H1 H2]. split.
      * intros x Hx. right. auto.
      * intros x [<-|Hx] Hkept; [|auto].
        unfold kept in Hkept. cbn [fst snd] in Hkept. rewrite Hv in Hkept.
        discriminate.
    + destruct (checker_of opt k) as [[c|]|]; [| |discriminate H].
      * destruct (c v).
        -- apply Hkeep in H as (own1 & -> & H). apply Hcons. exact (IH _ _ _ _ H).
        -- injection H as <- _. split; auto.
      * destruct (checker_of req k) as [[c|]|]; [| |discriminate H].
        -- destruct (c v).
           ++ apply Hkeep in H as (own1 & -> & H). apply Hcons. exact (IH _ _ _ _ H).
           ++ injection H as <- _. split; auto.
        -- apply Hkeep in H as (own1 & -> & H). apply Hcons. exact (IH _ _ _ _ H).
  - apply Hkeep in H as (own1 & -> & H). apply Hcons. exact (IH _ _ _ _ H).
Qed.

Lemma shape_walk_keys req opt own :
  forall l r own' e,
    shape_walk req opt own l r = Some (own', e) ->
    (forall k, In k (string_keys own') -> In k (string_keys own))
    /\ (NoDup (string_keys own) -> NoDup (string_keys own')).
Proof.
  assert (Hkeep : forall kv (w : option (props * loop_end)) own' e,
             keep_first kv w = Some (own', e) ->
             exists own1, own' = kv :: own1 /\ w = Some (own1, e)).
  { intros kv [[own1 e1]|] own' e H; [|discriminate].
    injection H as <- ->. eauto. }
  assert (Hcons : forall k v rest own1,
             ((forall x, In x (string_keys own1) -> In x (string_keys rest))
              /\ (NoDup (string_keys rest) -> NoDup (string_keys own1))) ->
             (forall x, In x (string_keys ((KStr k, v) :: own1)) ->
                        In x (string_keys ((KStr k, v) :: rest)))
             /\ (NoDup (string_keys ((KStr k, v) :: rest)) ->
                 NoDup (string_keys ((KStr k, v) :: own1)))).
  { intros k v rest own1 [H1 H2]. rewrite !string_keys_cons_str. split.
    - intros x [Hx|Hx]; simpl; auto.
    - intro Hnd. inversion_clear Hnd as [|? ? Hk Hrest].
      constructor; auto. }
  induction own as [|[[k|s] v] rest IH]; intros l r own' e H;
    cbn [shape_walk] in H.
  - injection H as <- _. split; auto.
  - destruct (isEmpty v) eqn:Hv.
    + destruct (IH _ _ _ _ H) as [H1 H2]. rewrite string_keys_cons_str. split.
      * intros x Hx. right. auto.
      * intro Hnd. inversion_clear Hnd. auto.
    + destruct (checker_of opt k) as [[c|]|]; [| |discriminate H].
      * destruct (c v).
        -- apply Hkeep in H as (own1 & -> & H). apply Hcons. exact (IH _ _ _ _ H).
        -- injection H as <- _. split; auto.
      * destruct (checker_of req k) as [[c|]|]; [| |discriminate H].
        -- destruct (c v).
           ++ apply Hkeep in H as (own1 & -> & H). apply Hcons. exact (IH _ _ _ _ H).
           ++ injection H as <- _. split; auto.
        -- apply Hkeep in H as (own1 & -> & H). apply Hcons. exact (IH _ _ _ _ H).
  - apply Hkeep in H as (own1 & -> & H). rewrite !string_keys_cons_sym.
    exact (IH _ _ _ _ H).
Qed.

Lemma same_end {A : Type} (x : A) a a' b b' :
  a = a' -> b = b' -> Some (x, Finished a b) = Some (x, Finished a' b').
Proof. intros -> ->. reflexivity. Qed.

(** A second walk over what the first one left ends as the first one did,
    and leaves the list as it is. *)
Lemma shape_walk_again req opt own :
  forall l r own' e,
    shape_walk req opt own l r = Some (own', e) ->
    forall l2 r2,
      shape_walk req opt own' l2 r2
      = Some (own',
              match e with
              | Returned answer => Returned answer
              | Finished _ _ =>
                  Finished (l2 - Z.of_nat (List.length (string_keys own'))
                            + Z.of_nat (List.length (unlisted req opt own)))%Z
                           (r2 - Z.of_nat (List.length (hits req opt own)))%Z
              end).
Proof.
  assert (Hkeep : forall kv (w : option (props * loop_end)) own' e,
             keep_first kv w = Some (own', e) ->
             exists own1, own' = kv :: own1 /\ w = Some (own1, e)).
  { intros kv [[own1 e1]|] own' e H; [|discriminate].
    injection H as <- ->. eauto. }
  induction own as [|[[k|s] v] rest IH]; intros l r own' e H l2 r2;
    cbn [shape_walk] in H.
  - injection H as <- <-.
    unfold string_keys. cbn [shape_walk hits unlisted flat_map List.length].
    apply same_end; lia.
  - cbn [hits unlisted]. unfold checker_of in H.
    destruct (isEmpty v) eqn:Hv; [exact (IH _ _ _ _ H l2 r2)|].
    destruct (own_checker opt k) as [c|] eqn:Hopt.
    + destruct (c v) eqn:Hc.
      * apply Hkeep in H as (own1 & -> & H).
        cbn [shape_walk]. unfold checker_of. rewrite Hv, Hopt, Hc.
        rewrite (IH _ _ _ _ H). cbn [keep_first].
        rewrite string_keys_cons_str. cbn [List.length].
        destruct e; [reflexivity|apply same_end; lia].
      * injection H as <- <-.
        cbn [shape_walk]. unfold checker_of. rewrite Hv, Hopt, Hc. reflexivity.
    + destruct (existsb (String.eqb k) Object_prototype_names) eqn:Hproto;
        [discriminate H|].
      destruct (own_checker req k) as [c|] eqn:Hreq.
      * destruct (c v) eqn:Hc.
        -- apply Hkeep in H as (own1 & -> & H).
           cbn [shape_walk]. unfold checker_of. rewrite Hv, Hopt, Hproto, Hreq, Hc.
           rewrite (IH _ _ _ _ H). cbn [keep_first].
           rewrite string_keys_cons_str. cbn [List.length].
           destruct e; [reflexivity|apply same_end; lia].
        -- injection H as <- <-.
           cbn [shape_walk]. unfold checker_of.
           rewrite Hv, Hopt, Hproto, Hreq, Hc. reflexivity.
      * apply Hkeep in H as (own1 & -> & H).
        cbn [shape_walk]. unfold checker_of. rewrite Hv, Hopt, Hproto, Hreq.
        rewrite (IH _ _ _ _ H). cbn [keep_first].
        rewrite string_keys_cons_str. cbn [List.length].
        destruct e; [reflexivity|apply same_end; lia].
  - apply Hkeep in H as (own1 & -> & H).
    cbn [shape_walk hits unlisted]. rewrite (IH _ _ _ _ H). cbn [keep_first].
    rewrite string_keys_cons_sym. reflexivity.
Qed.

(** What [isObjOfHelper] returns on a value that is no array. *)
Lemma isObjOfHelper_cases exact obj req opt answer obj' :
  isArray obj = false ->
  NoDup (Object_keys obj) ->
  isObjOfHelper exact obj req opt = Some (answer, obj') ->
  (isObjectNonNull obj = false /\ answer = false /\ obj' = obj)
  \/ (isObjectNonNull obj = true
      /\ exists own' e,
           shape_walk req opt (own_props obj)
             (Z.of_nat (List.length (string_keys (own_props obj))))
             (Z.of_nat (List.length req)) = Some (own', e)
           /\ obj' = with_own obj own'
           /\ answer = match e with
                       | Returned a => a
                       | Finished len' required' =>
                           Z.eqb required' 0 && (Z.eqb len' 0 || negb exact)
                       end).
Proof.
  intros Harr Hnd H.
  destruct (isObjectNonNull obj) eqn:Hobj.
  - right. split; [reflexivity|].
    rewrite (isObjOfHelper_walk exact obj req opt Hobj Harr Hnd) in H.
    destruct (shape_walk _ _ _ _ _) as [[own' e]|]; [|discriminate H].
    exists own', e. split; [reflexivity|].
    destruct e; injection H as <- <-; auto.
  - left. unfold isObjOfHelper in H. rewrite Hobj in H.
    injection H as <- <-. auto.
Qed.

(** X2. When [isObjOfHelper] accepts an object, it leaves it without any
    property under a string key that holds [undefined] or [null], and
    otherwise as it was. *)
Theorem isObjOfHelper_accepted_is_cleaned :
  forall exact obj req opt obj',
    isArray obj = false ->
    NoDup (Object_keys obj) ->
    isObjOfHelper exact obj req opt = Some (true, obj') ->
    obj' = without_empty obj.
Proof.
  intros exact obj req opt obj' Harr Hnd H.
  destruct (isObjOfHelper_cases _ _ _ _ _ _ Harr Hnd H)
    as [(_ & Hfalse & _)|(Hobj & own' & e & Hwalk & -> & Hanswer)];
    [discriminate Hfalse|].
  destruct e as [answer|len' required'].
  - destruct (shape_walk_returned _ _ _ _ _ _ _ Hwalk) as [-> _].
    discriminate Hanswer.
  - destruct (shape_walk_finished _ _ _ _ _ _ _ _ Hwalk) as (-> & _).
    reflexivity.
Qed.

(** *** Counting the required names *)

Lemma own_checker_in fields k c :
  own_checker fields k = Some c -> In (k, c) fields.
Proof.
  induction fields as [|[name c'] fields IH]; cbn [own_checker]; [discriminate|].
  destruct (String.eqb k name) eqn:E.
  - intro H. injection H as <-. apply String.eqb_eq in E. subst. left. reflexivity.
  - intro H. right. auto.
Qed.

Lemma own_checker_listed fields k c :
  own_checker fields k = Some c -> In k (names fields).
Proof.
  intro H. apply own_checker_in in H.
  apply (in_map fst) in H. exact H.
Qed.

Lemma own_checker_unlisted fields k :
  own_checker fields k = None -> ~ In k (names fields).
Proof.
  induction fields as [|[name c] fields IH]; cbn [own_checker names map fst];
    [auto|].
  destruct (String.eqb k name) eqn:E; [discriminate|].
  intros H [Hk|Hk].
  - subst. rewrite String.eqb_refl in E. discriminate.
  - exact (IH H Hk).
Qed.

Lemma in_own_checker fields k c :
  NoDup (names fields) -> In (k, c) fields -> own_checker fields k = Some c.
Proof.
  induction fields as [|[name c'] fields IH]; cbn [own_checker names map fst];
    [contradiction|].
  intros Hnd [Hin|Hin].
  - injection Hin as -> ->. rewrite String.eqb_refl. reflexivity.
  - inversion_clear Hnd as [|? ? Hname Hrest].
    destruct (String.eqb k name) eqn:E.
    + apply String.eqb_eq in E. subst.
      exfalso. apply Hname. apply (in_map fst) in Hin. exact Hin.
    + auto.
Qed.

Lemma assoc_in k (own : props) v :
  assoc (KStr k) own = Some v -> In (KStr k, v) own.
Proof.
  induction own as [|[k' x] own IH]; cbn [assoc]; [discriminate|].
  destruct (propkey_eqb (KStr k) k') eqn:E.
  - intro H. injection H as <-. left.
    destruct k' as [k'|s]; [|discriminate E].
    apply String.eqb_eq in E. subst. reflexivity.
  - intro H. right. auto.
Qed.

Lemma in_assoc k (own : props) v :
  NoDup (string_keys own) -> In (KStr k, v) own -> assoc (KStr k) own = Some v.
Proof.
  induction own as [|[[k'|s] x] own IH]; [contradiction| |].
  - rewrite string_keys_cons_str. intros Hnd [Hin|Hin]; cbn [assoc propkey_eqb].
    + injection Hin as -> ->. rewrite String.eqb_refl. reflexivity.
    + inversion_clear Hnd as [|? ? Hk Hrest].
      destruct (String.eqb k k') eqn:E; [|auto].
      apply String.eqb_eq in E. subst. exfalso. apply Hk.
      apply assoc_key_in with (v := v). auto.
  - rewrite string_keys_cons_sym. intros Hnd [Hin|Hin]; [discriminate Hin|].
    cbn [assoc propkey_eqb]. auto.
Qed.

Lemma hits_in req opt own k :
  In k (hits req opt own) ->
  exists v c, In (KStr k, v) own /\ isEmpty v = false
              /\ own_checker opt k = None /\ own_checker req k = Some c.
Proof.
  induction own as [|[[k'|s] v] own IH]; cbn [hits]; [contradiction| |].
  - assert (Hrest : In k (hits req opt own) ->
                    exists v0 c, In (KStr k, v0) ((KStr k', v) :: own)
                                 /\ isEmpty v0 = false
                                 /\ own_checker opt k = None
                                 /\ own_checker req k = Some c).
    { intro H. destruct (IH H) as (v0 & c & Hin & Hrest).
      exists v0, c. split; [right; exact Hin|exact Hrest]. }
    destruct (isEmpty v) eqn:Hv; [exact Hrest|].
    destruct (own_checker opt k') eqn:Hopt; [exact Hrest|].
    destruct (own_checker req k') as [c|] eqn:Hreq; [|exact Hrest].
    intros [<-|H]; [|exact (Hrest H)].
    exists v, c. split; [left; reflexivity|auto].
  - intro H. destruct (IH H) as (v0 & c & Hin & Hrest).
    exists v0, c. split; [right; exact Hin|exact Hrest].
Qed.

Lemma in_hits req opt own k v c :
  In (KStr k, v) own -> isEmpty v = false ->
  own_checker opt k = None -> own_checker req k = Some c ->
  In k (hits req opt own).
Proof.
  intros Hin Hv Hopt Hreq.
  induction own as [|[[k'|s] x] own IH]; [contradiction| |].
  - cbn [hits]. destruct Hin as [Hin|Hin].
    + injection Hin as -> ->. rewrite Hv, Hopt, Hreq. left. reflexivity.
    + destruct (isEmpty x); [auto|].
      destruct (own_checker opt k'); [auto|].
      destruct (own_checker req k'); [right|]; auto.
  - cbn [hits]. destruct Hin as [Hin|Hin]; [discriminate Hin|auto].
Qed.

Lemma hits_keys req opt own k :
  In k (hits req opt own) -> In k (string_keys own).
Proof.
  intro H. destruct (hits_in _ _ _ _ H) as (v & c & Hin & _).
  clear H. induction own as [|[[k'|s] x] own IH]; [contradiction| |].
  - rewrite string_keys_cons_str. destruct Hin as [Hin|Hin].
    + injection Hin as -> _. left. reflexivity.
    + right. auto.
  - rewrite string_keys_cons_sym. destruct Hin as [Hin|Hin]; [discriminate|auto].
Qed.

Lemma hits_NoDup req opt own :
  NoDup (string_keys own) -> NoDup (hits req opt own).
Proof.
  induction own as [|[[k|s] v] own IH]; cbn [hits]; [constructor| |].
  - rewrite string_keys_cons_str. intro Hnd.
    inversion_clear Hnd as [|? ? Hk Hrest].
    destruct (isEmpty v); [auto|].
    destruct (own_checker opt k); [auto|].
    destruct (own_checker req k); [|auto].
    constructor; [|auto].
    intro H. apply Hk. exact (hits_keys _ _ _ _ H).
  - rewrite string_keys_cons_sym. auto.
Qed.

Lemma unlisted_in req opt own k :
  In k (unlisted req opt own) ->
  exists v, In (KStr k, v) own /\ isEmpty v = false
            /\ own_checker opt k = None /\ own_checker req k = None.
Proof.
  induction own as [|[[k'|s] v] own IH]; cbn [unlisted]; [contradiction| |].
  - assert (Hrest : In k (unlisted req opt own) ->
                    exists v0, In (KStr k, v0) ((KStr k', v) :: own)
                               /\ isEmpty v0 = false
                               /\ own_checker opt k = None
                               /\ own_checker req k = None).
    { intro H. destruct (IH H) as (v0 & Hin & Hrest).
      exists v0. split; [right; exact Hin|exact Hrest]. }
    destruct (isEmpty v) eqn:Hv; [exact Hrest|].
    destruct (own_checker opt k') eqn:Hopt; [exact Hrest|].
    destruct (own_checker req k') as [c|] eqn:Hreq; [exact Hrest|].
    intros [<-|H]; [|exact (Hrest H)].
    exists v. split; [left; reflexivity|auto].
  - intro H. destruct (IH H) as (v0 & Hin & Hrest).
    exists v0. split; [right; exact Hin|exact Hrest].
Qed.

Lemma in_unlisted req opt own k v :
  In (KStr k, v) own -> isEmpty v = false ->
  own_checker opt k = None -> own_checker req k = None ->
  In k (unlisted req opt own).
Proof.
  intros Hin Hv Hopt Hreq.
  induction own as [|[[k'|s] x] own IH]; [contradiction| |].
  - cbn [unlisted]. destruct Hin as [Hin|Hin].
    + injection Hin as -> ->. rewrite Hv, Hopt, Hreq. left. reflexivity.
    + destruct (isEmpty x); [auto|].
      destruct (own_checker opt k'); [auto|].
      destruct (own_checker req k'); [|right]; auto.
  - cbn [unlisted]. destruct Hin as [Hin|Hin]; [discriminate Hin|auto].
Qed.

(** *** Every value, arrays included *)

Lemma checker_of_plain fields k :
  existsb (String.eqb k) Object_prototype_names = false ->
  checker_of fields k = Some (own_checker fields k).
Proof.
  intro H. unfold checker_of. rewrite H. destruct (own_checker fields k); reflexivity.
Qed.

(** The loop answers when no key is a name of [Object.prototype]; it never
    returns [true] from inside, and it counts [required] down at the keys
    of [required_only] at most. *)
Lemma isObjOfHelper_loop_answers req opt keys :
  forallb (fun k => negb (existsb (String.eqb k) Object_prototype_names)) keys = true ->
  forall obj len required,
  exists obj' e,
    isObjOfHelper_loop req opt keys obj len required = Some (obj', e)
    /\ match e with
       | Returned answer => answer = false
       | Finished _ required' =>
           (required - Z.of_nat (List.length (filter (required_only req opt) keys))
            <= required')%Z
       end.
Proof.
  induction keys as [|k keys IH]; intros Hplain obj len required.
  - exists obj, (Finished len required). split; [reflexivity|]. cbn. lia.
  - cbn [forallb] in Hplain. apply andb_prop in Hplain as [Hk Hrest].
    apply negb_true_iff in Hk.
    assert (Hnext : forall obj1 len1 required1,
               (required - 1 <= required1)%Z ->
               required_only req opt k = true \/ (required <= required1)%Z ->
               exists obj' e,
                 isObjOfHelper_loop req opt keys obj1 len1 required1 = Some (obj', e)
                 /\ match e with
                    | Returned answer => answer = false
                    | Finished _ required' =>
                        (required
                         - Z.of_nat (List.length
                                       (filter (required_only req opt) (k :: keys)))
                         <= required')%Z
                    end).
    { intros obj1 len1 required1 Hle Hcount.
      destruct (IH Hrest obj1 len1 required1) as (obj' & e & Hloop & He).
      exists obj', e. split; [exact Hloop|].
      destruct e as [answer|len' required']; [exact He|].
      cbn [filter]. destruct (required_only req opt k); cbn [List.length].
      - lia.
      - destruct Hcount as [Hcount|Hcount]; [discriminate Hcount|lia]. }
    cbn [isObjOfHelper_loop].
    destruct (negb (has_key obj k)); [apply Hnext; [lia|right; lia]|].
    destruct (isUndefined (at_key obj k) || isNull (at_key obj k));
      [apply Hnext; [lia|right; lia]|].
    rewrite !(checker_of_plain _ _ Hk).
    destruct (own_checker opt k) as [c|] eqn:Hopt.
    + destruct (negb (c (at_key obj k))).
      * exists obj, (Returned false). split; reflexivity.
      * apply Hnext; [lia|right; lia].
    + destruct (own_checker req k) as [c|] eqn:Hreq.
      * destruct (negb (c (at_key obj k))).
        -- exists obj, (Returned false). split; reflexivity.
        -- apply Hnext; [lia|left]. unfold required_only. rewrite Hopt, Hreq.
           reflexivity.
      * apply Hnext; [lia|right; lia].
Qed.

(** [isObjOfHelper] answers on every value whose keys are none of the names
    of [Object.prototype]. *)
Lemma isObjOfHelper_answers exact obj req opt :
  plain_keys obj = true ->
  exists answer obj', isObjOfHelper exact obj req opt = Some (answer, obj').
Proof.
  intro Hplain. unfold isObjOfHelper.
  destruct (negb (isObjectNonNull obj)); [eauto|]. cbv zeta.
  destruct (isObjOfHelper_loop_answers req opt (Object_keys obj) Hplain obj
              (Z.of_nat (List.length (Object_keys obj)))
              (Z.of_nat (List.length req))) as (obj' & e & -> & _).
  destruct e; eauto.
Qed.

(** X5. A name listed both as required and as optional makes
    [isObjOfHelper] refuse every value, arrays included, whose keys are none
    of the names of [Object.prototype]: the optional entry takes the field,
    and the count of the required names never reaches zero. *)
Theorem isObjOfHelper_refuses_when_listed_twice :
  forall exact obj req opt k,
    NoDup (Object_keys obj) ->
    plain_keys obj = true ->
    In k (names req) ->
    In k (names opt) ->
    exists obj', isObjOfHelper exact obj req opt = Some (false, obj').
Proof.
  intros exact obj req opt k Hnd Hplain Hkreq Hkopt.
  unfold isObjOfHelper.
  destruct (negb (isObjectNonNull obj)); [eauto|]. cbv zeta.
  destruct (isObjOfHelper_loop_answers req opt (Object_keys obj) Hplain obj
              (Z.of_nat (List.length (Object_keys obj)))
              (Z.of_nat (List.length req))) as (obj' & e & -> & He).
  exists obj'. destruct e as [answer|len' required']; [rewrite He; reflexivity|].
  assert (Hincl : incl (filter (required_only req opt) (Object_keys obj))
                    (remove string_dec k (names req))).
  { intros x Hx. apply filter_In in Hx as [_ Hx]. unfold required_only in Hx.
    destruct (own_checker opt x) eqn:Hopt; [discriminate Hx|].
    destruct (own_checker req x) as [c|] eqn:Hc; [|discriminate Hx].
    apply in_in_remove.
    - intros ->. exact (own_checker_unlisted _ _ Hopt Hkopt).
    - exact (own_checker_listed _ _ _ Hc). }
  pose proof (NoDup_incl_length (NoDup_filter _ Hnd) Hincl) as Hle.
  pose proof (remove_length_lt string_dec (names req) k Hkreq) as Hlt.
  unfold names in Hlt at 2. rewrite length_map in Hlt.
  replace (Z.eqb required' 0) with false; [reflexivity|].
  symmetry. apply Z.eqb_neq. lia.
Qed.

(** *** Arrays *)

Lemma position_fresh k kdone rest :
  ~ In k kdone -> position k (kdone ++ k :: rest) = Some (List.length kdone).
Proof.
  induction kdone as [|x kdone IH]; intro Hk; cbn [app position List.length].
  - rewrite String.eqb_refl. reflexivity.
  - destruct (String.eqb k x) eqn:E.
    + apply String.eqb_eq in E. subst. exfalso. apply Hk. left. reflexivity.
    + rewrite IH; [reflexivity|]. intro H. apply Hk. right. exact H.
Qed.

Lemma position_none k l : ~ In k l -> position k l = None.
Proof.
  induction l as [|x l IH]; intro Hk; cbn [position]; [reflexivity|].
  destruct (String.eqb k x) eqn:E.
  - apply String.eqb_eq in E. subst. exfalso. apply Hk. left. reflexivity.
  - rewrite IH; [reflexivity|]. intro H. apply Hk. right. exact H.
Qed.

Lemma make_hole_middle done e rest :
  make_hole (List.length done) (done ++ e :: rest) = done ++ VUndefined :: rest.
Proof.
  induction done as [|x done IH]; cbn [List.length app make_hole]; [reflexivity|].
  rewrite IH. reflexivity.
Qed.

(** An object, array or not, under the keys that are no index of it. *)
Lemma object_own_facts obj0 :
  isObjectNonNull obj0 = true ->
  forall own,
    isObjectNonNull (with_own obj0 own) = true
    /\ own_props (with_own obj0 own) = own
    /\ (forall own', with_own (with_own obj0 own) own' = with_own obj0 own')
    /\ (forall k,
           position k (index_keys (List.length (elements obj0))) = None ->
           delete_key (with_own obj0 own) k = with_own obj0 (without_key k own))
    /\ (forall k v,
           position k (index_keys (List.length (elements obj0))) = None ->
           assoc (KStr k) own = Some v ->
           has_key (with_own obj0 own) k = true
           /\ at_key (with_own obj0 own) k = v).
Proof.
  intros Hobj own.
  destruct obj0; try discriminate Hobj;
    repeat split; intros;
    unfold has_key, at_key, delete_key, hasField, Get, lookup;
    cbn [with_own own_props elements] in *;
    try match goal with
        | Hp : position _ _ = None |- _ => rewrite Hp
        end;
    try match goal with
        | Hv : assoc _ _ = Some _ |- _ => rewrite Hv
        end;
    reflexivity.
Qed.

Lemma isObjOfHelper_loop_own req opt obj0 :
  isObjectNonNull obj0 = true ->
  forall suffix done len required,
    NoDup (string_keys suffix) ->
    (forall k, In k (string_keys suffix) ->
               position k (index_keys (List.length (elements obj0))) = None) ->
    (forall k, In k (string_keys suffix) -> assoc (KStr k) done = None) ->
    isObjOfHelper_loop req opt (string_keys suffix) (with_own obj0 (done ++ suffix))
      len required
    = match shape_walk req opt suffix len required with
      | Some (own', e) => Some (with_own obj0 (done ++ own'), e)
      | None => None
      end.
Proof.
  intros Hobj.
  pose proof (object_own_facts obj0 Hobj) as Hown.
  induction suffix as [|[[k|s] v] rest IH]; intros done len required Hnd Hidx Hdone.
  - reflexivity.
  - rewrite string_keys_cons_str in *. inversion_clear Hnd as [|? ? Hk Hrest].
    assert (Hki : position k (index_keys (List.length (elements obj0))) = None)
      by (apply Hidx; left; reflexivity).
    assert (Hv : assoc (KStr k) (done ++ (KStr k, v) :: rest) = Some v).
    { rewrite assoc_app_none by (apply Hdone; left; reflexivity).
      simpl. rewrite String.eqb_refl. reflexivity. }
    destruct (Hown (done ++ (KStr k, v) :: rest))
      as (_ & _ & _ & Hdel & Hget).
    destruct (Hget k v Hki Hv) as [Hhas Hat].
    cbn [isObjOfHelper_loop shape_walk]. rewrite Hhas, Hat. cbn [negb].
    change (isUndefined v || isNull v) with (isEmpty v).
    assert (Hidx' : forall k', In k' (string_keys rest) ->
                     position k' (index_keys (List.length (elements obj0))) = None)
      by (intros k' Hk'; apply Hidx; right; exact Hk').
    assert (Hnext : forall k', In k' (string_keys rest) ->
                               assoc (KStr k') (done ++ [(KStr k, v)]) = None).
    { intros k' Hk'. rewrite assoc_app_none by (apply Hdone; right; exact Hk').
      simpl. destruct (String.eqb k' k) eqn:E; [|reflexivity].
      apply String.eqb_eq in E. subst. contradiction. }
    assert (Hstep : forall l r,
               isObjOfHelper_loop req opt (string_keys rest)
                 (with_own obj0 (done ++ (KStr k, v) :: rest)) l r
               = match keep_first (KStr k, v) (shape_walk req opt rest l r) with
                 | Some (own', e) => Some (with_own obj0 (done ++ own'), e)
                 | None => None
                 end).
    { intros l r.
      replace (done ++ (KStr k, v) :: rest) with ((done ++ [(KStr k, v)]) ++ rest)
        by (rewrite <- app_assoc; reflexivity).
      rewrite (IH _ l r Hrest Hidx' Hnext).
      destruct (shape_walk req opt rest l r) as [[own' e]|]; [|reflexivity].
      cbn [keep_first]. rewrite <- app_assoc. reflexivity. }
    destruct (isEmpty v).
    + rewrite (Hdel k Hki).
      assert (Hgone : without_key k (done ++ (KStr k, v) :: rest) = done ++ rest).
      { rewrite without_key_app, without_key_head.
        rewrite without_key_absent by (apply Hdone; left; reflexivity).
        rewrite without_key_absent by (apply assoc_not_key; exact Hk).
        reflexivity. }
      rewrite Hgone. apply IH; [exact Hrest|exact Hidx'|].
      intros k' Hk'. apply Hdone. right. exact Hk'.
    + destruct (checker_of opt k) as [[c|]|]; [| |reflexivity].
      * destruct (c v); cbn [negb]; [apply Hstep|reflexivity].
      * destruct (checker_of req k) as [[c|]|]; [| |reflexivity].
        -- destruct (c v); cbn [negb]; [apply Hstep|reflexivity].
        -- apply Hstep.
  - rewrite string_keys_cons_sym in *. cbn [shape_walk].
    replace (done ++ (KSym s, v) :: rest) with ((done ++ [(KSym s, v)]) ++ rest)
      by (rewrite <- app_assoc; reflexivity).
    rewrite IH; [|exact Hnd|exact Hidx|].
    + destruct (shape_walk req opt rest len required) as [[own' e]|]; [|reflexivity].
      cbn [keep_first]. rewrite <- app_assoc. reflexivity.
    + intros k Hk. rewrite assoc_app_none by (apply Hdone; exact Hk). reflexivity.
Qed.

(** The loop over the indices of an array, then over what is left of the
    keys. *)
Lemma isObjOfHelper_loop_elements req opt own later :
  forall rest done kdone krest len required,
    index_keys (List.length (done ++ rest)) = kdone ++ krest ->
    List.length kdone = List.length done ->
    NoDup (kdone ++ krest) ->
    isObjOfHelper_loop req opt (krest ++ later) (VArray (done ++ rest) own)
      len required
    = match elems_walk req opt krest rest len required with
      | None => None
      | Some (rest', Returned answer) =>
          Some (VArray (done ++ rest') own, Returned answer)
      | Some (rest', Finished len' required') =>
          isObjOfHelper_loop req opt later (VArray (done ++ rest') own)
            len' required'
      end.
Proof.
  induction rest as [|e rest IH]; intros done kdone krest len required Hkeys Hlen Hnd.
  - assert (Hk : krest = []).
    { apply (f_equal (@List.length string)) in Hkeys.
      unfold index_keys in Hkeys.
      rewrite length_map, length_seq, !length_app in Hkeys. cbn in Hkeys.
      destruct krest; [reflexivity|]. cbn in Hkeys. lia. }
    subst krest. cbn [elems_walk app]. reflexivity.
  - destruct krest as [|k krest].
    { apply (f_equal (@List.length string)) in Hkeys.
      unfold index_keys in Hkeys.
      rewrite length_map, length_seq, !length_app in Hkeys. cbn in Hkeys. lia. }
    assert (Hk : ~ In k kdone).
    { apply NoDup_remove_2 in Hnd. intro H. apply Hnd. apply in_or_app. left.
      exact H. }
    assert (Hpos : position k (index_keys (List.length (done ++ e :: rest)))
                   = Some (List.length done)).
    { rewrite Hkeys, <- Hlen. apply position_fresh. exact Hk. }
    assert (Hat : nth (List.length done) (done ++ e :: rest) VUndefined = e)
      by apply nth_middle.
    assert (Hnext : forall e' len1 required1,
               List.length (done ++ e' :: rest) = List.length (done ++ e :: rest) ->
               isObjOfHelper_loop req opt (krest ++ later)
                 (VArray (done ++ e' :: rest) own) len1 required1
               = match keep_element e' (elems_walk req opt krest rest len1 required1)
                 with
                 | None => None
                 | Some (rest', Returned answer) =>
                     Some (VArray (done ++ rest') own, Returned answer)
                 | Some (rest', Finished len' required') =>
                     isObjOfHelper_loop req opt later (VArray (done ++ rest') own)
                       len' required'
                 end).
    { intros e' len1 required1 Hsame.
      replace (done ++ e' :: rest) with ((done ++ [e']) ++ rest)
        by (rewrite <- app_assoc; reflexivity).
      rewrite (IH (done ++ [e']) (kdone ++ [k]) krest).
      - destruct (elems_walk req opt krest rest len1 required1)
          as [[rest' [answer|len' required']]|]; cbn [keep_element];
          rewrite <- ?app_assoc; reflexivity.
      - rewrite <- !app_assoc. cbn [app]. rewrite Hsame. exact Hkeys.
      - rewrite !length_app. cbn [List.length]. lia.
      - rewrite <- app_assoc. exact Hnd. }
    cbn [app isObjOfHelper_loop elems_walk].
    unfold has_key, at_key. rewrite Hpos, Hat. cbn [negb].
    change (isUndefined e || isNull e) with (isEmpty e).
    destruct (isEmpty e).
    + unfold delete_key. rewrite Hpos, make_hole_middle.
      apply Hnext. rewrite !length_app. reflexivity.
    + destruct (checker_of opt k) as [[c|]|]; [| |reflexivity].
      * destruct (c e); cbn [negb]; [apply Hnext; reflexivity|reflexivity].
      * destruct (checker_of req k) as [[c|]|]; [| |reflexivity].
        -- destruct (c e); cbn [negb]; [apply Hnext; reflexivity|reflexivity].
        -- apply Hnext. reflexivity.
Qed.

Lemma elems_walk_frame req opt keys :
  forall elems len required elems' e,
    elems_walk req opt keys elems len required = Some (elems', e) ->
    Forall2 same_or_hole elems elems'.
Proof.
  assert (Hsame : forall l, Forall2 same_or_hole l l).
  { induction l; constructor; [left; reflexivity|assumption]. }
  assert (Hkeep : forall x (w : option (list value * loop_end)) elems' e,
             keep_element x w = Some (elems', e) ->
             exists rest', elems' = x :: rest' /\ w = Some (rest', e)).
  { intros x [[rest' e1]|] elems' e H; [|discriminate].
    injection H as <- ->. eauto. }
  induction keys as [|k keys IH]; intros elems len required elems' e H.
  - cbn [elems_walk] in H. injection H as <- _. apply Hsame.
  - destruct elems as [|x rest]; cbn [elems_walk] in H.
    + injection H as <- _. constructor.
    + destruct (isEmpty x) eqn:Hx.
      * apply Hkeep in H as (rest' & -> & H).
        constructor; [right; auto|exact (IH _ _ _ _ _ H)].
      * destruct (checker_of opt k) as [[c|]|]; [| |discriminate H].
        -- destruct (c x).
           ++ apply Hkeep in H as (rest' & -> & H).
              constructor; [left; reflexivity|exact (IH _ _ _ _ _ H)].
           ++ injection H as <- _. apply Hsame.
        -- destruct (checker_of req k) as [[c|]|]; [| |discriminate H].
           ++ destruct (c x).
              ** apply Hkeep in H as (rest' & -> & H).
                 constructor; [left; reflexivity|exact (IH _ _ _ _ _ H)].
              ** injection H as <- _. apply Hsame.
           ++ apply Hkeep in H as (rest' & -> & H).
              constructor; [left; reflexivity|exact (IH _ _ _ _ _ H)].
Qed.

Lemma elems_walk_length req opt keys elems len required elems' e :
  elems_walk req opt keys elems len required = Some (elems', e) ->
  List.length elems' = List.length elems.
Proof.
  intro H. apply elems_walk_frame in H.
  induction H; cbn [List.length]; congruence.
Qed.

(** A second walk over the elements the first one left ends as the first
    one did, with the same counts, and leaves the elements as they are. *)
Lemma elems_walk_again req opt keys :
  forall elems len required elems' e,
    elems_walk req opt keys elems len required = Some (elems', e) ->
    forall len2 required2,
      elems_walk req opt keys elems' len2 required2
      = Some (elems',
              match e with
              | Returned answer => Returned answer
              | Finished a b =>
                  Finished (len2 - (len - a))%Z (required2 - (required - b))%Z
              end).
Proof.
  assert (Hkeep : forall x (w : option (list value * loop_end)) elems' e,
             keep_element x w = Some (elems', e) ->
             exists rest', elems' = x :: rest' /\ w = Some (rest', e)).
  { intros x [[rest' e1]|] elems' e H; [|discriminate].
    injection H as <- ->. eauto. }
  induction keys as [|k keys IH]; intros elems len required elems' e H len2 required2.
  - cbn [elems_walk] in H. injection H as <- <-. cbn [elems_walk].
    apply same_end; lia.
  - destruct elems as [|x rest]; cbn [elems_walk] in H.
    + injection H as <- <-. cbn [elems_walk]. apply same_end; lia.
    + destruct (isEmpty x) eqn:Hx.
      * apply Hkeep in H as (rest' & -> & H).
        cbn [elems_walk]. replace (isEmpty VUndefined) with true by reflexivity.
        rewrite (IH _ _ _ _ _ H). cbn [keep_element].
        destruct e; [reflexivity|apply same_end; lia].
      * destruct (checker_of opt k) as [[c|]|] eqn:Hopt; [| |discriminate H].
        -- destruct (c x) eqn:Hc.
           ++ apply Hkeep in H as (rest' & -> & H).
              cbn [elems_walk]. rewrite Hx, Hopt, Hc.
              rewrite (IH _ _ _ _ _ H). cbn [keep_element].
              destruct e; [reflexivity|apply same_end; lia].
           ++ injection H as <- <-. cbn [elems_walk]. rewrite Hx, Hopt, Hc.
              reflexivity.
        -- destruct (checker_of req k) as [[c|]|] eqn:Hreq; [| |discriminate H].
           ++ destruct (c x) eqn:Hc.
              ** apply Hkeep in H as (rest' & -> & H).
                 cbn [elems_walk]. rewrite Hx, Hopt, Hreq, Hc.
                 rewrite (IH _ _ _ _ _ H). cbn [keep_element].
                 destruct e; [reflexivity|apply same_end; lia].
              ** injection H as <- <-. cbn [elems_walk].
                 rewrite Hx, Hopt, Hreq, Hc. reflexivity.
           ++ apply Hkeep in H as (rest' & -> & H).
              cbn [elems_walk]. rewrite Hx, Hopt, Hreq.
              rewrite (IH _ _ _ _ _ H). cbn [keep_element].
              destruct e; [reflexivity|apply same_end; lia].
Qed.

(** [isObjOfHelper] on an array, by the walk over its elements and the walk
    over its properties. *)
Lemma isObjOfHelper_array exact elems own req opt :
  NoDup (Object_keys (VArray elems own)) ->
  isObjOfHelper exact (VArray elems own) req opt
  = match elems_walk req opt (index_keys (List.length elems)) elems
            (Z.of_nat (List.length (Object_keys (VArray elems own))))
            (Z.of_nat (List.length req)) with
    | None => None
    | Some (elems', Returned answer) => Some (answer, VArray elems' own)
    | Some (elems', Finished len1 required1) =>
        match shape_walk req opt own len1 required1 with
        | None => None
        | Some (own', Returned answer) => Some (answer, VArray elems' own')
        | Some (own', Finished len2 required2) =>
            Some (Z.eqb required2 0 && (Z.eqb len2 0 || negb exact),
                  VArray elems' own')
        end
    end.
Proof.
  intro Hnd. unfold isObjOfHelper.
  replace (isObjectNonNull (VArray elems own)) with true by reflexivity.
  cbn [negb]. cbv zeta.
  set (len := Z.of_nat (List.length (Object_keys (VArray elems own)))).
  cbn [Object_keys] in *.
  pose proof (isObjOfHelper_loop_elements req opt own (string_keys own) elems []
                [] (index_keys (List.length elems)) len
                (Z.of_nat (List.length req)) eq_refl eq_refl) as Hloop.
  cbn [app] in Hloop. rewrite Hloop by (apply NoDup_app_remove_r in Hnd; exact Hnd).
  destruct (elems_walk _ _ _ _ _ _) as [[elems' [answer|len1 required1]]|] eqn:Hwalk;
    [reflexivity| |reflexivity].
  pose proof (elems_walk_length _ _ _ _ _ _ _ _ Hwalk) as Hlen.
  pose proof (isObjOfHelper_loop_own req opt (VArray elems' []) eq_refl own []
                len1 required1) as Hown.
  cbn [with_own app elements] in Hown. rewrite Hown.
  - destruct (shape_walk _ _ _ _ _) as [[own' [answer|len2 required2]]|];
      reflexivity.
  - apply NoDup_app_remove_l in Hnd. exact Hnd.
  - intros k Hk. rewrite Hlen. apply position_none. intro Hin.
    revert Hnd Hin Hk. clear. generalize (index_keys (List.length elems)).
    intros l Hnd Hin Hk. induction l as [|x l IH]; [contradiction|].
    cbn [app] in Hnd. inversion_clear Hnd as [|? ? Hx Hl].
    destruct Hin as [->|Hin]; [|exact (IH Hl Hin)].
    apply Hx. apply in_or_app. right. exact Hk.
  - intros; reflexivity.
Qed.

Lemma NoDup_app_incl {A : Type} (a b b' : list A) :
  NoDup (a ++ b) -> NoDup b' -> (forall x, In x b' -> In x b) -> NoDup (a ++ b').
Proof.
  intros Hnd Hb' Hincl. induction a as [|x a IH]; [exact Hb'|].
  cbn [app] in *. inversion_clear Hnd as [|? ? Hx Hrest].
  constructor; [|exact (IH Hrest)].
  intro H. apply Hx. apply in_app_or in H as [H|H]; apply in_or_app; auto.
Qed.

Lemma not_array_elements obj own :
  isArray obj = false -> elements obj = [] /\ elements (with_own obj own) = [].
Proof. destruct obj; try discriminate; intros _; split; reflexivity. Qed.

Lemma not_array_rebuilt obj own :
  isArray obj = false -> rebuilt obj [] own = with_own obj own.
Proof. destruct obj; try discriminate; reflexivity. Qed.

Lemma same_or_hole_refl l : Forall2 same_or_hole l l.
Proof. induction l; constructor; [left; reflexivity|assumption]. Qed.

(** X3. [isObjOfHelper] never adds or changes a property or an element, and
    deletes only properties under a string key and elements that hold
    [undefined] or [null] (a deleted element leaves a hole); this whatever
    it answers, on every value, arrays included.  It answers on every value
    whose keys are none of the names of [Object.prototype]. *)
Theorem isObjOfHelper_deletes_only_empty_fields :
  forall exact obj req opt,
    NoDup (Object_keys obj) ->
    (plain_keys obj = true ->
     exists answer obj', isObjOfHelper exact obj req opt = Some (answer, obj'))
    /\ (forall answer obj',
           isObjOfHelper exact obj req opt = Some (answer, obj') ->
           obj' = rebuilt obj (elements obj') (own_props obj')
           /\ Forall2 same_or_hole (elements obj) (elements obj')
           /\ (forall kv, In kv (own_props obj') -> In kv (own_props obj))
           /\ (forall kv, In kv (own_props obj) -> kept kv = true ->
                          In kv (own_props obj'))).
Proof.
  intros exact obj req opt Hnd. split; [apply isObjOfHelper_answers|].
  intros answer obj' H.
  destruct (isArray obj) eqn:Harr.
  - destruct obj; try discriminate Harr.
    rewrite (isObjOfHelper_array _ _ _ _ _ Hnd) in H.
    destruct (elems_walk _ _ _ _ _ _) as [[elems' e1]|] eqn:Hwalk;
      [|discriminate H].
    pose proof (elems_walk_frame _ _ _ _ _ _ _ _ Hwalk) as Hframe.
    destruct e1 as [a|len1 required1].
    + injection H as <- <-. cbn [rebuilt elements own_props]. auto.
    + destruct (shape_walk req opt own len1 required1) as [[own' e2]|] eqn:Hown;
        [|discriminate H].
      destruct (shape_walk_frame _ _ _ _ _ _ _ Hown) as [Hin Hkept].
      destruct e2; injection H as <- <-; cbn [rebuilt elements own_props]; auto.
  - destruct (isObjOfHelper_cases _ _ _ _ _ _ Harr Hnd H)
      as [(Hobj & _ & ->)|(Hobj & own' & e & Hwalk & -> & _)].
    + repeat split; auto; [|apply same_or_hole_refl].
      destruct obj; try reflexivity; discriminate.
    + destruct (object_not_array obj Hobj Harr) as (_ & _ & Hown).
      destruct (Hown own') as (_ & _ & Hprops & Hagain & _).
      destruct (not_array_elements obj own' Harr) as [-> ->].
      rewrite Hprops, (not_array_rebuilt _ _ Harr).
      split; [reflexivity|]. split; [constructor|].
      exact (shape_walk_frame _ _ _ _ _ _ _ Hwalk).
Qed.

Lemma isObjOfHelper_again exact obj req opt answer obj' :
  NoDup (Object_keys obj) ->
  isObjOfHelper exact obj req opt = Some (answer, obj') ->
  isObjOfHelper exact obj' req opt = Some (answer, obj').
Proof.
  intros Hnd H.
  destruct (isArray obj) eqn:Harr.
  - destruct obj; try discriminate Harr.
    pose proof H as H0.
    rewrite (isObjOfHelper_array _ _ _ _ _ Hnd) in H.
    destruct (elems_walk _ _ _ _ _ _) as [[elems' e1]|] eqn:Hwalk;
      [|discriminate H].
    pose proof (elems_walk_length _ _ _ _ _ _ _ _ Hwalk) as Hlen.
    pose proof (elems_walk_again _ _ _ _ _ _ _ _ Hwalk) as Hagain.
    assert (Hnd' : forall own',
               NoDup (string_keys own') ->
               (forall k, In k (string_keys own') -> In k (string_keys own)) ->
               NoDup (Object_keys (VArray elems' own'))).
    { intros own' Hnd' Hincl. cbn [Object_keys] in *. rewrite Hlen.
      exact (NoDup_app_incl _ _ _ Hnd Hnd' Hincl). }
    destruct e1 as [a|len1 required1].
    + injection H as <- <-.
      rewrite isObjOfHelper_array
        by (apply Hnd'; [cbn [Object_keys] in Hnd;
                         apply NoDup_app_remove_l in Hnd; exact Hnd|auto]).
      rewrite Hlen, Hagain. reflexivity.
    + destruct (shape_walk req opt own len1 required1) as [[own' e2]|] eqn:Hown;
        [|discriminate H].
      destruct (shape_walk_keys _ _ _ _ _ _ _ Hown) as [Hincl Hkeep].
      assert (Hobj' : obj' = VArray elems' own' /\
                      answer = match e2 with
                               | Returned a => a
                               | Finished len2 required2 =>
                                   Z.eqb required2 0 && (Z.eqb len2 0 || negb exact)
                               end).
      { destruct e2; injection H as <- <-; auto. }
      destruct Hobj' as [-> ->].
      rewrite isObjOfHelper_array
        by (apply Hnd'; [apply Hkeep; cbn [Object_keys] in Hnd;
                         apply NoDup_app_remove_l in Hnd; exact Hnd|exact Hincl]).
      rewrite Hlen, Hagain.
      rewrite (shape_walk_again _ _ _ _ _ _ _ Hown).
      destruct e2 as [a|len2 required2]; [reflexivity|].
      destruct (shape_walk_finished _ _ _ _ _ _ _ _ Hown) as (_ & -> & -> & _).
      cbn [Object_keys]. rewrite !length_app, Hlen.
      f_equal. f_equal. f_equal; [f_equal; lia|].
      f_equal. f_equal. lia.
  - destruct (isObjOfHelper_cases _ _ _ _ _ _ Harr Hnd H)
      as [(Hobj & -> & ->)|(Hobj & own' & e & Hwalk & -> & ->)].
    + exact H.
    + destruct (object_not_array obj Hobj Harr) as (Hkeys & _ & Hown).
      destruct (Hown own') as (Hobj' & Harr' & Hprops & Hagain & _).
      rewrite Hkeys in Hnd.
      destruct (shape_walk_keys _ _ _ _ _ _ _ Hwalk) as [_ Hnd'].
      destruct (object_not_array _ Hobj' Harr') as (Hkeys' & _).
      rewrite isObjOfHelper_walk; auto;
        [|rewrite Hkeys', Hprops; auto].
      rewrite Hprops.
      rewrite (shape_walk_again _ _ _ _ _ _ _ Hwalk).
      destruct e as [a|len' required']; rewrite Hagain; [reflexivity|].
      destruct (shape_walk_finished _ _ _ _ _ _ _ _ Hwalk) as (Hleft & -> & -> & _).
      assert (Hlen : (Z.of_nat (List.length (string_keys own'))
                      - Z.of_nat (List.length (string_keys own'))
                      + Z.of_nat (List.length (unlisted req opt (own_props obj)))
                      = Z.of_nat (List.length (string_keys (own_props obj)))
                        - Z.of_nat (List.length (string_keys (own_props obj)))
                        + Z.of_nat (List.length (unlisted req opt (own_props obj))))%Z)
        by lia.
      rewrite Hlen. reflexivity.
Qed.

(** X4. A second call of [isObjOfHelper] on the value the first call left
    gives the same answer and changes nothing any more; this on every
    value, arrays included.  On a value whose keys are none of the names of
    [Object.prototype] the first call answers, and so does the second. *)
Theorem isObjOfHelper_idempotent :
  forall exact obj req opt,
    NoDup (Object_keys obj) ->
    (plain_keys obj = true ->
     exists answer obj',
       isObjOfHelper exact obj req opt = Some (answer, obj')
       /\ isObjOfHelper exact obj' req opt = Some (answer, obj'))
    /\ (forall answer obj',
           isObjOfHelper exact obj req opt = Some (answer, obj') ->
           isObjOfHelper exact obj' req opt = Some (answer, obj')).
Proof.
  intros exact obj req opt Hnd. split.
  - intro Hplain.
    destruct (isObjOfHelper_answers exact obj req opt Hplain) as (answer & obj' & H).
    exists answer, obj'. split; [exact H|].
    exact (isObjOfHelper_again _ _ _ _ _ _ Hnd H).
  - intros answer obj' H. exact (isObjOfHelper_again _ _ _ _ _ _ Hnd H).
Qed.

Lemma isObjOfHelper_accepts obj req opt :
  isObjectNonNull obj = true ->
  isArray obj = false ->
  NoDup (Object_keys obj) ->
  plain_keys obj = true ->
  NoDup (names req) ->
  (forall k, In k (names req) -> own_checker opt k = None) ->
  exists obj',
    forall exact,
    exists answer,
      isObjOfHelper exact obj req opt = Some (answer, obj')
      /\ (answer = true <-> shape_accepted exact obj req opt).
Proof.
  intros Hobj Harr Hnd Hplain Hreq Hdisjoint.
  destruct (object_not_array obj Hobj Harr) as (Hkeys & _).
  unfold plain_keys in Hplain. rewrite Hkeys in Hnd, Hplain.
  assert (Hhelper : forall exact,
             isObjOfHelper exact obj req opt
             = match shape_walk req opt (own_props obj)
                       (Z.of_nat (List.length (string_keys (own_props obj))))
                       (Z.of_nat (List.length req)) with
               | None => None
               | Some (own', Returned answer) => Some (answer, with_own obj own')
               | Some (own', Finished len' required') =>
                   Some (Z.eqb required' 0 && (Z.eqb len' 0 || negb exact),
                         with_own obj own')
               end).
  { intro exact. apply isObjOfHelper_walk; auto. rewrite Hkeys. exact Hnd. }
  set (own := own_props obj) in *.
  assert (Hlive : forall k v, live_field obj k = Some v <->
                              In (KStr k, v) own /\ isEmpty v = false).
  { intros k v. unfold live_field. fold own. split.
    - destruct (assoc (KStr k) own) as [x|] eqn:Hx; [|discriminate].
      destruct (isEmpty x) eqn:He; [discriminate|].
      intro H. injection H as <-. split; [apply assoc_in; exact Hx|exact He].
    - intros [Hin He]. rewrite (in_assoc _ _ _ Hnd Hin), He. reflexivity. }
  destruct (shape_walk_answers req opt own Hplain
              (Z.of_nat (List.length (string_keys own)))
              (Z.of_nat (List.length req))) as (own' & e & Hwalk).
  exists (with_own obj own'). intro exact. rewrite Hhelper, Hwalk.
  destruct e as [answer|len' required'].
  - (* a checker has refused a field *)
    destruct (shape_walk_returned _ _ _ _ _ _ _ Hwalk) as [-> Hbad].
    exists false. split; [reflexivity|].
    split; [discriminate|].
    intros (HR & HO & _). exfalso.
    assert (Hok : forallb (field_ok req opt) own = true).
    { apply forallb_forall. intros [[k|s] v] Hin; [|reflexivity].
      cbn [field_ok]. destruct (isEmpty v) eqn:He; [reflexivity|].
      assert (Hv : live_field obj k = Some v) by (apply Hlive; auto).
      destruct (own_checker opt k) as [c|] eqn:Hopt; [exact (HO _ _ _ Hopt Hv)|].
      destruct (own_checker req k) as [c|] eqn:Hc; [|reflexivity].
      destruct (HR _ _ (own_checker_in _ _ _ Hc)) as (v' & Hv' & Hcv).
      rewrite Hv in Hv'. injection Hv' as <-. exact Hcv. }
    congruence.
  - destruct (shape_walk_finished _ _ _ _ _ _ _ _ Hwalk) as (_ & -> & -> & Hok).
    eexists. split; [reflexivity|].
    rewrite forallb_forall in Hok.
    pose proof (hits_NoDup req opt own Hnd) as Hhits.
    assert (Hsub : incl (hits req opt own) (names req)).
    { intros x Hx. destruct (hits_in _ _ _ _ Hx) as (v & c & _ & _ & _ & Hc).
      exact (own_checker_listed _ _ _ Hc). }
    pose proof (NoDup_incl_length Hhits Hsub) as Hle.
    unfold names in Hle. rewrite length_map in Hle.
    split.
    + (* accepted: the three conditions hold *)
      intro Hanswer. apply andb_prop in Hanswer as [Hzero Hexact].
      apply Z.eqb_eq in Hzero.
      assert (Hall : incl (names req) (hits req opt own)).
      { apply NoDup_length_incl; [exact Hhits| |exact Hsub].
        unfold names. rewrite length_map. lia. }
      repeat split.
      * intros k c Hin.
        assert (Hk : In k (names req)) by (apply (in_map fst) in Hin; exact Hin).
        destruct (hits_in _ _ _ _ (Hall k Hk)) as (v & c' & Hv & He & Hopt & Hc).
        rewrite (in_own_checker _ _ _ Hreq Hin) in Hc. injection Hc as <-.
        exists v. split; [apply Hlive; auto|].
        specialize (Hok _ Hv). cbn [field_ok] in Hok.
        rewrite He, Hopt, (in_own_checker _ _ _ Hreq Hin) in Hok. exact Hok.
      * intros k c v Hopt Hv. apply Hlive in Hv as [Hv He].
        specialize (Hok _ Hv). cbn [field_ok] in Hok.
        rewrite He, Hopt in Hok. exact Hok.
      * intros -> k v Hv. apply Hlive in Hv as [Hv He].
        cbn [negb] in Hexact. rewrite orb_false_r in Hexact.
        apply Z.eqb_eq in Hexact.
        destruct (own_checker opt k) as [c|] eqn:Hopt;
          [right; exact (own_checker_listed _ _ _ Hopt)|].
        destruct (own_checker req k) as [c|] eqn:Hc;
          [left; exact (own_checker_listed _ _ _ Hc)|].
        pose proof (in_unlisted req opt own k v Hv He Hopt Hc) as Hun.
        destruct (unlisted req opt own); [contradiction|].
        cbn [List.length] in Hexact. lia.
    + (* the three conditions hold: accepted *)
      intros (HR & HO & HE).
      assert (Hall : incl (names req) (hits req opt own)).
      { intros k Hk. apply in_map_iff in Hk as ([k' c] & <- & Hin).
        destruct (HR _ _ Hin) as (v & Hv & _). apply Hlive in Hv as [Hv He].
        apply (in_hits req opt own k' v c Hv He).
        - apply Hdisjoint. apply (in_map fst) in Hin. exact Hin.
        - exact (in_own_checker _ _ _ Hreq Hin). }
      pose proof (NoDup_incl_length Hreq Hall) as Hge.
      unfold names in Hge. rewrite length_map in Hge.
      apply andb_true_intro. split; [apply Z.eqb_eq; lia|].
      destruct exact; [|apply orb_true_r].
      rewrite orb_false_r. apply Z.eqb_eq.
      destruct (unlisted req opt own) as [|k rest] eqn:Hun;
        [cbn [List.length]; lia|].
      exfalso.
      assert (Hk : In k (unlisted req opt own)) by (rewrite Hun; left; reflexivity).
      destruct (unlisted_in _ _ _ _ Hk) as (v & Hv & He & Hopt & Hc).
      assert (Hlv : live_field obj k = Some v) by (apply Hlive; auto).
      destruct (HE eq_refl k v Hlv) as [Hl|Hl].
      * exact (own_checker_unlisted _ _ Hc Hl).
      * exact (own_checker_unlisted _ _ Hopt Hl).
Qed.

(** X1. What [isObjectOfType] and [isObjectOfExactType] answer, for an
    object that is no array, whose keys are no names of [Object.prototype],
    and tables that share no name.  Both answer and leave the same object.
    They accept exactly when every required name is there with a value
    other than [undefined] and [null] that its checker accepts, and every
    optional name that is there with such a value is accepted by its
    checker; the exact check asks moreover that every name that is there
    with such a value is listed. *)
Theorem isObjectOfType_accepts_iff :
  forall obj req opt,
    isObjectNonNull obj = true ->
    isArray obj = false ->
    NoDup (Object_keys obj) ->
    plain_keys obj = true ->
    NoDup (names req) ->
    (forall k, In k (names req) -> own_checker opt k = None) ->
    exists loose strict obj',
      isObjectOfType obj req opt = Some (loose, obj')
      /\ isObjectOfExactType obj req opt = Some (strict, obj')
      /\ (loose = true <-> shape_accepted false obj req opt)
      /\ (strict = true <-> shape_accepted true obj req opt).
Proof.
  intros obj req opt Hobj Harr Hnd Hplain Hreq Hdisjoint.
  destruct (isObjOfHelper_accepts obj req opt Hobj Harr Hnd Hplain Hreq Hdisjoint)
    as (obj' & H).
  destruct (H false) as (loose & Hloose & Hl).
  destruct (H true) as (strict & Hstrict & Hs).
  exists loose, strict, obj'. auto.
Qed.

(** X6. [isPartialOf] is the exact check without required names: the same
    answer and the same object left, for every value. *)
Theorem isPartialOf_is_exact_check_without_required :
  forall obj fields,
    isPartialOf obj fields = isObjectOfExactType obj [] fields.
Proof.
  intros obj fields. unfold isPartialOf, isObjectOfExactType, isObjOfHelper.
  destruct (isObjectNonNull obj); [|reflexivity]. cbn [negb]. cbv zeta.
  assert (Hloop : forall keys o len,
             isPartialOf_loop fields keys o len
             = isObjOfHelper_loop [] fields keys o len 0).
  { induction keys as [|k keys IH]; intros o len; [reflexivity|].
    cbn [isPartialOf_loop isObjOfHelper_loop].
    destruct (negb (has_key o k)); [apply IH|].
    destruct (isUndefined (at_key o k) || isNull (at_key o k)); [apply IH|].
    unfold checker_of. cbn [own_checker].
    destruct (own_checker fields k) as [c|].
    - destruct (negb (c (at_key o k))); [reflexivity|apply IH].
    - destruct (existsb (String.eqb k) Object_prototype_names);
        [reflexivity|apply IH]. }
  rewrite Hloop. cbn [List.length Z.of_nat].
  assert (Hzero : forall keys o len obj' len' required',
             isObjOfHelper_loop [] fields keys o len 0
             = Some (obj', Finished len' required') ->
             required' = 0%Z).
  { induction keys as [|k keys IH]; intros o len obj' len' required';
      cbn [isObjOfHelper_loop].
    - intro H. injection H as _ _ <-. reflexivity.
    - destruct (negb (has_key o k)); [apply IH|].
      destruct (isUndefined (at_key o k) || isNull (at_key o k)); [apply IH|].
      unfold checker_of. cbn [own_checker].
      destruct (own_checker fields k) as [c|].
      + destruct (negb (c (at_key o k))); [discriminate|apply IH].
      + destruct (existsb (String.eqb k) Object_prototype_names);
          [discriminate|apply IH]. }
  destruct (isObjOfHelper_loop _ _ _ _ _ _)
    as [[obj' [answer|len' required']]|] eqn:Hrun; try reflexivity.
  rewrite (Hzero _ _ _ _ _ _ Hrun). cbn [Z.eqb negb andb].
  rewrite orb_false_r. reflexivity.
Qed.

(** ** [isSimpleObject] and [asSimpleObject] *)

Lemma Object_keys_are_strings (keys : list string) :
  forallb (chkOneOf isString isNumber) (map VString keys) = true.
Proof. induction keys as [|k keys IH]; [reflexivity|exact IH]. Qed.

(** [isSimpleObject] on an object that is no array: the check of the keys
    never refuses anything, and what is left is the check of the values of
    the own properties. *)
Lemma isSimpleObject_object x :
  isObjectNonNull x = true -> isArray x = false ->
  isSimpleObject x = forallb (fun kv => isSimpleObject (snd kv)) (own_props x).
Proof.
  intros Hobj Harr.
  destruct x; try discriminate Hobj; try discriminate Harr;
    cbn [isSimpleObject isNull isString isNumber isBoolean typeof String.eqb
           Ascii.eqb Bool.eqb orb isObjectNonNull own_props isArrayOf];
    rewrite Object_keys_are_strings; reflexivity.
Qed.

Lemma CreateDataProperty_forallb (p : propkey * value -> bool) own key v :
  forallb p own = true -> (forall k, p (k, v) = true) ->
  forallb p (CreateDataProperty own key v) = true.
Proof.
  intros Hown Hv. induction own as [|[k x] own IH]; cbn [CreateDataProperty forallb].
  - rewrite Hv. reflexivity.
  - cbn [forallb] in Hown. apply andb_prop in Hown as [Hx Hown].
    destruct (propkey_eqb key k); cbn [forallb].
    + rewrite Hv, Hown. reflexivity.
    + rewrite Hx, (IH Hown). reflexivity.
Qed.

Lemma asSimpleObject_primitive x def :
  isNull x || isString x || isNumber x || isBoolean x = true ->
  asSimpleObject x def = Some x.
Proof.
  intro H. destruct x; cbn [asSimpleObject]; rewrite H; reflexivity.
Qed.

Lemma asSimpleObject_object x def :
  isObjectNonNull x = true -> isArray x = false ->
  asSimpleObject x def
  = match asSimpleObject_properties (fun v => asSimpleObject v VNull)
            (own_props x) [] with
    | Some res => Some (VObject res)
    | None => None
    end.
Proof.
  intros Hobj Harr.
  destruct x; try discriminate Hobj; try discriminate Harr; reflexivity.
Qed.

Lemma primitive_is_simple x :
  isNull x || isString x || isNumber x || isBoolean x = true ->
  isSimpleObject x = true.
Proof.
  intro H. destruct x; try discriminate H; cbn in H |- *; try reflexivity.
  rewrite H. reflexivity.
Qed.

Lemma meets_proto_key_object x :
  isObjectNonNull x = true -> isArray x = false ->
  meets_proto_key x
  = existsb (fun kv =>
               match fst kv with
               | KStr k => String.eqb k "__proto__" || meets_proto_key (snd kv)
               | KSym _ => false
               end) (own_props x).
Proof.
  intros Hobj Harr.
  destruct x; try discriminate Hobj; try discriminate Harr; reflexivity.
Qed.

(** The loop over the properties, when every value is turned into a
    SimpleObject. *)
Lemma asSimpleObject_properties_simple (own : props) :
  Forall (fun kv => meets_proto_key (snd kv) = false ->
                    exists r, asSimpleObject (snd kv) VNull = Some r
                              /\ isSimpleObject r = true) own ->
  existsb (fun kv =>
             match fst kv with
             | KStr k => String.eqb k "__proto__" || meets_proto_key (snd kv)
             | KSym _ => false
             end) own = false ->
  forall res,
    forallb (fun kv => isSimpleObject (snd kv)) res = true ->
    exists res',
      asSimpleObject_properties (fun v => asSimpleObject v VNull) own res = Some res'
      /\ forallb (fun kv => isSimpleObject (snd kv)) res' = true.
Proof.
  induction 1 as [|[[k|s] v] own Hv _ IH]; intros Hproto res Hres;
    cbn [asSimpleObject_properties].
  - eauto.
  - cbn [existsb fst snd] in Hproto.
    apply orb_false_iff in Hproto as [Hk Hproto].
    apply orb_false_iff in Hk as [Hk Hv'].
    rewrite Hk. cbn [snd] in Hv. destruct (Hv Hv') as (r & -> & Hr).
    apply (IH Hproto). apply CreateDataProperty_forallb; [exact Hres|].
    intros k0. exact Hr.
  - cbn [existsb fst] in Hproto. exact (IH Hproto res Hres).
Qed.

Lemma asSimpleObject_simple :
  forall x def,
    isSimpleObject def = true ->
    meets_proto_key x = false ->
    exists r, asSimpleObject x def = Some r /\ isSimpleObject r = true.
Proof.
  assert (Hobject : forall x own def,
             isObjectNonNull x = true -> isArray x = false -> own_props x = own ->
             Pprops (fun x => forall def,
                         isSimpleObject def = true ->
                         meets_proto_key x = false ->
                         exists r, asSimpleObject x def = Some r
                                   /\ isSimpleObject r = true) own ->
             meets_proto_key x = false ->
             exists r, asSimpleObject x def = Some r /\ isSimpleObject r = true).
  { intros x own def Hobj Harr Hown IH Hproto.
    rewrite asSimpleObject_object by assumption.
    rewrite meets_proto_key_object in Hproto by assumption.
    rewrite Hown in *.
    destruct (asSimpleObject_properties_simple own) with (res := @nil (propkey * value))
      as (res' & -> & Hres'); [|exact Hproto|reflexivity|].
    - unfold Pprops in IH. rewrite Forall_forall in *.
      intros kv Hkv Hp. exact (IH kv Hkv VNull eq_refl Hp).
    - exists (VObject res'). split; [reflexivity|].
      rewrite isSimpleObject_object by reflexivity. exact Hres'. }
  induction x using value_nested_ind; intros def Hdef Hproto;
    try (eexists; split; [reflexivity|]; first [reflexivity|exact Hdef]).
  - (* number *)
    destruct (isNumber (VNumber n)) eqn:Hn.
    + exists (VNumber n). split.
      * apply asSimpleObject_primitive. cbn [isNull isString orb].
        rewrite Hn. reflexivity.
      * apply primitive_is_simple. cbn [isNull isString orb].
        rewrite Hn. reflexivity.
    + exists def. split; [|exact Hdef].
      cbn [asSimpleObject isNull isString isBoolean typeof String.eqb Ascii.eqb
             Bool.eqb orb]. rewrite Hn. reflexivity.
  - (* array *)
    exists (VArray (filter isSimpleObject elems) []). split; [reflexivity|].
    rewrite isSimpleObject_array. apply forallb_forall.
    intros e He. apply filter_In in He. tauto.
  - (* plain object *) exact (Hobject (VObject own) own def eq_refl eq_refl eq_refl H Hproto).
  - (* Map *) exact (Hobject (VMap entries own) own def eq_refl eq_refl eq_refl H0 Hproto).
  - (* Set *) exact (Hobject (VSet elems own) own def eq_refl eq_refl eq_refl H0 Hproto).
  - (* Date *) exact (Hobject (VDate t own) own def eq_refl eq_refl eq_refl H Hproto).
  - (* RegExp *)
    exact (Hobject (VRegExp source flags own) own def eq_refl eq_refl eq_refl H Hproto).
Qed.

(** X7. Whatever [asSimpleObject] is given, what it returns is a
    SimpleObject for [isSimpleObject], as soon as the default is one; and
    it returns, unless it meets an own key [__proto__]. *)
Theorem asSimpleObject_returns_a_SimpleObject :
  forall x def,
    isSimpleObject def = true ->
    meets_proto_key x = false ->
    exists r, asSimpleObject x def = Some r /\ isSimpleObject r = true.
Proof. exact asSimpleObject_simple. Qed.

(** X10. [isSimpleObject] accepts every Map, Set, Date and RegExp that has no
    property of its own, whatever it holds, and [asSimpleObject] turns each
    of them into the empty object. *)
Theorem isSimpleObject_accepts_bare_objects :
  forall x def,
    isObjectNonNull x = true ->
    isArray x = false ->
    own_props x = [] ->
    isSimpleObject x = true /\ asSimpleObject x def = Some (VObject []).
Proof.
  intros x def Hobj Harr Hown. split.
  - rewrite isSimpleObject_object, Hown by assumption. reflexivity.
  - rewrite asSimpleObject_object, Hown by assumption. reflexivity.
Qed.

Lemma strings_are_simple (l : list value) :
  forallb isString l = true -> forallb isSimpleObject l = true.
Proof.
  intro H. rewrite forallb_forall in *. intros x Hx.
  apply primitive_is_simple. rewrite (H x Hx).
  destruct (isNull x); reflexivity.
Qed.

(** X22. An array of strings and an object of strings are SimpleObjects:
    what [isArrayOfString] or [isObjectOfString] accepts, [isSimpleObject]
    accepts. *)
Theorem strings_make_SimpleObjects :
  forall obj,
    (isArrayOfString obj = true -> isSimpleObject obj = true)
    /\ (isObjectOfString obj = true -> isSimpleObject obj = true).
Proof.
  assert (Harray : forall elems own,
             forallb isString elems = true ->
             isSimpleObject (VArray elems own) = true).
  { intros elems own H. apply strings_are_simple in H.
    cbn [isSimpleObject isNull isString isNumber isBoolean typeof String.eqb
           Ascii.eqb Bool.eqb orb].
    rewrite H. reflexivity. }
  intro obj. split.
  - unfold isArrayOfString. destruct obj; try discriminate.
    cbn [isArrayOf]. apply Harray.
  - unfold isObjectOfString, isObjectOf. intro H.
    apply andb_prop in H as [H _].
    destruct (isObjectNonNull obj) eqn:Hobj; [|discriminate H].
    cbn [negb] in H. destruct (isArray obj) eqn:Harr.
    + destruct obj; try discriminate Harr.
      cbn [own_values] in H. rewrite forallb_app in H.
      apply andb_prop in H as [H _]. apply Harray. exact H.
    + rewrite isSimpleObject_object by assumption.
      assert (Hvals : own_values obj = map snd (own_props obj))
        by (destruct obj; try discriminate Harr; reflexivity).
      rewrite Hvals in H. apply strings_are_simple in H.
      rewrite forallb_mapped in H. exact H.
Qed.

Lemma filter_all {A : Type} (p : A -> bool) l :
  forallb p l = true -> filter p l = l.
Proof.
  induction l as [|x l IH]; cbn [forallb filter]; [reflexivity|].
  intro H. apply andb_prop in H as [Hx Hl]. rewrite Hx, (IH Hl). reflexivity.
Qed.

Lemma asSimpleObject_properties_settled (rec : value -> option value) (own : props) :
  unique_string_keys own = true ->
  existsb (String.eqb "__proto__") (string_keys own) = false ->
  Forall (fun kv => rec (snd kv) = Some (snd kv)) own ->
  forall res,
    (forall k, In k (string_keys own) ->
               existsb (fun kv => propkey_eqb (KStr k) (fst kv)) res = false) ->
    asSimpleObject_properties rec own res = Some (res ++ own).
Proof.
  intros Hu Hp H. induction H as [|[[k|s] v] own Hv _ IH]; intros res Hres;
    cbn [asSimpleObject_properties unique_string_keys] in *;
    [rewrite app_nil_r; reflexivity| |discriminate Hu].
  rewrite string_keys_cons_str in *. cbn [existsb] in Hp.
  apply orb_false_iff in Hp as [Hk Hp].
  apply andb_prop in Hu as [Hfresh Hu]. apply negb_true_iff in Hfresh.
  rewrite String.eqb_sym in Hk. rewrite Hk. cbn [snd] in Hv. rewrite Hv.
  rewrite CreateDataProperty_fresh by (apply Hres; left; reflexivity).
  rewrite (IH Hu Hp); [rewrite <- app_assoc; reflexivity|].
  intros k' Hk'. rewrite existsb_snoc, (Hres k' (or_intror Hk')).
  cbn [fst propkey_eqb orb].
  destruct (String.eqb k' k) eqn:E; [|reflexivity].
  apply String.eqb_eq in E. subst k'.
  assert (Hex : existsb (String.eqb k) (string_keys own) = true).
  { apply existsb_exists. exists k. split; [exact Hk'|apply String.eqb_refl]. }
  congruence.
Qed.

(** [asSimpleObject] gives a settled value back as it is. *)
Lemma asSimpleObject_fixed :
  forall x, settled x = true -> forall def, asSimpleObject x def = Some x.
Proof.
  induction x using value_nested_ind; intros Hs def; cbn [settled] in Hs;
    try discriminate Hs; try reflexivity.
  - (* number *)
    apply asSimpleObject_primitive. cbn [isNull isString isNumber orb].
    rewrite Hs. reflexivity.
  - (* array *)
    apply andb_prop in Hs as [Hown Hs]. destruct own; [|discriminate Hown].
    cbn [asSimpleObject isNull isString isNumber isBoolean typeof String.eqb
           Ascii.eqb Bool.eqb orb].
    rewrite (filter_all _ _ Hs). reflexivity.
  - (* plain object *)
    apply andb_prop in Hs as [Hs Hvals]. apply andb_prop in Hs as [Hu Hp].
    apply negb_true_iff in Hp.
    rewrite asSimpleObject_object by reflexivity. cbn [own_props].
    rewrite (asSimpleObject_properties_settled _ own Hu Hp);
      [reflexivity| |intros; reflexivity].
    rewrite forallb_forall in Hvals. unfold Pprops in H.
    rewrite Forall_forall in *. intros kv Hkv. apply H; auto.
Qed.

Lemma string_keys_CreateDataProperty (own : props) k v k' :
  existsb (String.eqb k') (string_keys (CreateDataProperty own (KStr k) v))
  = String.eqb k' k || existsb (String.eqb k') (string_keys own).
Proof.
  induction own as [|[[k0|s] x] own IH]; cbn [CreateDataProperty propkey_eqb].
  - reflexivity.
  - destruct (String.eqb k k0) eqn:E.
    + apply String.eqb_eq in E. subst k0.
      rewrite !string_keys_cons_str. cbn [existsb].
      destruct (String.eqb k' k); reflexivity.
    + rewrite !string_keys_cons_str. cbn [existsb]. rewrite IH.
      destruct (String.eqb k' k0), (String.eqb k' k); reflexivity.
  - rewrite !string_keys_cons_sym. exact IH.
Qed.

Lemma unique_string_keys_CreateDataProperty (own : props) k v :
  unique_string_keys own = true ->
  unique_string_keys (CreateDataProperty own (KStr k) v) = true.
Proof.
  induction own as [|[[k0|s] x] own IH];
    cbn [CreateDataProperty propkey_eqb unique_string_keys];
    [reflexivity| |discriminate].
  intro H. apply andb_prop in H as [Hfresh Hu].
  destruct (String.eqb k k0) eqn:E.
  - cbn [unique_string_keys]. rewrite Hfresh, Hu. reflexivity.
  - cbn [unique_string_keys]. rewrite (IH Hu), andb_true_r.
    rewrite string_keys_CreateDataProperty.
    apply negb_true_iff in Hfresh. rewrite Hfresh, orb_false_r.
    rewrite String.eqb_sym, E. reflexivity.
Qed.

Lemma asSimpleObject_properties_gives_settled (own : props) :
  Forall (fun kv => forall r, asSimpleObject (snd kv) VNull = Some r ->
                              settled r = true) own ->
  forall res res',
    settled (VObject res) = true ->
    asSimpleObject_properties (fun v => asSimpleObject v VNull) own res = Some res' ->
    settled (VObject res') = true.
Proof.
  induction 1 as [|[[k|s] v] own Hv _ IH]; intros res res' Hres;
    cbn [asSimpleObject_properties].
  - intro H. injection H as <-. exact Hres.
  - destruct (String.eqb k "__proto__") eqn:Hk; [discriminate|].
    cbn [snd] in Hv.
    destruct (asSimpleObject v VNull) as [r|]; [|discriminate].
    apply IH. cbn [settled] in *.
    apply andb_prop in Hres as [Hres Hvals]. apply andb_prop in Hres as [Hu Hp].
    rewrite (unique_string_keys_CreateDataProperty _ _ _ Hu).
    rewrite string_keys_CreateDataProperty, String.eqb_sym, Hk.
    cbn [orb]. rewrite Hp. cbn [andb].
    apply CreateDataProperty_forallb; [exact Hvals|].
    intros k0. exact (Hv r eq_refl).
  - apply IH. exact Hres.
Qed.

(** What [asSimpleObject] returns is settled, as soon as the default
    is. *)
Lemma asSimpleObject_gives_settled :
  forall x def r,
    settled def = true -> asSimpleObject x def = Some r -> settled r = true.
Proof.
  assert (Hobject : forall x own def r,
             isObjectNonNull x = true -> isArray x = false -> own_props x = own ->
             Pprops (fun x => forall def r,
                         settled def = true -> asSimpleObject x def = Some r ->
                         settled r = true) own ->
             asSimpleObject x def = Some r -> settled r = true).
  { intros x own def r Hobj Harr Hown IH.
    rewrite asSimpleObject_object by assumption. rewrite Hown.
    destruct (asSimpleObject_properties _ own []) as [res|] eqn:Hres;
      [|discriminate].
    intro H. injection H as <-.
    apply (asSimpleObject_properties_gives_settled own) with (res := []);
      [|reflexivity|exact Hres].
    unfold Pprops in IH. rewrite Forall_forall in *.
    intros kv Hkv r. apply (IH kv Hkv VNull r). reflexivity. }
  induction x using value_nested_ind; intros def r Hdef;
    try (intro Hr; injection Hr as <-; first [reflexivity|exact Hdef]).
  - (* number *)
    cbn [asSimpleObject isNull isString isBoolean typeof String.eqb Ascii.eqb
           Bool.eqb orb].
    destruct (isNumber (VNumber n)) eqn:Hn; intro Hr; injection Hr as <-;
      [exact Hn|exact Hdef].
  - (* array *)
    intro Hr. injection Hr as <-. cbn [settled no_props andb].
    apply forallb_forall. intros e He. apply filter_In in He. tauto.
  - exact (Hobject (VObject own) own def r eq_refl eq_refl eq_refl H).
  - exact (Hobject (VMap entries own) own def r eq_refl eq_refl eq_refl H0).
  - exact (Hobject (VSet elems own) own def r eq_refl eq_refl eq_refl H0).
  - exact (Hobject (VDate t own) own def r eq_refl eq_refl eq_refl H).
  - exact (Hobject (VRegExp source flags own) own def r eq_refl eq_refl eq_refl H).
Qed.

Lemma settled_is_simple : forall x, settled x = true -> isSimpleObject x = true.
Proof.
  induction x using value_nested_ind; intros Hs; cbn [settled] in Hs;
    try discriminate Hs; try reflexivity.
  - apply primitive_is_simple. cbn [isNull isString isNumber orb].
    rewrite Hs. reflexivity.
  - apply andb_prop in Hs as [Hown Hs]. destruct own; [|discriminate Hown].
    rewrite isSimpleObject_array. exact Hs.
  - apply andb_prop in Hs as [_ Hvals].
    rewrite isSimpleObject_object by reflexivity. cbn [own_props].
    rewrite forallb_forall in *. unfold Pprops in H. rewrite Forall_forall in H.
    intros kv Hkv. apply H; auto.
Qed.

(** X8. [asSimpleObject] gives plain data back as it is: every settled value
    is a SimpleObject, and is returned unchanged, whatever the default. *)
Theorem asSimpleObject_keeps_plain_data :
  forall x def,
    settled x = true ->
    isSimpleObject x = true /\ asSimpleObject x def = Some x.
Proof.
  intros x def Hs. split.
  - exact (settled_is_simple x Hs).
  - exact (asSimpleObject_fixed x Hs def).
Qed.

(** X9. [asSimpleObject] is idempotent: what it returns (under a settled
    default) is returned unchanged by a second call, whatever the default
    of that call. *)
Theorem asSimpleObject_idempotent :
  forall x def r def',
    settled def = true ->
    asSimpleObject x def = Some r ->
    asSimpleObject r def' = Some r.
Proof.
  intros x def r def' Hdef Hr.
  apply asSimpleObject_fixed.
  exact (asSimpleObject_gives_settled x def r Hdef Hr).
Qed.

(** ** Checkers of collections and the decoders of Maps and Sets *)

Lemma forallb_same {A : Type} (p q : A -> bool) l :
  (forall x, In x l -> p x = q x) -> forallb p l = forallb q l.
Proof.
  induction l as [|x l IH]; intro H; cbn [forallb]; [reflexivity|].
  rewrite (H x (or_introl eq_refl)), IH; [reflexivity|].
  intros y Hy. apply H. right. exact Hy.
Qed.

(** X11. A Map is a Map of [key] and [val] exactly when the payload
    [MapPickle] makes of it is an array of tuples of [key] and [val]; a Set
    is a Set of [chk] exactly when the payload [SetPickle] makes of it is an
    array of [chk]. *)
Theorem isMapOf_isSetOf_by_the_payload :
  forall (obj : value) (key val chk : typecheck),
    (isMap obj = true ->
     exists payload,
       MapPickle obj = Ok payload
       /\ isMapOf obj key val = isArrayOf payload (chk2TupleOf key val))
    /\ (isSet obj = true ->
        exists payload,
          SetPickle obj = Ok payload
          /\ isSetOf obj chk = isArrayOf payload chk).
Proof.
  intros obj key val chk. split.
  - destruct obj; try discriminate. intros _.
    eexists. split; [reflexivity|].
    cbn [isMapOf isArrayOf]. rewrite forallb_mapped.
    apply forallb_same. intros [k v] _.
    unfold chk2TupleOf, is2TupleOf. reflexivity.
  - destruct obj; try discriminate. intros _.
    eexists. split; reflexivity.
Qed.

Lemma Map_set_checked (key val : typecheck) entries k v :
  forallb (fun kv => key (fst kv) && val (snd kv)) entries = true ->
  key (stored_key k) = true -> val v = true ->
  forallb (fun kv => key (fst kv) && val (snd kv)) (Map_set entries k v) = true.
Proof.
  intros He Hk Hv. induction entries as [|[k' v'] entries IH];
    cbn [Map_set forallb fst snd] in *.
  - rewrite Hk, Hv. reflexivity.
  - apply andb_prop in He as [Hkv He]. apply andb_prop in Hkv as [Hk' Hv'].
    destruct (SameValueZero k k'); cbn [forallb fst snd].
    + rewrite Hk', Hv, He. reflexivity.
    + rewrite Hk', Hv', (IH He). reflexivity.
Qed.

Lemma Map_of_checked (key val : typecheck) pairs :
  (forall k, key k = true -> key (stored_key k) = true) ->
  forall seen,
    forallb (fun kv => key (fst kv) && val (snd kv)) seen = true ->
    forallb (fun kv => key (fst kv) && val (snd kv)) pairs = true ->
    forallb (fun kv => key (fst kv) && val (snd kv))
      (fold_left (fun entries kv => Map_set entries (fst kv) (snd kv)) pairs seen)
    = true.
Proof.
  intro Hstored.
  induction pairs as [|[k v] pairs IH]; intros seen Hs Hp; cbn [fold_left];
    [exact Hs|].
  cbn [forallb fst snd] in Hp. apply andb_prop in Hp as [Hkv Hp].
  apply andb_prop in Hkv as [Hk Hv].
  apply IH; [|exact Hp]. apply Map_set_checked; auto.
Qed.

Lemma Set_of_checked (chk : typecheck) items :
  (forall x, chk x = true -> chk (stored_key x) = true) ->
  forall seen,
    forallb chk seen = true -> forallb chk items = true ->
    forallb chk (fold_left Set_add items seen) = true.
Proof.
  intro Hstored.
  induction items as [|x items IH]; intros seen Hs Hi; cbn [fold_left];
    [exact Hs|].
  cbn [forallb] in Hi. apply andb_prop in Hi as [Hx Hi].
  apply IH; [|exact Hi]. unfold Set_add.
  destruct (existsb (SameValueZero x) seen); [exact Hs|].
  rewrite forallb_app, Hs. cbn [forallb]. rewrite (Hstored x Hx). reflexivity.
Qed.

(** X12. The decoders of Maps and Sets keep the types of the payload, for
    checkers that accept a zero as a Map and a Set store it (a key or an
    element that is the negative zero is stored as the positive one): from
    an array of tuples of [key] and [val], [MapUnpickle] makes a Map of
    [key] and [val] when [key] accepts what is stored for every key it
    accepts; from an array of [chk], [SetUnpickle] makes a Set of [chk]
    when [chk] accepts what is stored for every element it accepts. *)
Theorem MapUnpickle_SetUnpickle_keep_the_types :
  forall (payload : value) (key val chk : typecheck),
    ((forall k, key k = true -> key (stored_key k) = true) ->
     isArrayOf payload (chk2TupleOf key val) = true ->
     exists m, MapUnpickle payload = Ok m /\ isMapOf m key val = true)
    /\ ((forall x, chk x = true -> chk (stored_key x) = true) ->
        isArrayOf payload chk = true ->
        exists s, SetUnpickle payload = Ok s /\ isSetOf s chk = true).
Proof.
  intros payload key val chk. split.
  - intro Hstored. destruct payload; try discriminate. cbn [isArrayOf]. intro H.
    assert (H2 : forallb is2Tuple elems = true).
    { rewrite forallb_forall in *. intros e He. specialize (H e He).
      unfold chk2TupleOf, is2TupleOf in H.
      apply andb_prop in H as [H _]. apply andb_prop in H as [H _]. exact H. }
    unfold MapUnpickle. cbn [isArrayOf]. rewrite H2.
    eexists. split; [reflexivity|]. cbn [isMapOf]. unfold Map_of.
    apply Map_of_checked; [exact Hstored|reflexivity|].
    rewrite forallb_mapped. rewrite forallb_forall in *.
    intros e He. specialize (H e He). specialize (H2 e He).
    unfold chk2TupleOf, is2TupleOf in H. rewrite H2 in H. cbn [andb] in H.
    destruct e as [| | | | | | | |items ?| | | | |]; try discriminate H2.
    destruct items as [|k [|v [|? ?]]]; try discriminate H2. exact H.
  - intro Hstored. destruct payload; try discriminate. cbn [isArrayOf]. intro H.
    eexists. split; [reflexivity|]. cbn [isSetOf]. unfold Set_of.
    apply Set_of_checked; [exact Hstored|reflexivity|exact H].
Qed.

(** ** The registry *)

Lemma symbol_eqb_eq a b : symbol_eqb a b = true -> a = b.
Proof.
  destruct a as [k|i], b as [k'|j]; cbn [symbol_eqb]; try discriminate.
  - intro H. apply String.eqb_eq in H. congruence.
  - intro H. apply Nat.eqb_eq in H. congruence.
Qed.

Lemma symbol_eqb_refl a : symbol_eqb a a = true.
Proof.
  destruct a as [k|i]; cbn [symbol_eqb];
    [apply String.eqb_refl|apply Nat.eqb_refl].
Qed.

Lemma SymMap_get_set {A : Type} (m : list (symbol * A)) sym a sym' :
  SymMap_get (SymMap_set m sym a) sym'
  = if symbol_eqb sym' sym then Some a else SymMap_get m sym'.
Proof.
  induction m as [|[k old] m IH]; cbn [SymMap_set SymMap_get]; [reflexivity|].
  destruct (symbol_eqb sym k) eqn:E; cbn [SymMap_get].
  - apply symbol_eqb_eq in E. subst k.
    destruct (symbol_eqb sym' sym); reflexivity.
  - rewrite IH. destruct (symbol_eqb sym' k) eqn:E'; [|reflexivity].
    apply symbol_eqb_eq in E'. subst k.
    destruct (symbol_eqb sym' sym) eqn:E''; [|reflexivity].
    apply symbol_eqb_eq in E''. subst sym'.
    rewrite symbol_eqb_refl in E. discriminate E.
Qed.

Lemma RegisterForPickling_handlers reg tag fromString toString sym :
  getUnpickleHandler (RegisterForPickling reg tag fromString toString) sym
  = (if symbol_eqb sym tag then Some fromString else getUnpickleHandler reg sym)
  /\ getPickleHandler (RegisterForPickling reg tag fromString toString) sym
     = match toString with
       | Some f => if symbol_eqb sym tag then Some f else getPickleHandler reg sym
       | None => getPickleHandler reg sym
       end.
Proof.
  unfold RegisterForPickling, getUnpickleHandler, getPickleHandler,
    setUnpickleHandler, setPickleHandler, unpicklers, picklers.
  destruct toString as [f|]; cbn [to from]; rewrite ?SymMap_get_set; auto.
Qed.

(** X13. After [RegisterForPickling(tag, fromString, toString)], the decoder
    under [tag] is [fromString] and the encoder under [tag] is [toString];
    the handlers under every other symbol are what they were; and a call
    without [toString] leaves every encoder as it was, the one under [tag]
    too. *)
Theorem RegisterForPickling_lookup :
  forall reg tag fromString toString sym,
    getUnpickleHandler (RegisterForPickling reg tag fromString toString) sym
    = (if symbol_eqb sym tag then Some fromString else getUnpickleHandler reg sym)
    /\ getPickleHandler (RegisterForPickling reg tag fromString toString) sym
       = match toString with
         | Some f => if symbol_eqb sym tag then Some f else getPickleHandler reg sym
         | None => getPickleHandler reg sym
         end.
Proof. exact RegisterForPickling_handlers. Qed.

Lemma RegisterForPickling_builtins reg tag fromString toString :
  builtins_registered reg ->
  custom_tag tag = true ->
  builtins_registered (RegisterForPickling reg tag fromString toString).
Proof.
  intros [Hto Hfrom] Htag. unfold custom_tag in Htag.
  cbn [theUnpicklers forallb fst] in Htag.
  repeat match goal with
         | H : _ && _ = true |- _ => apply andb_prop in H as [? H]
         end.
  repeat match goal with
         | H : negb _ = true |- _ => apply negb_true_iff in H
         end.
  split.
  - unfold thePicklers in *. 
    repeat match goal with
           | H : Forall _ (_ :: _) |- _ => inversion_clear H
           end.
    repeat constructor; cbn [fst snd] in *;
      rewrite (proj2 (RegisterForPickling_handlers _ _ _ _ _));
      destruct toString; try assumption;
      match goal with
      | H : symbol_eqb ?s tag = false |- context [symbol_eqb ?s tag] => rewrite H
      end; assumption.
  - unfold theUnpicklers in *.
    repeat match goal with
           | H : Forall _ (_ :: _) |- _ => inversion_clear H
           end.
    repeat constructor; cbn [fst snd] in *;
      rewrite (proj1 (RegisterForPickling_handlers _ _ _ _ _));
      match goal with
      | H : symbol_eqb ?s tag = false |- context [symbol_eqb ?s tag] => rewrite H
      end; assumption.
Qed.

(** X14. Registering handlers under a tag that is none of the six built-in
    tags keeps the built-in ones, so that every faithful value still makes
    the round trip under the new registry. *)
Theorem RegisterForPickling_keeps_the_round_trip :
  forall reg tag fromString toString,
    builtins_registered reg ->
    custom_tag tag = true ->
    builtins_registered (RegisterForPickling reg tag fromString toString)
    /\ forall v fuel,
         faithful v = true -> need v <= fuel ->
         round_trips (RegisterForPickling reg tag fromString toString) fuel v.
Proof.
  intros reg tag fromString toString Hreg Htag.
  pose proof (RegisterForPickling_builtins reg tag fromString toString Hreg Htag)
    as Hreg'.
  split; [exact Hreg'|].
  intros v fuel Hf Hfuel.
  destruct (stable_passes _ v fuel Hreg' (faithful_is_stable v Hf)
              (faithful_has_text v Hf) Hfuel) as (text & _ & Hp & Hu & _).
  rewrite (faithful_read_back v Hf) in Hu.
  exists text. auto.
Qed.

(** ** Custom types *)

(** X15. The round trip of a value with a registered encoder and decoder.
    When the encoder of [obj] returns [data], a stable value with a text,
    [Pickle] writes the envelope of [data] under the key of the tag, and
    [Unpickle] returns what the decoder makes of [data] as it is read back,
    provided [isSimpleObject] accepts that and the decoder does not return
    [undefined]. *)
Theorem Unpickle_Pickle_custom_type :
  forall reg obj sym key toFlat fromFlat data res fuel,
    builtins_registered reg ->
    getPickler reg obj = Some (sym, toFlat) ->
    truthy_key (Symbol_keyFor sym) = Some key ->
    toFlat obj = Ok data ->
    stable data = true ->
    has_text data = true ->
    need data <= S fuel ->
    isSimpleObject (read_back data) = true ->
    getUnpickler reg key = Some fromFlat ->
    fromFlat (read_back data) = Ok res ->
    isUndefined res = false ->
    exists payload,
      text_of data = Some payload
      /\ Pickle reg (S (S fuel)) obj = Ok (Some (envelope key payload))
      /\ Unpickle reg (envelope key payload) = Ok res.
Proof.
  intros reg obj sym key toFlat fromFlat data res fuel
         Hreg Hp Hkey Hto Hs Ht Hfuel Hsimple Hun Hfrom Hres.
  destruct (stable_passes reg data (S fuel) Hreg Hs Ht Hfuel)
    as (payload & Htext & Hwrite & Hread & _).
  exists payload. split; [exact Htext|]. split.
  - unfold Pickle, JSON_stringify in *.
    rewrite (SerializeJSONProperty_envelope reg fuel obj sym toFlat key data Hp Hkey Hto).
    rewrite Hwrite. reflexivity.
  - unfold Unpickle, JSON_parse in *. rewrite JSON_value_envelope.
    rewrite (Internalize_envelope reg key _ (read_back data) fromFlat Hread
               (read_back_defined data) Hun).
    rewrite Hsimple, Hfrom. cbn [bind]. rewrite Hres. reflexivity.
Qed.

(** X16. [Pickle] writes for a value with an encoder the very text it writes
    for the plain object that has the shape of its envelope; the text does
    not tell the two apart. *)
Theorem Pickle_of_tagged_is_Pickle_of_its_envelope :
  forall reg v sym toFlat key data fuel,
    getPickler reg v = Some (sym, toFlat) ->
    truthy_key (Symbol_keyFor sym) = Some key ->
    toFlat v = Ok data ->
    Pickle reg (S (S fuel)) v = Pickle reg (S (S fuel)) (MakeFlat key data).
Proof.
  intros reg v sym toFlat key data fuel Hp Hkey Hto.
  unfold Pickle, JSON_stringify.
  rewrite (SerializeJSONProperty_envelope reg fuel v sym toFlat key data Hp Hkey Hto).
  rewrite SerializeJSONProperty_MakeFlat. reflexivity.
Qed.

(** X17. What comes back.  For a stable value that has a text, [Unpickle]
    makes [read_back v] of the text [Pickle] wrote for [v]: [null] for the
    [undefined], NaN and infinite elements of arrays, [0] for the negative
    zero, the record of the envelope for an invalid Date and for a Set or a
    Map that holds a BigInt or a symbol. *)
Theorem Unpickle_Pickle_is_read_back :
  forall reg v fuel,
    builtins_registered reg ->
    stable v = true ->
    has_text v = true ->
    need v <= fuel ->
    exists text,
      Pickle reg fuel v = Ok (Some text)
      /\ Unpickle reg text = Ok (read_back v).
Proof.
  intros reg v fuel Hreg Hs Ht Hfuel.
  destruct (stable_passes reg v fuel Hreg Hs Ht Hfuel) as (text & _ & Hp & Hu & _).
  exists text. auto.
Qed.

(** ** The built-in decoders *)

(** X19. A RegExp envelope whose source or flags the host refuses makes
    [Unpickle] throw the SyntaxError of [new RegExp]: [RegexUnpickle] does
    not catch it. *)
Theorem Unpickle_throws_on_a_refused_RegExp :
  forall reg source flags,
    getUnpickler reg "freik.RegExp" = Some RegexUnpickle ->
    RegExp_new source flags = None ->
    Unpickle reg (envelope "freik.RegExp"
                    (JObject [("source", JString source); ("flags", JString flags)]))
    = Throw SyntaxError.
Proof.
  intros reg source flags Hun Hhost.
  unfold Unpickle, JSON_parse. rewrite JSON_value_envelope.
  rewrite (Internalize_envelope reg _ _
             (VObject [(KStr "source", VString source);
                       (KStr "flags", VString flags)])
             RegexUnpickle); [|reflexivity|reflexivity|exact Hun].
  replace (isSimpleObject (VObject [(KStr "source", VString source);
                                    (KStr "flags", VString flags)]))
    with true by reflexivity.
  unfold RegexUnpickle, new_RegExp. cbn. rewrite Hhost. reflexivity.
Qed.


Lemma returns_bind {A B : Type} (m : outcome A) (k : A -> outcome B) :
  returns_or_SyntaxError m ->
  (forall a, returns_or_SyntaxError (k a)) ->
  returns_or_SyntaxError (bind m k).
Proof.
  intros [[a ->]| ->] Hk; cbn [bind]; [apply Hk|right; reflexivity].
Qed.

Lemma returns_Ok {A : Type} (a : A) : returns_or_SyntaxError (Ok a).
Proof. left. eauto. Qed.

Lemma returns_mapM {A B : Type} (f : A -> outcome B) l :
  Forall (fun x => returns_or_SyntaxError (f x)) l ->
  returns_or_SyntaxError (mapM f l).
Proof.
  induction 1 as [|x l Hx _ IH]; cbn [mapM]; [apply returns_Ok|].
  apply returns_bind; [exact Hx|]. intro y.
  apply returns_bind; [exact IH|]. intro ys. apply returns_Ok.
Qed.

Lemma returns_InternalizeProperties (rec : value -> outcome value) (own : props) :
  Forall (fun kv => returns_or_SyntaxError (rec (snd kv))) own ->
  returns_or_SyntaxError (InternalizeProperties rec own).
Proof.
  induction 1 as [|[[k|s] v] own Hv _ IH]; cbn [InternalizeProperties];
    [apply returns_Ok| |].
  - apply returns_bind; [exact Hv|]. intro v'.
    apply returns_bind; [exact IH|]. intro rest. apply returns_Ok.
  - apply returns_bind; [exact IH|]. intro rest. apply returns_Ok.
Qed.

Lemma returns_reviver reg :
  (forall name decoder payload,
      getUnpickler reg name = Some decoder ->
      returns_or_SyntaxError (decoder payload)) ->
  forall v, returns_or_SyntaxError (reviver reg v).
Proof.
  intros Hreg v. unfold reviver.
  destruct (isFlattened v); [|apply returns_Ok].
  destruct (GetFlat v) as [name payload].
  destruct (getUnpickler reg name) as [decoder|] eqn:Hd; [|apply returns_Ok].
  apply returns_bind; [exact (Hreg _ _ payload Hd)|].
  intro res. destruct (negb (isUndefined res)); apply returns_Ok.
Qed.

Lemma returns_Internalize reg :
  (forall name decoder payload,
      getUnpickler reg name = Some decoder ->
      returns_or_SyntaxError (decoder payload)) ->
  forall v, returns_or_SyntaxError (InternalizeJSONProperty (reviver reg) v).
Proof.
  intros Hreg.
  induction v using value_nested_ind; cbn [InternalizeJSONProperty];
    try apply (returns_reviver reg Hreg);
    (apply returns_bind;
     [first [apply returns_mapM; assumption
            |apply returns_InternalizeProperties; assumption]
     |intro; apply (returns_reviver reg Hreg)]).
Qed.

(** Each of the six built-in decoders returns or throws a SyntaxError. *)
Lemma returns_builtin_decoders name decoder payload :
  getUnpickler loaded name = Some decoder ->
  returns_or_SyntaxError (decoder payload).
Proof.
  unfold getUnpickler, getUnpickleHandler, unpicklers, loaded, theUnpicklers.
  cbn [from SymMap_get symbol_eqb Symbol_for MapTag SetTag SymbolTag RegexTag
         DateTag BigIntTag].
  repeat match goal with
         | |- context [String.eqb name ?tag] => destruct (String.eqb name tag)
         end;
    intro H; try discriminate H; injection H as <-.
  - unfold MapUnpickle. destruct (isArrayOf payload is2Tuple); [|apply returns_Ok].
    destruct payload; apply returns_Ok.
  - unfold SetUnpickle. destruct payload; apply returns_Ok.
  - unfold SymbolUnpickle. destruct payload; apply returns_Ok.
  - unfold RegexUnpickle, new_RegExp.
    destruct (_ && _); [|apply returns_Ok].
    destruct (RegExp_new _ _) as [[source flags]|];
      [apply returns_Ok|right; reflexivity].
  - rewrite DateUnpickle_cases. destruct payload; apply returns_Ok.
  - unfold BigIntUnpickle, BigInt_of_string.
    destruct payload; try apply returns_Ok.
    destruct (StringToBigInt s); apply returns_Ok.
Qed.

(** X21. [Unpickle] adds no failure of its own.  When each registered decoder
    returns or throws a SyntaxError, so does [Unpickle] on every text; with
    the built-in decoders alone this is the case. *)
Theorem Unpickle_returns_or_SyntaxError :
  forall reg text,
    (forall name decoder payload,
        getUnpickler reg name = Some decoder ->
        returns_or_SyntaxError (decoder payload)) ->
    returns_or_SyntaxError (Unpickle reg text).
Proof.
  intros reg text Hreg. unfold Unpickle, JSON_parse.
  apply returns_Internalize. exact Hreg.
Qed.

(** X18. Each built-in decoder undoes its encoder on the payload itself,
    before any text is written: for a Map with distinct keys and a Set with
    distinct elements, whatever they hold (each key and element as a Map
    and a Set store it, [stored_key], which is the key or element itself
    but for the negative zero, which no Map and no Set holds); for a symbol
    with a key; for a real RegExp and a Date in the time range, without
    properties of their own; for every BigInt.  The invalid Date is encoded
    as [null], which the decoder answers with [undefined]. *)
Theorem decoders_undo_encoders :
  (forall entries own,
      distinct_from [] (map fst entries) = true ->
      (payload <- MapPickle (VMap entries own) ;; MapUnpickle payload)
      = Ok (VMap (map (fun kv => (stored_key (fst kv), snd kv)) entries) []))
  /\ (forall elems own,
         distinct_from [] elems = true ->
         (payload <- SetPickle (VSet elems own) ;; SetUnpickle payload)
         = Ok (VSet (map stored_key elems) []))
  /\ (forall s key,
         Symbol_keyFor s = Some key ->
         (payload <- SymbolPickle (VSymbol s) ;; SymbolUnpickle payload)
         = Ok (VSymbol s))
  /\ (forall source flags,
         real_RegExp source flags = true ->
         (payload <- RegexPickle (VRegExp source flags []) ;; RegexUnpickle payload)
         = Ok (VRegExp source flags []))
  /\ (forall ms,
         in_time_range ms = true ->
         (payload <- DatePickle (VDate (Some ms) []) ;; DateUnpickle payload)
         = Ok (VDate (Some ms) []))
  /\ (payload <- DatePickle (VDate None []) ;; DateUnpickle payload) = Ok VUndefined
  /\ (forall z,
         (payload <- BigIntPickle (VBigInt z) ;; BigIntUnpickle payload)
         = Ok (VBigInt z)).
Proof.
  repeat split.
  - intros entries own Hd. cbn [MapPickle bind]. unfold MapUnpickle.
    cbn [isArrayOf]. rewrite forallb_mapped.
    replace (forallb (fun kv : value * value => is2Tuple (VArray [fst kv; snd kv] []))
               entries) with true
      by (symmetry; apply forallb_forall; intros; reflexivity).
    rewrite map_map. cbn [pair_of].
    replace (map (fun kv : value * value => (fst kv, snd kv)) entries) with entries
      by (symmetry; apply map_unchanged, Forall_forall; intros [k v] _; reflexivity).
    unfold Map_of. rewrite (Map_of_distinct entries []) by exact Hd. reflexivity.
  - intros elems own Hd. cbn [SetPickle bind SetUnpickle]. unfold Set_of.
    rewrite (Set_of_distinct elems []) by exact Hd. reflexivity.
  - intros s key Hkey. cbn [SymbolPickle]. rewrite Hkey. cbn [bind SymbolUnpickle].
    destruct s; [|discriminate Hkey]. cbn in Hkey. injection Hkey as ->.
    reflexivity.
  - intros source flags Hreal. cbn [RegexPickle bind].
    unfold RegexUnpickle, new_RegExp. cbn.
    unfold real_RegExp in Hreal.
    destruct (RegExp_new source flags) as [[s f]|]; [|discriminate Hreal].
    apply andb_prop in Hreal as [H1 H2].
    apply String.eqb_eq in H1, H2. subst. reflexivity.
  - intros ms Hms.
    replace (DatePickle (VDate (Some ms) []))
      with (@Ok value (VString (Date_toISOString ms))) by reflexivity.
    cbn [bind]. rewrite DateUnpickle_cases.
    rewrite Date_parse_toISOString; [reflexivity|].
    unfold in_time_range in Hms. apply andb_prop in Hms as [H1 H2].
    split; [apply Z.leb_le, H1|apply Z.leb_le, H2].
  - intros z. cbn [BigIntPickle bind]. unfold BigIntUnpickle, BigInt_of_string.
    rewrite StringToBigInt_toString. reflexivity.
Qed.

Lemma test_registry_builtins : builtins_registered test_registry.
Proof.
  unfold test_registry.
  apply RegisterForPickling_builtins; [|reflexivity].
  apply RegisterForPickling_builtins; [|reflexivity].
  exact loaded_builtins_registered.
Qed.
End Properties.

(** * The host [UtcHost] is a host *)

Module UtcHostFacts.
Import UtcHost.
Open Scope Z_scope.

Lemma days_from_civil_from_days days :
let '(y, m, d) := civil_from_days days in days_from_civil y m d = days.
Proof.
unfold civil_from_days, days_from_civil.
set (z := days + 719468).
set (era := z / 146097). set (doe := z mod 146097).
set (yoe := (doe - doe / 1460 + doe / 36524 - doe / 146096) / 365).
set (doy := doe - (365 * yoe + yoe / 4 - yoe / 100)).
set (mp := (5 * doy + 2) / 153).
assert (Hdoe : 0 <= doe < 146097) by (apply Z.mod_pos_bound; lia).
assert (Hb : 0 <= yoe <= 399 /\ 0 <= doy <= 366).
{ subst yoe doy. clearbody doe. clear -Hdoe. Z.div_mod_to_equations. lia. }
destruct Hb as [Hyoe Hdoy].
assert (Hmp : 0 <= mp <= 11).
{ subst mp. clearbody doy. Z.div_mod_to_equations. lia. }
assert (Hz : days + 719468 = era * 146097 + doe).
{ subst era doe. pose proof (Z.div_mod z 146097). subst z. lia. }
assert (Hdoy' : doe = yoe * 365 + yoe / 4 - yoe / 100 + doy) by (subst doy; lia).
clearbody mp doy yoe era doe.
destruct (mp <? 10) eqn:Hlt.
- apply Z.ltb_lt in Hlt.
  replace (mp + 3 <=? 2) with false by (symmetry; apply Z.leb_gt; lia).
  replace (2 <? mp + 3) with true by (symmetry; apply Z.ltb_lt; lia).
  replace (yoe + era * 400 + 0) with (yoe + era * 400) by lia.
  rewrite Z.div_add, Z.mod_add, Z.div_small, Z.mod_small by lia.
  replace (mp + 3 - 3) with mp by lia. lia.
- apply Z.ltb_ge in Hlt.
  replace (mp - 9 <=? 2) with true by (symmetry; apply Z.leb_le; lia).
  replace (2 <? mp - 9) with false by (symmetry; apply Z.ltb_ge; lia).
  replace (yoe + era * 400 + 1 - 1) with (yoe + era * 400) by lia.
  rewrite Z.div_add, Z.mod_add, Z.div_small, Z.mod_small by lia.
  replace (mp - 9 + 9) with mp by lia. lia.
Qed.

Lemma civil_from_days_bounds days :
-100000000 <= days <= 100000000 ->
let '(y, m, d) := civil_from_days days in
-999999 <= y <= 999999 /\ 1 <= m <= 12 /\ 1 <= d <= 31.
Proof.
intro Hdays. unfold civil_from_days.
set (z := days + 719468).
set (era := z / 146097). set (doe := z mod 146097).
set (yoe := (doe - doe / 1460 + doe / 36524 - doe / 146096) / 365).
set (doy := doe - (365 * yoe + yoe / 4 - yoe / 100)).
set (mp := (5 * doy + 2) / 153).
assert (Hdoe : 0 <= doe < 146097) by (apply Z.mod_pos_bound; lia).
assert (Hb : 0 <= yoe <= 399 /\ 0 <= doy <= 366).
{ subst yoe doy. clearbody doe. clear -Hdoe. Z.div_mod_to_equations. lia. }
destruct Hb as [Hyoe Hdoy].
assert (Hmp : 0 <= mp <= 11 /\ 1 <= doy - (153 * mp + 2) / 5 + 1 <= 31).
{ subst mp. clearbody doy. Z.div_mod_to_equations. lia. }
assert (Hera : -700 <= era <= 700).
{ subst era z. Z.div_mod_to_equations. lia. }
clearbody mp doy yoe era doe.
destruct (mp <? 10) eqn:Hlt;
  [apply Z.ltb_lt in Hlt|apply Z.ltb_ge in Hlt];
  destruct (_ <=? 2); lia.
Qed.

Lemma small_digit d : 0 <= d < 10 ->
d = 0 \/ d = 1 \/ d = 2 \/ d = 3 \/ d = 4 \/ d = 5 \/ d = 6 \/ d = 7 \/ d = 8 \/ d = 9.
Proof. lia. Qed.

Lemma digit_char_facts d : 0 <= d < 10 ->
digit_value (digit_char d) = Some d
/\ Ascii.eqb (digit_char d) "+" = false
/\ Ascii.eqb (digit_char d) "-" = false.
Proof.
intro H. destruct (small_digit d H) as [->|[->|[->|[->|[->|[->|[->|[->|[->| ->]]]]]]]]];
  repeat split; reflexivity.
Qed.

Lemma read_pad width : forall n acc rest,
0 <= n < 10 ^ Z.of_nat width ->
read_digits width acc (pad_digits width n ++ rest)%string
= Some (acc * 10 ^ Z.of_nat width + n, rest).
Proof.
induction width as [|w IH]; intros n acc rest Hn.
- simpl in *. f_equal. f_equal. lia.
- cbn [pad_digits read_digits String.append].
  rewrite Nat2Z.inj_succ, Z.pow_succ_r in Hn by lia.
  assert (Hpow : 0 < 10 ^ Z.of_nat w) by (apply Z.pow_pos_nonneg; lia).
  assert (Hd : 0 <= n / 10 ^ Z.of_nat w < 10).
  { split; [apply Z.div_pos; lia|apply Z.div_lt_upper_bound; lia]. }
  destruct (digit_char_facts _ Hd) as (-> & _ & _).
  replace (n / 10 ^ Z.of_nat w <? 10) with true by (symmetry; apply Z.ltb_lt; lia).
  rewrite IH by (apply Z.mod_pos_bound; exact Hpow).
  rewrite Nat2Z.inj_succ, Z.pow_succ_r by lia.
  f_equal. f_equal. pose proof (Z.div_mod n (10 ^ Z.of_nat w)). nia.
Qed.

Lemma read_pad0 width n rest :
0 <= n < 10 ^ Z.of_nat width ->
read_digits width 0 (pad_digits width n ++ rest)%string = Some (n, rest).
Proof. intro H. rewrite read_pad by exact H. reflexivity. Qed.

Lemma after_hit {A : Type} sep (r otherwise : reader A) rest :
after sep r otherwise (String sep rest) = r rest.
Proof. unfold after. rewrite Ascii.eqb_refl. reflexivity. Qed.

Lemma after_miss {A : Type} sep (r otherwise : reader A) c rest :
Ascii.eqb c sep = false ->
after sep r otherwise (String c rest) = otherwise (String c rest).
Proof. intro H. unfold after. rewrite H. reflexivity. Qed.

Lemma read_year_text y rest :
-999999 <= y <= 999999 ->
read_year (year_text y ++ rest)%string = Some (y, rest).
Proof.
intro Hy. unfold read_year, year_text.
destruct ((0 <=? y) && (y <=? 9999)) eqn:Hsmall.
- apply andb_prop in Hsmall as [H0 H1]. apply Z.leb_le in H0, H1.
  assert (Hyb : 0 <= y < 10 ^ Z.of_nat 4) by (simpl; lia).
  assert (Hd : 0 <= y / 10 ^ Z.of_nat 3 < 10).
  { simpl. split; [apply Z.div_pos; lia|apply Z.div_lt_upper_bound; lia]. }
  destruct (digit_char_facts _ Hd) as (_ & Hplus & Hminus).
  assert (Hshape : (pad_digits 4 y ++ rest)%string
                   = String (digit_char (y / 10 ^ Z.of_nat 3))
                            (pad_digits 3 (y mod 10 ^ Z.of_nat 3) ++ rest)%string)
    by reflexivity.
  rewrite Hshape.
  rewrite after_miss by exact Hplus. rewrite after_miss by exact Hminus.
  rewrite <- Hshape. rewrite read_pad0 by exact Hyb.
  reflexivity.
- destruct (y <? 0) eqn:Hneg.
  + apply Z.ltb_lt in Hneg. cbn [String.append].
    rewrite after_miss by reflexivity. rewrite after_hit.
    unfold then_. rewrite read_pad0 by (simpl; lia).
    replace (Z.abs y =? 0) with false
      by (symmetry; apply Z.eqb_neq; lia).
    unfold give. f_equal. f_equal. lia.
  + apply Z.ltb_ge in Hneg. cbn [String.append].
    rewrite after_hit. rewrite read_pad0 by (simpl; lia).
    f_equal. f_equal. lia.
Qed.

Lemma parse_toISOString t :
-8640000000000000 <= t <= 8640000000000000 ->
parse (toISOString t) = Some t.
Proof.
intro Ht. unfold toISOString, parse.
pose proof (days_from_civil_from_days (t / msPerDay)) as Hback.
assert (Hdays : -100000000 <= t / msPerDay <= 100000000).
{ unfold msPerDay. Z.div_mod_to_equations. lia. }
pose proof (civil_from_days_bounds _ Hdays) as Hb.
destruct (civil_from_days (t / msPerDay)) as [[y m] d] eqn:Hciv.
destruct Hb as (Hy & Hm & Hd).
set (ms := t mod msPerDay).
assert (Hms : 0 <= ms < 86400000) by (apply Z.mod_pos_bound; reflexivity).
assert (Ht' : t = t / msPerDay * msPerDay + ms).
{ subst ms. pose proof (Z.div_mod t msPerDay). unfold msPerDay in *. lia. }
clearbody ms.
unfold then_ at 1. rewrite (read_year_text y _ Hy).
unfold then_ at 1. rewrite after_hit, read_pad0 by (simpl; lia).
unfold then_ at 1. rewrite after_hit, read_pad0 by (simpl; lia).
unfold then_ at 1. unfold read_time. rewrite after_hit.
unfold then_ at 1.
rewrite read_pad0 by (simpl; Z.div_mod_to_equations; lia).
rewrite after_hit. unfold then_ at 1.
rewrite read_pad0 by (simpl; Z.div_mod_to_equations; lia).
unfold then_ at 1. rewrite after_hit. unfold then_ at 1.
rewrite read_pad0 by (simpl; Z.div_mod_to_equations; lia).
unfold then_ at 1. rewrite after_hit.
rewrite read_pad0 by (simpl; Z.div_mod_to_equations; lia).
unfold give at 1. unfold then_ at 1. unfold read_offset.
cbn [String.append]. rewrite after_hit. unfold give at 1.
match goal with
| |- context [if ?c then _ else _] =>
    replace c with true
      by (symmetry; rewrite orb_true_iff; left;
          rewrite !andb_true_iff, !Z.leb_le, Z.ltb_lt;
          simpl; Z.div_mod_to_equations; lia)
end.
unfold give. rewrite Hback, Hciv. unfold civil_eqb. rewrite !Z.eqb_refl.
cbn [andb].
assert (Hsum : t / msPerDay * msPerDay
               + (ms / 3600000 * 3600000
                  + ms / 60000 mod 60 * 60000
                  + (ms / 1000 mod 60 * 1000 + ms mod 1000) - 0) = t).
{ clear -Ht' Hms. unfold msPerDay in *. Z.div_mod_to_equations. lia. }
rewrite Hsum.
replace (-8640000000000000 <=? t) with true by (symmetry; apply Z.leb_le; lia).
replace (t <=? 8640000000000000) with true by (symmetry; apply Z.leb_le; lia).
reflexivity.
Qed.
End UtcHostFacts.

#[export] Instance utc_host : Host := {|
  Date_toISOString := UtcHost.toISOString;
  Date_parse := UtcHost.parse;
  RegExp_new := UtcHost.RegExp_create;
  Date_parse_toISOString := UtcHostFacts.parse_toISOString
|}.

(** * The claims on the host [UtcHost] *)

(** ** C1 *)

(** C1, witness: a Map holding a Set of a Date, and a RegExp, comes back. *)
Lemma Unpickle_Pickle_faithful_witness : round_trips loaded 7 nested_map.
Proof.
  apply (Unpickle_Pickle_faithful loaded nested_map 7).
  - exact loaded_builtins_registered.
  - reflexivity.
  - vm_compute. repeat constructor.
Defined.

(** C1, counterexample: [new Set([undefined])] is written
    [{"@dataType":"freik.Set","@dataValue":[null]}] and comes back as
    [new Set([null])], whatever the fuel. *)
Lemma set_of_undefined_does_not_round_trip :
  ~ exists fuel, round_trips loaded fuel set_of_undefined.
Proof.
  intros [fuel [text [Hp Hu]]].
  destruct fuel as [|[|[|fuel]]]; try discriminate Hp.
  cbn in Hp. injection Hp as <-. cbn in Hu. discriminate Hu.
Qed.

(** What [Unpickle] makes of the text of [new Set([1n])]: the envelope
    record itself, not a Set.  [isFlattened] asks [isSimpleObject] of the
    payload after the BigInt inside has been decoded, and [isSimpleObject]
    refuses a BigInt. *)
Lemma set_of_BigInt_comes_back_as_envelope :
  Pickle loaded 4 set_of_BigInt
  = Ok (Some (envelope "freik.Set" (JArray [envelope "freik.BigInt" (JString "1")])))
  /\ Unpickle loaded
       (envelope "freik.Set" (JArray [envelope "freik.BigInt" (JString "1")]))
     = Ok (MakeFlat "freik.Set" (VArray [VBigInt 1] [])).
Proof. split; reflexivity. Qed.

(** ** C2 *)

(** C2, witness: the envelope of [new Set(['a','b'])]. *)
Lemma envelope_fields_witness :
  replacer loaded (VSet [VString "a"; VString "b"] []) VNull
  = Ok (VObject [(KStr "@dataType", VString "freik.Set");
                 (KStr "@dataValue", VArray [VString "a"; VString "b"] [])])
  /\ Object_keys (MakeFlat "freik.Set" (VArray [VString "a"; VString "b"] []))
     = ["@dataType"; "@dataValue"]
  /\ GetFlat (MakeFlat "freik.Set" (VArray [VString "a"; VString "b"] []))
     = ("freik.Set", VArray [VString "a"; VString "b"] [])
  /\ forall fuel, Pickle loaded (4 + fuel) set_in_list = Ok (Some set_in_list_text).
Proof.
  apply (envelope_fields loaded (VSet [VString "a"; VString "b"] []) VNull
           (VArray [VString "a"; VString "b"] []) SetTag SetPickle "freik.Set").
  - reflexivity.
  - reflexivity.
  - discriminate.
  - reflexivity.
Defined.

(** C2, counterexample: the text of [[new Set(['a','b'])]] is not the one
    with the fields [typeTag] and [typeValue]. *)
Lemma envelope_fields_are_not_typeTag_typeValue :
  Pickle loaded 4 set_in_list <> Ok (Some set_in_list_as_claimed).
Proof. cbn. discriminate. Qed.

(** ** C3 *)



(** ** C4 *)

(** C4, witness: a keyless symbol in a Set, in an object, in an array. *)
Lemma Pickle_throws_on_keyless_symbol_witness :
  Pickle loaded 5 symbol_deep_inside = Throw keyless_symbol_error.
Proof.
  apply (proj2 (Pickle_throws_on_keyless_symbol loaded eq_refl)).
  apply (meets_in_array loaded 4 [VNumber 1%float] _ []); [reflexivity| |].
  - constructor; [|constructor]. eexists. reflexivity.
  - apply (meets_in_object loaded 3 [] "a" _ []); try reflexivity; [constructor|].
    apply (meets_in_set loaded 1 [] _ [] []); [reflexivity|constructor|].
    apply meets_here.
Defined.

(** ** C5 *)

(** C5. On a string that is no date, the Date decoder does not signal
    absence: it returns the invalid Date, and [Unpickle] puts that Date in
    the place of the envelope. *)
Theorem DateUnpickle_of_text_that_is_no_date :
  Date_parse "not a date" = None
  /\ DateUnpickle (VString "not a date") = Ok (VDate None [])
  /\ Unpickle loaded (envelope "freik.Date" (JString "not a date"))
     = Ok (VDate None []).
Proof. repeat split; reflexivity. Qed.

(** ** C6 *)

(** C6, witness: a Map with a registered marker goes to the encoder of the
    marker. *)
Lemma getPickler_dispatch_witness :
  getPickler test_registry marked_map = Some (Test2Symbol, Test2Pickle).
Proof.
  apply (proj2 (proj2 (getPickler_dispatch test_registry marked_map))).
  - reflexivity.
  - reflexivity.
Defined.

(** C6, counterexample: a Date with a marker nobody registered an encoder
    for is not encoded as the built-in kinds decide (by the Date encoder,
    under the Date tag) but by its own [toJSON], under its marker. *)
Lemma marked_date_is_not_dispatched_as_claimed :
  getPickler loaded marked_date <> dispatch_as_claimed loaded marked_date.
Proof.
assert (Hcode : getPickler loaded marked_date = Some (TestSymbol, toJSON_pickler))
  by reflexivity.
assert (Hclaim : dispatch_as_claimed loaded marked_date = Some (DateTag, DatePickle))
  by reflexivity.
rewrite Hcode, Hclaim. intro H. injection H as Hsym _.
unfold TestSymbol, DateTag, Symbol_for in Hsym. discriminate Hsym.
Qed.

(** ** C7 *)



(** ** C8 *)

(** C8, witness: the text of a Map under a predicate for Maps, and under a
    predicate for Sets; and the text [{"a":1,"d":null}] under
    [chkObjectOfType({ a: isNumber })], which deletes the field [d] of the
    object it accepts. *)
Lemma SafelyUnpickle_checks_the_root_witness :
  (exists text, Pickle loaded 7 nested_map = Ok (Some text)
                /\ SafelyUnpickle loaded text (looking isMap) = Ok nested_map)
  /\ (exists text, Pickle loaded 7 nested_map = Ok (Some text)
                   /\ SafelyUnpickle loaded text (looking isSet) = Ok VUndefined)
  /\ SafelyUnpickle loaded (JObject [("a", JNumber 1%float); ("d", JNull)])
       (chkObjectOfType [("a", isNumber)] [])
     = Ok (VObject [(KStr "a", VNumber 1%float)]).
Proof.
  assert (Hneed : need nested_map <= 7) by (vm_compute; repeat constructor).
  split; [|split].
  - exact (proj2 (proj2 (SafelyUnpickle_checks_the_root loaded)) nested_map 7 isMap
             loaded_builtins_registered eq_refl Hneed).
  - exact (proj2 (proj2 (SafelyUnpickle_checks_the_root loaded)) nested_map 7 isSet
             loaded_builtins_registered eq_refl Hneed).
  - exact (proj1 (SafelyUnpickle_checks_the_root loaded)
             (JObject [("a", JNumber 1%float); ("d", JNull)])
             (chkObjectOfType [("a", isNumber)] [])
             (VObject [(KStr "a", VNumber 1%float); (KStr "d", VNull)])
             true
             (VObject [(KStr "a", VNumber 1%float)])
             eq_refl eq_refl).
Defined.

(** C8, counterexample: [new Set([undefined])] is a Set, and [isSet] accepts
    it; from its text [SafelyUnpickle] under [isSet] returns
    [new Set([null])], which is another value. *)
Lemma set_of_undefined_is_not_returned_when_checked :
  isSet set_of_undefined = true
  /\ ~ exists fuel, returned_when_checked loaded fuel set_of_undefined (looking isSet).
Proof.
  split; [reflexivity|].
  intros [fuel [text [Hp Hs]]].
  destruct fuel as [|[|[|fuel]]]; try discriminate Hp.
  cbn in Hp. injection Hp as <-. cbn in Hs. discriminate Hs.
Qed.

(** ** C10 *)

(** C10, witness: a value marked with a keyless symbol that has a registered
    encoder is written as the plain object it is. *)
Lemma replacer_passes_keyless_marker_through_witness :
  replacer keyless_registry keyless_marked keyless_marked = Ok keyless_marked
  /\ Pickle keyless_registry 2 keyless_marked
     = Ok (Some (JObject [("value1", JString "a")])).
Proof.
  destruct (replacer_passes_keyless_marker_through keyless_registry keyless_marked
              keyless_marked KeylessSymbol Test2Pickle eq_refl eq_refl eq_refl eq_refl)
    as [Hrep Hser].
  split; [exact Hrep|].
  unfold Pickle, JSON_stringify. rewrite Hser. reflexivity.
Defined.

(** * The further properties on the host [UtcHost] *)

Ltac distinct_strings :=
  vm_compute; repeat (constructor; [cbn; intuition discriminate|]); constructor.

(** X1, witness: [theType] under the tables of the tests. *)
Lemma isObjectOfType_accepts_iff_witness :
  exists loose strict obj',
    isObjectOfType theType required optional = Some (loose, obj')
    /\ isObjectOfExactType theType required optional = Some (strict, obj')
    /\ (loose = true <-> shape_accepted false theType required optional)
    /\ (strict = true <-> shape_accepted true theType required optional).
Proof.
  apply (isObjectOfType_accepts_iff theType required optional).
  - reflexivity.
  - reflexivity.
  - distinct_strings.
  - reflexivity.
  - distinct_strings.
  - intros k [<-|[<-|[]]]; reflexivity.
Defined.

(** X2, witness: [{ a: 2, b: () => '', d: null }] is accepted and left
    without [d]. *)
Lemma isObjOfHelper_accepted_is_cleaned_witness :
  without_null_field = without_empty with_null_field.
Proof.
  apply (isObjOfHelper_accepted_is_cleaned false with_null_field required optional
           without_null_field).
  - reflexivity.
  - distinct_strings.
  - reflexivity.
Defined.

(** X3, witness: [{ a: 2, b: () => '', d: null }] under the tables of the
    tests, and the array [[null, 1]] with [x: null] under [{ 1: isNumber }]. *)
Lemma isObjOfHelper_deletes_only_empty_fields_witness :
  (exists answer obj',
      isObjOfHelper false with_null_field required optional = Some (answer, obj'))
  /\ (without_null_field
      = rebuilt with_null_field (elements without_null_field)
          (own_props without_null_field)
      /\ Forall2 same_or_hole (elements with_null_field) (elements without_null_field)
      /\ (forall kv, In kv (own_props without_null_field) ->
                     In kv (own_props with_null_field))
      /\ (forall kv, In kv (own_props with_null_field) -> kept kv = true ->
                     In kv (own_props without_null_field)))
  /\ (sparse_checked
      = rebuilt sparse (elements sparse_checked) (own_props sparse_checked)
      /\ Forall2 same_or_hole (elements sparse) (elements sparse_checked)
      /\ (forall kv, In kv (own_props sparse_checked) -> In kv (own_props sparse))
      /\ (forall kv, In kv (own_props sparse) -> kept kv = true ->
                     In kv (own_props sparse_checked))).
Proof.
  assert (Hobject : NoDup (Object_keys with_null_field)) by distinct_strings.
  assert (Harray : NoDup (Object_keys sparse)) by distinct_strings.
  split; [|split].
  - apply (proj1 (isObjOfHelper_deletes_only_empty_fields false with_null_field
                    required optional Hobject)).
    reflexivity.
  - apply (proj2 (isObjOfHelper_deletes_only_empty_fields false with_null_field
                    required optional Hobject) true without_null_field).
    reflexivity.
  - apply (proj2 (isObjOfHelper_deletes_only_empty_fields false sparse at_one []
                    Harray) true sparse_checked).
    reflexivity.
Defined.

(** X4, witness: the second check of the same object, and of the same
    array. *)
Lemma isObjOfHelper_idempotent_witness :
  isObjOfHelper false without_null_field required optional
  = Some (true, without_null_field)
  /\ isObjOfHelper false sparse_checked at_one [] = Some (true, sparse_checked).
Proof.
  assert (Hobject : NoDup (Object_keys with_null_field)) by distinct_strings.
  assert (Harray : NoDup (Object_keys sparse)) by distinct_strings.
  split.
  - apply (proj2 (isObjOfHelper_idempotent false with_null_field required optional
                    Hobject) true without_null_field).
    reflexivity.
  - apply (proj2 (isObjOfHelper_idempotent false sparse at_one [] Harray)
             true sparse_checked).
    reflexivity.
Defined.

(** X5, witness: [a] required and optional, on an object and on an array. *)
Lemma isObjOfHelper_refuses_when_listed_twice_witness :
  (exists obj', isObjOfHelper false theType required [("a", isNumber)]
                = Some (false, obj'))
  /\ (exists obj', isObjOfHelper false sparse at_one at_one = Some (false, obj')).
Proof.
  split.
  - apply (isObjOfHelper_refuses_when_listed_twice false theType required
             [("a", isNumber)] "a").
    + distinct_strings.
    + reflexivity.
    + left. reflexivity.
    + left. reflexivity.
  - apply (isObjOfHelper_refuses_when_listed_twice false sparse at_one at_one "1").
    + distinct_strings.
    + reflexivity.
    + left. reflexivity.
    + left. reflexivity.
Defined.

(** X7, witness: [theType] becomes [{ a: 1, b: null, c: {} }]. *)
Lemma asSimpleObject_returns_a_SimpleObject_witness :
  exists r, asSimpleObject theType VNull = Some r /\ isSimpleObject r = true.
Proof.
  apply (asSimpleObject_returns_a_SimpleObject theType VNull); reflexivity.
Defined.

(** X8, witness. *)
Lemma asSimpleObject_keeps_plain_data_witness :
  isSimpleObject plain_data = true /\ asSimpleObject plain_data VNull = Some plain_data.
Proof.
  apply (asSimpleObject_keeps_plain_data plain_data VNull). reflexivity.
Defined.

(** X9, witness: a second call on [{ a: 1, b: null, c: {} }]. *)
Lemma asSimpleObject_idempotent_witness :
  asSimpleObject
    (VObject [(KStr "a", VNumber 1%float); (KStr "b", VNull); (KStr "c", VObject [])])
    VNull
  = Some (VObject [(KStr "a", VNumber 1%float); (KStr "b", VNull);
                   (KStr "c", VObject [])]).
Proof.
  apply (asSimpleObject_idempotent theType VNull _ VNull); reflexivity.
Defined.

(** X10, witness: [new Map([[1n, () => null]])]. *)
Lemma isSimpleObject_accepts_bare_objects_witness :
  isSimpleObject map_of_BigInt = true
  /\ asSimpleObject map_of_BigInt VNull = Some (VObject []).
Proof.
  apply (isSimpleObject_accepts_bare_objects map_of_BigInt VNull); reflexivity.
Defined.

(** X11, witness: [new Map([["a", 1]])] and [new Set(["a", 1])]. *)
Lemma isMapOf_isSetOf_by_the_payload_witness :
  (exists payload,
      MapPickle (VMap [(VString "a", VNumber 1%float)] []) = Ok payload
      /\ isMapOf (VMap [(VString "a", VNumber 1%float)] []) isString isNumber
         = isArrayOf payload (chk2TupleOf isString isNumber))
  /\ (exists payload,
         SetPickle (VSet [VString "a"; VNumber 1%float] []) = Ok payload
         /\ isSetOf (VSet [VString "a"; VNumber 1%float] []) isString
            = isArrayOf payload isString).
Proof.
  split.
  - apply (proj1 (isMapOf_isSetOf_by_the_payload
                    (VMap [(VString "a", VNumber 1%float)] [])
                    isString isNumber isString)).
    reflexivity.
  - apply (proj2 (isMapOf_isSetOf_by_the_payload
                    (VSet [VString "a"; VNumber 1%float] [])
                    isString isNumber isString)).
    reflexivity.
Defined.

(** X12, witness. *)
Lemma MapUnpickle_SetUnpickle_keep_the_types_witness :
  (exists m, MapUnpickle pairs_payload = Ok m /\ isMapOf m isString isNumber = true)
  /\ (exists s, SetUnpickle (VArray [VString "a"; VString "b"] []) = Ok s
                /\ isSetOf s isString = true).
Proof.
  split.
  - apply (proj1 (MapUnpickle_SetUnpickle_keep_the_types pairs_payload
                    isString isNumber isString)).
    + intros k Hk. destruct k; try discriminate Hk. reflexivity.
    + reflexivity.
  - apply (proj2 (MapUnpickle_SetUnpickle_keep_the_types
                    (VArray [VString "a"; VString "b"] [])
                    isString isNumber isString)).
    + intros x Hx. destruct x; try discriminate Hx. reflexivity.
    + reflexivity.
Defined.

(** X14, witness: after the first registration of the tests. *)
Lemma RegisterForPickling_keeps_the_round_trip_witness :
  round_trips (RegisterForPickling loaded TestSymbol (fun _ => Ok MakeType) None)
    7 nested_map.
Proof.
  apply (proj2 (RegisterForPickling_keeps_the_round_trip loaded TestSymbol
                  (fun _ => Ok MakeType) None loaded_builtins_registered eq_refl)
           nested_map 7).
  - reflexivity.
  - vm_compute. repeat constructor.
Defined.

(** X15, witness: [MakeType2()] of the tests comes back. *)
Lemma Unpickle_Pickle_custom_type_witness :
  exists payload,
    text_of (VString "My Test2 Thingy") = Some payload
    /\ Pickle test_registry 2 MakeType2 = Ok (Some (envelope "pickler.Test2" payload))
    /\ Unpickle test_registry (envelope "pickler.Test2" payload) = Ok MakeType2.
Proof.
  apply (Unpickle_Pickle_custom_type test_registry MakeType2 Test2Symbol
           "pickler.Test2" Test2Pickle (fun _ => Ok MakeType2)
           (VString "My Test2 Thingy") MakeType2 0).
  - exact test_registry_builtins.
  - reflexivity.
  - reflexivity.
  - reflexivity.
  - reflexivity.
  - reflexivity.
  - vm_compute. repeat constructor.
  - reflexivity.
  - reflexivity.
  - reflexivity.
  - reflexivity.
Defined.

(** X16, witness: [new Set(['a'])] and the plain object
    [{ '@dataType': 'freik.Set', '@dataValue': ['a'] }]. *)
Lemma Pickle_of_tagged_is_Pickle_of_its_envelope_witness :
  Pickle loaded 3 (VSet [VString "a"] [])
  = Pickle loaded 3 (MakeFlat "freik.Set" (VArray [VString "a"] [])).
Proof.
  apply (Pickle_of_tagged_is_Pickle_of_its_envelope loaded (VSet [VString "a"] [])
           SetTag SetPickle "freik.Set" (VArray [VString "a"] []) 1);
    reflexivity.
Defined.

(** X17, witness: [[undefined, NaN, new Set([1n]), new Date(NaN)]] comes
    back as [[null, null, S, D]], [S] and [D] being the records of the
    envelopes of the Set and of the Date. *)
Lemma Unpickle_Pickle_is_read_back_witness :
  exists text,
    Pickle loaded 5 list_of_unfaithful = Ok (Some text)
    /\ Unpickle loaded text
       = Ok (VArray [ VNull; VNull;
                      MakeFlat "freik.Set" (VArray [VBigInt 1] []);
                      MakeFlat "freik.Date" VNull ] []).
Proof.
  apply (Unpickle_Pickle_is_read_back loaded list_of_unfaithful 5).
  - exact loaded_builtins_registered.
  - reflexivity.
  - reflexivity.
  - vm_compute. repeat constructor.
Defined.

(** X18, witness: the entries of [nested_map]. *)
Lemma decoders_undo_encoders_witness :
  (payload <- MapPickle nested_map ;; MapUnpickle payload) = Ok nested_map.
Proof.
  apply (proj1 decoders_undo_encoders). reflexivity.
Defined.

(** X19, witness: the flags [gg]. *)
Lemma Unpickle_throws_on_a_refused_RegExp_witness :
  Unpickle loaded (envelope "freik.RegExp"
                     (JObject [("source", JString "a"); ("flags", JString "gg")]))
  = Throw SyntaxError.
Proof.
  apply (Unpickle_throws_on_a_refused_RegExp loaded "a" "gg"); reflexivity.
Defined.


(** X21, witness: the built-in decoders. *)
Lemma Unpickle_returns_or_SyntaxError_witness :
  returns_or_SyntaxError (Unpickle loaded unknown_envelope_text).
Proof.
  apply (Unpickle_returns_or_SyntaxError loaded unknown_envelope_text).
  exact returns_builtin_decoders.
Defined.

(** X22, witness: [['a', 'b']] and [{ a: 'b' }]. *)
Lemma strings_make_SimpleObjects_witness :
  isSimpleObject (VArray [VString "a"; VString "b"] []) = true
  /\ isSimpleObject (VObject [(KStr "a", VString "b")]) = true.
Proof.
  split.
  - apply (proj1 (strings_make_SimpleObjects (VArray [VString "a"; VString "b"] []))).
    reflexivity.
  - apply (proj2 (strings_make_SimpleObjects (VObject [(KStr "a", VString "b")]))).
    reflexivity.
Defined.
